(** * Audit orchestration engine: scoring, rate limiting, header probe,
      report builder and audit runner

    A shallow embedding of the Python backend (app/utils/scoring.py,
    app/utils/security_headers.py, app/core/rate_limit.py,
    app/services/report_builder.py, app/services/audit_runner.py) and the
    properties its specification states about it.

    Conventions of the embedding:
    - a Python [int] is a [Z]; [len(l)] is [Z.of_nat (length l)];
    - a Python [str] is a [string] whose characters are the code points below
      256 (every literal of the source is plain ASCII);
    - a [datetime] is a [Z], the microseconds since the epoch, the resolution
      of [datetime]; a [float] duration is a [Z] number of milliseconds;
    - a Python [set] of strings is a [gset string], a [dict] a [gmap];
    - [Optional[T]] is [option T]; an exception is its description, [str(e)]. *)

From Stdlib Require Import ZArith String Ascii List Lia Bool.
From stdpp Require Import base gmap sets list strings pretty.

Open Scope Z_scope.
#[local] Set Warnings "-clear-no-such-hyp".

(** ** Python built-ins used by the source *)

Module Py.

(** [len] of a list and of a string. *)
Definition len {A} (l : list A) : Z := Z.of_nat (length l).
Definition str_len (s : string) : Z := Z.of_nat (String.length s).

(** [str.lower] on one code point below 256: the ASCII capitals and the
    Latin-1 capitals (U+00C0..U+00DE without the multiplication sign). *)
Definition lower_char (c : ascii) : ascii :=
  let n := nat_of_ascii c in
  if ((65 <=? n) && (n <=? 90))%nat then ascii_of_nat (n + 32)
  else if ((192 <=? n) && (n <=? 222) && negb (n =? 215))%nat then ascii_of_nat (n + 32)
  else c.

Fixpoint lower (s : string) : string :=
  match s with
  | EmptyString => EmptyString
  | String c r => String (lower_char c) (lower r)
  end.

(** [str.isspace] on one code point below 256. *)
Definition isspace (c : ascii) : bool :=
  let n := nat_of_ascii c in
  (((9 <=? n) && (n <=? 13)) || ((28 <=? n) && (n <=? 32)) || (n =? 133) || (n =? 160))%nat.

Fixpoint lstrip (s : string) : string :=
  match s with
  | EmptyString => EmptyString
  | String c r => if isspace c then lstrip r else s
  end.

(** [rstrip]: the string without its trailing white space. *)
Fixpoint rstrip (s : string) : string :=
  match s with
  | EmptyString => EmptyString
  | String c r =>
      match rstrip r with
      | EmptyString => if isspace c then EmptyString else String c EmptyString
      | r' => String c r'
      end
  end.

Definition strip (s : string) : string := rstrip (lstrip s).

(** [s.startswith(p)]. *)
Fixpoint startswith (p s : string) : bool :=
  match p, s with
  | EmptyString, _ => true
  | String a p', String b s' => if Ascii.eqb a b then startswith p' s' else false
  | String _ _, EmptyString => false
  end.

(** [l[:k]] for a possibly negative stop [k]. *)
Definition slice_to {A} (k : Z) (l : list A) : list A :=
  if 0 <=? k then take (Z.to_nat k) l
  else take (length l - Z.to_nat (- k)) l.

(** Truthiness of a string: non-empty. *)
Definition truthy (s : string) : bool :=
  match s with EmptyString => false | _ => true end.

End Py.

(** ** app/schemas.py *)

Inductive AuditStatus := QUEUED | RUNNING | DONE | ERROR.

Inductive Severity := Severity_ERROR | Severity_WARNING | Severity_INFO.

(** [Literal["ok", "error", "warning"]] *)
Inductive FlowStatus := flow_ok | flow_error | flow_warning.

#[export] Instance AuditStatus_eq_dec : EqDecision AuditStatus.
Proof. solve_decision. Defined.

#[export] Instance FlowStatus_eq_dec : EqDecision FlowStatus.
Proof. solve_decision. Defined.

Record AuditOptions := {
  max_pages : Z;                  (* Field(default=20, ge=1, le=100) *)
  max_depth : Z;                  (* Field(default=2, ge=1, le=5) *)
  enable_form_submit : bool;
  include_accessibility : bool;
  screenshot_on_error : bool;
}.

Record AuditProgress := {
  stage : string;
  percent : Z;
  current_url : option string;
  pages_visited : Z;
  errors_found : Z;
  message : option string;
}.

Record ConsoleError := {
  ce_message : string;
  ce_location : option string;
  ce_page_url : string;
  ce_severity : Severity;
  ce_stack : option string;
  ce_timestamp : option string;
}.

Record NetworkFailure := {
  nf_url : string;
  nf_method : string;
  nf_status : option Z;
  nf_error : option string;
  nf_duration_ms : option Z;
  nf_page_url : string;
  nf_resource_type : option string;
}.

Record UIFlowResult := {
  page_url : string;
  flow_status : FlowStatus;
  notes : option string;
  screenshot_path : option string;
  load_time_ms : option Z;
}.

Record PageTiming := {
  pt_url : string;
  ttfb_ms : option Z;
  dom_content_loaded_ms : option Z;
  load_ms : option Z;
}.

Record LargeAsset := {
  la_url : string;
  size_bytes : Z;
  la_type : string;
  la_page_url : string;
}.

Record SlowEndpoint := {
  se_url : string;
  se_method : string;
  se_duration_ms : Z;
  se_status : option Z;
}.

Record CookieFlagIssue := {
  cookie_name : string;
  cookie_domain : string;
  issues : list string;
}.

Record SecurityHygiene := {
  https_ok : bool;
  headers_present : list string;
  headers_missing : list string;
  cookie_flags_issues : list CookieFlagIssue;
}.

Record AccessibilityViolation := {
  av_id : string;
  impact : string;
  av_description : string;
  help_url : option string;
  nodes_count : Z;
  av_page_url : string;
}.

Record CategoryScore := {
  category : string;
  score : Z;
  max_score : Z;
  issues_count : Z;
}.

(** ** app/utils/scoring.py *)

Definition calculate_score
    (console_errors network_failures ui_errors security_issues
     accessibility_violations slow_endpoints : Z) : Z :=
  let score := 100 in
  let console_penalty := Z.min (console_errors * 2) 20 in
  let score := score - console_penalty in
  let network_penalty := Z.min (network_failures * 3) 20 in
  let score := score - network_penalty in
  let ui_penalty := Z.min (ui_errors * 4) 20 in
  let score := score - ui_penalty in
  let security_penalty := Z.min (security_issues * 3) 20 in
  let score := score - security_penalty in
  let a11y_penalty := Z.min accessibility_violations 10 in
  let score := score - a11y_penalty in
  let perf_penalty := Z.min slow_endpoints 10 in
  let score := score - perf_penalty in
  Z.max 0 score.

Definition get_grade (score : Z) : string :=
  if 90 <=? score then "A"
  else if 80 <=? score then "B"
  else if 70 <=? score then "C"
  else if 60 <=? score then "D"
  else "F".

(** The overall score in the specification's words: 100 minus the six capped
    penalties, clamped to [0, 100]. *)
Definition clamp (lo hi x : Z) : Z := Z.max lo (Z.min hi x).

Definition spec_overall_score (console network ui_err security a11y slow : Z) : Z :=
  clamp 0 100
    (100 - (Z.min (2 * console) 20 + Z.min (3 * network) 20 + Z.min (4 * ui_err) 20
            + Z.min (3 * security) 20 + Z.min a11y 10 + Z.min slow 10)).

(** ** app/utils/security_headers.py *)

Definition SECURITY_HEADERS : list (string * string) :=
  [ ("Strict-Transport-Security", "HSTS - Enforces HTTPS connections");
    ("Content-Security-Policy", "CSP - Prevents XSS and injection attacks");
    ("X-Content-Type-Options", "Prevents MIME type sniffing");
    ("X-Frame-Options", "Prevents clickjacking");
    ("Referrer-Policy", "Controls referrer information");
    ("Permissions-Policy", "Controls browser features") ].

(** What [await client.head(url)] does: it returns a response, of which the
    probe reads the header names, or raises [httpx.TimeoutException] or some
    other exception.  Leaving the [async with] block is taken not to raise. *)
Inductive HeadOutcome :=
| HeadResponse (header_names : list string)
| HeadTimeout (e : string)
| HeadError (e : string).

(** The [for header, description in SECURITY_HEADERS.items()] loop. *)
Definition headers_loop (header_names : list string) : list string * list string :=
  fold_left
    (fun (acc : list string * list string) (item : string * string) =>
       let '(present, missing) := acc in
       let header := fst item in
       let header_lower := Py.lower header in
       let found := existsb (fun h => String.eqb (Py.lower h) header_lower) header_names in
       if found then (present ++ [header], missing)
       else (present, missing ++ [header]))
    SECURITY_HEADERS ([], []).

(** [check_security_headers(url)], as the pair ([present], [missing]); [head]
    is the network, answering the HEAD request sent to [url]. *)
Definition check_security_headers (head : string -> HeadOutcome) (url : string)
  : list string * list string :=
  match head url with
  | HeadResponse header_names => headers_loop header_names
  | HeadTimeout _ => ([], map fst SECURITY_HEADERS)
  | HeadError _ => ([], map fst SECURITY_HEADERS)
  end.

(** ** app/core/rate_limit.py *)

Record RateLimiter := {
  requests_per_minute : Z;
  requests : gmap string (list Z);   (* defaultdict(list): a missing key reads [] *)
}.

Definition RateLimiter_init (requests_per_minute : Z) : RateLimiter :=
  {| requests_per_minute := requests_per_minute; requests := ∅ |}.

(** [timedelta(minutes=1)] *)
Definition one_minute : Z := 60 * 1000000.

Definition _cleanup_old_requests (self : RateLimiter) (ip : string) (now : Z) : RateLimiter :=
  let cutoff := now - one_minute in
  {| requests_per_minute := requests_per_minute self;
     requests := <[ ip := filter (fun t => cutoff < t) (requests self !!! ip) ]> (requests self) |}.

(** [is_allowed(ip)]; [now] is the reading of [datetime.utcnow()].  Returns the
    verdict and the limiter after the call. *)
Definition is_allowed (self : RateLimiter) (ip : string) (now : Z) : bool * RateLimiter :=
  let self := _cleanup_old_requests self ip now in
  if requests_per_minute self <=? Py.len (requests self !!! ip) then (false, self)
  else (true,
        {| requests_per_minute := requests_per_minute self;
           requests := <[ ip := (requests self !!! ip) ++ [now] ]> (requests self) |}).

Definition get_remaining (self : RateLimiter) (ip : string) (now : Z) : Z * RateLimiter :=
  let self := _cleanup_old_requests self ip now in
  (Z.max 0 (requests_per_minute self - Py.len (requests self !!! ip)), self).

(** A sequence of [is_allowed] calls, each an IP and a clock reading; the
    result is the limiter after the calls and the verdicts in call order. *)
Fixpoint serve (self : RateLimiter) (calls : list (string * Z)) : RateLimiter * list bool :=
  match calls with
  | [] => (self, [])
  | (ip, now) :: rest =>
      let '(verdict, self') := is_allowed self ip now in
      let '(final, verdicts) := serve self' rest in
      (final, verdict :: verdicts)
  end.

(** The timestamps of the calls from [ip] that were accepted. *)
Fixpoint accepted (ip : string) (calls : list (string * Z)) (verdicts : list bool) : list Z :=
  match calls, verdicts with
  | (ip', now) :: calls', v :: verdicts' =>
      if String.eqb ip' ip && v then now :: accepted ip calls' verdicts'
      else accepted ip calls' verdicts'
  | _, _ => []
  end.

(** ** app/services/audit_runner.py: the audit record *)

(** [AuditState].  The listener callbacks of [_setup_event_listeners] append
    to [console_errors], [network_failures], [slow_endpoints] and
    [large_assets] and count [total_requests]; they write no other field. *)
Record AuditState := {
  audit_id : string;
  session_id : string;
  url : string;
  options : AuditOptions;
  status : AuditStatus;
  progress : AuditProgress;
  started_at : Z;
  finished_at : option Z;
  console_errors : list ConsoleError;
  network_failures : list NetworkFailure;
  ui_flows : list UIFlowResult;
  page_timings : list PageTiming;
  large_assets : list LargeAsset;
  slow_endpoints : list SlowEndpoint;
  security_hygiene : option SecurityHygiene;
  accessibility_violations : list AccessibilityViolation;
  visited_urls : gset string;
  discovered_urls : gset string;
  total_requests : Z;
  error_message : option string;
  artifacts_dir : string;
  screenshots : list string;
  preview_image_path : option string;
  preview_updated_at : option Z;
}.

(** Assignment to one attribute of the record, [self.audit.f = v]. *)
Definition set_status (v : AuditStatus) (a : AuditState) : AuditState :=
  {| audit_id := audit_id a;
     session_id := session_id a;
     url := url a;
     options := options a;
     status := v;
     progress := progress a;
     started_at := started_at a;
     finished_at := finished_at a;
     console_errors := console_errors a;
     network_failures := network_failures a;
     ui_flows := ui_flows a;
     page_timings := page_timings a;
     large_assets := large_assets a;
     slow_endpoints := slow_endpoints a;
     security_hygiene := security_hygiene a;
     accessibility_violations := accessibility_violations a;
     visited_urls := visited_urls a;
     discovered_urls := discovered_urls a;
     total_requests := total_requests a;
     error_message := error_message a;
     artifacts_dir := artifacts_dir a;
     screenshots := screenshots a;
     preview_image_path := preview_image_path a;
     preview_updated_at := preview_updated_at a |}.

Definition set_progress (v : AuditProgress) (a : AuditState) : AuditState :=
  {| audit_id := audit_id a;
     session_id := session_id a;
     url := url a;
     options := options a;
     status := status a;
     progress := v;
     started_at := started_at a;
     finished_at := finished_at a;
     console_errors := console_errors a;
     network_failures := network_failures a;
     ui_flows := ui_flows a;
     page_timings := page_timings a;
     large_assets := large_assets a;
     slow_endpoints := slow_endpoints a;
     security_hygiene := security_hygiene a;
     accessibility_violations := accessibility_violations a;
     visited_urls := visited_urls a;
     discovered_urls := discovered_urls a;
     total_requests := total_requests a;
     error_message := error_message a;
     artifacts_dir := artifacts_dir a;
     screenshots := screenshots a;
     preview_image_path := preview_image_path a;
     preview_updated_at := preview_updated_at a |}.

Definition set_finished_at (v : option Z) (a : AuditState) : AuditState :=
  {| audit_id := audit_id a;
     session_id := session_id a;
     url := url a;
     options := options a;
     status := status a;
     progress := progress a;
     started_at := started_at a;
     finished_at := v;
     console_errors := console_errors a;
     network_failures := network_failures a;
     ui_flows := ui_flows a;
     page_timings := page_timings a;
     large_assets := large_assets a;
     slow_endpoints := slow_endpoints a;
     security_hygiene := security_hygiene a;
     accessibility_violations := accessibility_violations a;
     visited_urls := visited_urls a;
     discovered_urls := discovered_urls a;
     total_requests := total_requests a;
     error_message := error_message a;
     artifacts_dir := artifacts_dir a;
     screenshots := screenshots a;
     preview_image_path := preview_image_path a;
     preview_updated_at := preview_updated_at a |}.

Definition set_ui_flows (v : list UIFlowResult) (a : AuditState) : AuditState :=
  {| audit_id := audit_id a;
     session_id := session_id a;
     url := url a;
     options := options a;
     status := status a;
     progress := progress a;
     started_at := started_at a;
     finished_at := finished_at a;
     console_errors := console_errors a;
     network_failures := network_failures a;
     ui_flows := v;
     page_timings := page_timings a;
     large_assets := large_assets a;
     slow_endpoints := slow_endpoints a;
     security_hygiene := security_hygiene a;
     accessibility_violations := accessibility_violations a;
     visited_urls := visited_urls a;
     discovered_urls := discovered_urls a;
     total_requests := total_requests a;
     error_message := error_message a;
     artifacts_dir := artifacts_dir a;
     screenshots := screenshots a;
     preview_image_path := preview_image_path a;
     preview_updated_at := preview_updated_at a |}.

Definition set_page_timings (v : list PageTiming) (a : AuditState) : AuditState :=
  {| audit_id := audit_id a;
     session_id := session_id a;
     url := url a;
     options := options a;
     status := status a;
     progress := progress a;
     started_at := started_at a;
     finished_at := finished_at a;
     console_errors := console_errors a;
     network_failures := network_failures a;
     ui_flows := ui_flows a;
     page_timings := v;
     large_assets := large_assets a;
     slow_endpoints := slow_endpoints a;
     security_hygiene := security_hygiene a;
     accessibility_violations := accessibility_violations a;
     visited_urls := visited_urls a;
     discovered_urls := discovered_urls a;
     total_requests := total_requests a;
     error_message := error_message a;
     artifacts_dir := artifacts_dir a;
     screenshots := screenshots a;
     preview_image_path := preview_image_path a;
     preview_updated_at := preview_updated_at a |}.

Definition set_security_hygiene (v : option SecurityHygiene) (a : AuditState) : AuditState :=
  {| audit_id := audit_id a;
     session_id := session_id a;
     url := url a;
     options := options a;
     status := status a;
     progress := progress a;
     started_at := started_at a;
     finished_at := finished_at a;
     console_errors := console_errors a;
     network_failures := network_failures a;
     ui_flows := ui_flows a;
     page_timings := page_timings a;
     large_assets := large_assets a;
     slow_endpoints := slow_endpoints a;
     security_hygiene := v;
     accessibility_violations := accessibility_violations a;
     visited_urls := visited_urls a;
     discovered_urls := discovered_urls a;
     total_requests := total_requests a;
     error_message := error_message a;
     artifacts_dir := artifacts_dir a;
     screenshots := screenshots a;
     preview_image_path := preview_image_path a;
     preview_updated_at := preview_updated_at a |}.

Definition set_accessibility_violations (v : list AccessibilityViolation) (a : AuditState) : AuditState :=
  {| audit_id := audit_id a;
     session_id := session_id a;
     url := url a;
     options := options a;
     status := status a;
     progress := progress a;
     started_at := started_at a;
     finished_at := finished_at a;
     console_errors := console_errors a;
     network_failures := network_failures a;
     ui_flows := ui_flows a;
     page_timings := page_timings a;
     large_assets := large_assets a;
     slow_endpoints := slow_endpoints a;
     security_hygiene := security_hygiene a;
     accessibility_violations := v;
     visited_urls := visited_urls a;
     discovered_urls := discovered_urls a;
     total_requests := total_requests a;
     error_message := error_message a;
     artifacts_dir := artifacts_dir a;
     screenshots := screenshots a;
     preview_image_path := preview_image_path a;
     preview_updated_at := preview_updated_at a |}.

Definition set_visited_urls (v : gset string) (a : AuditState) : AuditState :=
  {| audit_id := audit_id a;
     session_id := session_id a;
     url := url a;
     options := options a;
     status := status a;
     progress := progress a;
     started_at := started_at a;
     finished_at := finished_at a;
     console_errors := console_errors a;
     network_failures := network_failures a;
     ui_flows := ui_flows a;
     page_timings := page_timings a;
     large_assets := large_assets a;
     slow_endpoints := slow_endpoints a;
     security_hygiene := security_hygiene a;
     accessibility_violations := accessibility_violations a;
     visited_urls := v;
     discovered_urls := discovered_urls a;
     total_requests := total_requests a;
     error_message := error_message a;
     artifacts_dir := artifacts_dir a;
     screenshots := screenshots a;
     preview_image_path := preview_image_path a;
     preview_updated_at := preview_updated_at a |}.

Definition set_discovered_urls (v : gset string) (a : AuditState) : AuditState :=
  {| audit_id := audit_id a;
     session_id := session_id a;
     url := url a;
     options := options a;
     status := status a;
     progress := progress a;
     started_at := started_at a;
     finished_at := finished_at a;
     console_errors := console_errors a;
     network_failures := network_failures a;
     ui_flows := ui_flows a;
     page_timings := page_timings a;
     large_assets := large_assets a;
     slow_endpoints := slow_endpoints a;
     security_hygiene := security_hygiene a;
     accessibility_violations := accessibility_violations a;
     visited_urls := visited_urls a;
     discovered_urls := v;
     total_requests := total_requests a;
     error_message := error_message a;
     artifacts_dir := artifacts_dir a;
     screenshots := screenshots a;
     preview_image_path := preview_image_path a;
     preview_updated_at := preview_updated_at a |}.

Definition set_error_message (v : option string) (a : AuditState) : AuditState :=
  {| audit_id := audit_id a;
     session_id := session_id a;
     url := url a;
     options := options a;
     status := status a;
     progress := progress a;
     started_at := started_at a;
     finished_at := finished_at a;
     console_errors := console_errors a;
     network_failures := network_failures a;
     ui_flows := ui_flows a;
     page_timings := page_timings a;
     large_assets := large_assets a;
     slow_endpoints := slow_endpoints a;
     security_hygiene := security_hygiene a;
     accessibility_violations := accessibility_violations a;
     visited_urls := visited_urls a;
     discovered_urls := discovered_urls a;
     total_requests := total_requests a;
     error_message := v;
     artifacts_dir := artifacts_dir a;
     screenshots := screenshots a;
     preview_image_path := preview_image_path a;
     preview_updated_at := preview_updated_at a |}.

Definition set_screenshots (v : list string) (a : AuditState) : AuditState :=
  {| audit_id := audit_id a;
     session_id := session_id a;
     url := url a;
     options := options a;
     status := status a;
     progress := progress a;
     started_at := started_at a;
     finished_at := finished_at a;
     console_errors := console_errors a;
     network_failures := network_failures a;
     ui_flows := ui_flows a;
     page_timings := page_timings a;
     large_assets := large_assets a;
     slow_endpoints := slow_endpoints a;
     security_hygiene := security_hygiene a;
     accessibility_violations := accessibility_violations a;
     visited_urls := visited_urls a;
     discovered_urls := discovered_urls a;
     total_requests := total_requests a;
     error_message := error_message a;
     artifacts_dir := artifacts_dir a;
     screenshots := v;
     preview_image_path := preview_image_path a;
     preview_updated_at := preview_updated_at a |}.

Definition set_preview_image_path (v : option string) (a : AuditState) : AuditState :=
  {| audit_id := audit_id a;
     session_id := session_id a;
     url := url a;
     options := options a;
     status := status a;
     progress := progress a;
     started_at := started_at a;
     finished_at := finished_at a;
     console_errors := console_errors a;
     network_failures := network_failures a;
     ui_flows := ui_flows a;
     page_timings := page_timings a;
     large_assets := large_assets a;
     slow_endpoints := slow_endpoints a;
     security_hygiene := security_hygiene a;
     accessibility_violations := accessibility_violations a;
     visited_urls := visited_urls a;
     discovered_urls := discovered_urls a;
     total_requests := total_requests a;
     error_message := error_message a;
     artifacts_dir := artifacts_dir a;
     screenshots := screenshots a;
     preview_image_path := v;
     preview_updated_at := preview_updated_at a |}.

Definition set_preview_updated_at (v : option Z) (a : AuditState) : AuditState :=
  {| audit_id := audit_id a;
     session_id := session_id a;
     url := url a;
     options := options a;
     status := status a;
     progress := progress a;
     started_at := started_at a;
     finished_at := finished_at a;
     console_errors := console_errors a;
     network_failures := network_failures a;
     ui_flows := ui_flows a;
     page_timings := page_timings a;
     large_assets := large_assets a;
     slow_endpoints := slow_endpoints a;
     security_hygiene := security_hygiene a;
     accessibility_violations := accessibility_violations a;
     visited_urls := visited_urls a;
     discovered_urls := discovered_urls a;
     total_requests := total_requests a;
     error_message := error_message a;
     artifacts_dir := artifacts_dir a;
     screenshots := screenshots a;
     preview_image_path := preview_image_path a;
     preview_updated_at := v |}.

(** ** app/services/report_builder.py *)

(** [sum(1 for f in self.audit.ui_flows if f.status == "error")] *)
Definition is_error_flow (f : UIFlowResult) : bool :=
  match flow_status f with flow_error => true | _ => false end.

Definition count_ui_errors (flows : list UIFlowResult) : Z :=
  fold_left (fun acc f => if is_error_flow f then acc + 1 else acc) flows 0.

Definition _count_security_issues (audit : AuditState) : Z :=
  match security_hygiene audit with
  | None => 0
  | Some hygiene =>
      let count := 0 in
      let count := if negb (https_ok hygiene) then count + 2 else count in
      let count := count + Py.len (headers_missing hygiene) in
      let count := count + Py.len (cookie_flags_issues hygiene) in
      count
  end.

Definition _calculate_category_scores (audit : AuditState) : list CategoryScore :=
  let categories := [] in
  let console_score := Z.max 0 (20 - Py.len (console_errors audit) * 2) in
  let categories := categories ++
    [{| category := "Console Errors"; score := console_score; max_score := 20;
        issues_count := Py.len (console_errors audit) |}] in
  let network_score := Z.max 0 (20 - Py.len (network_failures audit) * 3) in
  let categories := categories ++
    [{| category := "Network/API"; score := network_score; max_score := 20;
        issues_count := Py.len (network_failures audit) |}] in
  let ui_errors := count_ui_errors (ui_flows audit) in
  let ui_score := Z.max 0 (20 - ui_errors * 4) in
  let categories := categories ++
    [{| category := "UI Flows"; score := ui_score; max_score := 20;
        issues_count := ui_errors |}] in
  let security_issues := _count_security_issues audit in
  let security_score := Z.max 0 (20 - security_issues * 3) in
  let categories := categories ++
    [{| category := "Security"; score := security_score; max_score := 20;
        issues_count := security_issues |}] in
  let perf_issues := Py.len (slow_endpoints audit) + Py.len (large_assets audit) in
  let perf_score := Z.max 0 (10 - perf_issues) in
  let categories := categories ++
    [{| category := "Performance"; score := perf_score; max_score := 10;
        issues_count := perf_issues |}] in
  let a11y_score := Z.max 0 (10 - Py.len (accessibility_violations audit)) in
  let categories := categories ++
    [{| category := "Accessibility"; score := a11y_score; max_score := 10;
        issues_count := Py.len (accessibility_violations audit) |}] in
  categories.

Definition _generate_summary (audit : AuditState) (score : Z) : string :=
  let grade := get_grade score in
  let pages := Z.of_nat (size (visited_urls audit)) in
  let errors := Py.len (console_errors audit) in
  let failures := Py.len (network_failures audit) in
  let quality :=
    if 90 <=? score then "excellent"
    else if 75 <=? score then "good"
    else if 50 <=? score then "moderate"
    else "poor" in
  "Production readiness audit completed with " +:+ quality +:+ " results. "
  +:+ "Score: " +:+ pretty score +:+ "/100 (Grade " +:+ grade +:+ "). "
  +:+ "Audited " +:+ pretty pages +:+ " pages, found " +:+ pretty errors
  +:+ " console errors and " +:+ pretty failures +:+ " network failures.".

(** The part of [AuditReport] that [build] computes; the findings are copied
    from the record as they are and [recommended_fixes] is left out. *)
Record AuditReport := {
  report_score : Z;
  report_grade : string;
  report_summary : string;
  report_category_scores : list CategoryScore;
  report_finished_at : option Z;
  report_duration : option Z;
  report_pages_audited : Z;
  report_total_requests : Z;
}.

Definition build (audit : AuditState) : AuditReport :=
  let category_scores := _calculate_category_scores audit in
  let total_score :=
    calculate_score
      (Py.len (console_errors audit))
      (Py.len (network_failures audit))
      (count_ui_errors (ui_flows audit))
      (_count_security_issues audit)
      (Py.len (accessibility_violations audit))
      (Py.len (slow_endpoints audit)) in
  let summary := _generate_summary audit total_score in
  let duration :=
    match finished_at audit with
    | Some finished => Some (finished - started_at audit)
    | None => None
    end in
  {| report_score := total_score;
     report_grade := get_grade total_score;
     report_summary := summary;
     report_category_scores := category_scores;
     report_finished_at := finished_at audit;
     report_duration := duration;
     report_pages_audited := Z.of_nat (size (visited_urls audit));
     report_total_requests := total_requests audit |}.

(** The security aggregate in the specification's words:
    2 * (not https_ok) + |headers_missing| + |cookie_issues|, and 0 when the
    audit has no security-hygiene record. *)
Definition spec_security_issues (audit : AuditState) : Z :=
  match security_hygiene audit with
  | None => 0
  | Some h =>
      2 * (if https_ok h then 0 else 1)
      + Z.of_nat (length (headers_missing h))
      + Z.of_nat (length (cookie_flags_issues h))
  end.

(** The number of flows with status error, in the specification's words. *)
Definition spec_error_flows (audit : AuditState) : Z :=
  Z.of_nat (length (filter (fun f => flow_status f = flow_error) (ui_flows audit))).

(** ** urllib.parse (Python standard library)

    [urlparse] as CPython implements it, on text of code points below 256.
    A result of [None] stands for the [ValueError] raised on a netloc with an
    unbalanced square bracket; the validation of the text between balanced
    brackets is not modelled. *)

Module UrlParse.

(** [c in s] *)
Fixpoint contains (c : ascii) (s : string) : bool :=
  match s with
  | EmptyString => false
  | String d r => if Ascii.eqb d c then true else contains c r
  end.

(** [s[:s.find(c)]], the whole of [s] when [c] does not occur. *)
Fixpoint before (c : ascii) (s : string) : string :=
  match s with
  | EmptyString => EmptyString
  | String d r => if Ascii.eqb d c then EmptyString else String d (before c r)
  end.

(** [s[s.find(c)+1:]], empty when [c] does not occur. *)
Fixpoint after (c : ascii) (s : string) : string :=
  match s with
  | EmptyString => EmptyString
  | String d r => if Ascii.eqb d c then r else after c r
  end.

Fixpoint all_chars (p : ascii -> bool) (s : string) : bool :=
  match s with
  | EmptyString => true
  | String d r => p d && all_chars p r
  end.

(** [_WHATWG_C0_CONTROL_OR_SPACE]: U+0000..U+0020 *)
Definition is_c0_or_space (c : ascii) : bool := (nat_of_ascii c <=? 32)%nat.

Fixpoint lstrip_c0 (s : string) : string :=
  match s with
  | EmptyString => EmptyString
  | String d r => if is_c0_or_space d then lstrip_c0 r else s
  end.

(** [_UNSAFE_URL_BYTES_TO_REMOVE]: tab, carriage return, line feed *)
Definition is_unsafe (c : ascii) : bool :=
  let n := nat_of_ascii c in ((n =? 9) || (n =? 13) || (n =? 10))%nat.

Fixpoint remove_unsafe (s : string) : string :=
  match s with
  | EmptyString => EmptyString
  | String d r => if is_unsafe d then remove_unsafe r else String d (remove_unsafe r)
  end.

Definition is_ascii_alpha (c : ascii) : bool :=
  let n := nat_of_ascii c in
  (((65 <=? n) && (n <=? 90)) || ((97 <=? n) && (n <=? 122)))%nat.

Definition is_digit (c : ascii) : bool :=
  let n := nat_of_ascii c in ((48 <=? n) && (n <=? 57))%nat.

(** [scheme_chars]: letters, digits and "+-." *)
Definition is_scheme_char (c : ascii) : bool :=
  is_ascii_alpha c || is_digit c
  || Ascii.eqb c "+" || Ascii.eqb c "-" || Ascii.eqb c ".".

(** The delimiters that end a netloc: "/?#" *)
Definition is_netloc_delim (c : ascii) : bool :=
  Ascii.eqb c "/" || Ascii.eqb c "?" || Ascii.eqb c "#".

(** [_splitnetloc(url, 2)] applied to the text after the leading "//":
    the netloc runs to the first delimiter, the rest starts there. *)
Fixpoint _splitnetloc (s : string) : string * string :=
  match s with
  | EmptyString => (EmptyString, EmptyString)
  | String d r =>
      if is_netloc_delim d then (EmptyString, s)
      else let '(domain, rest) := _splitnetloc r in (String d domain, rest)
  end.

Definition uses_params : list string :=
  [ ""; "ftp"; "hdl"; "prospero"; "http"; "imap"; "https"; "shttp"; "rtsp";
    "rtspu"; "sip"; "sips"; "mms"; "sftp"; "tel" ].

(** The first component of [_splitparams(url)]: the text up to the first ";"
    found at or after the last "/". *)
Fixpoint _splitparams (s : string) : string :=
  match s with
  | EmptyString => EmptyString
  | String d r =>
      if contains "/" r then String d (_splitparams r) else before ";" s
  end.

Record SplitResult := {
  split_scheme : string;
  split_netloc : string;
  split_path : string;
  split_query : string;
  split_fragment : string;
}.

Definition urlsplit (url : string) : option SplitResult :=
  let url := lstrip_c0 url in
  let url := remove_unsafe url in
  let '(scheme, url) :=
    match url with
    | String first _ =>
        if contains ":" url && is_ascii_alpha first
           && all_chars is_scheme_char (before ":" url)
        then (Py.lower (before ":" url), after ":" url)
        else (EmptyString, url)
    | EmptyString => (EmptyString, url)
    end in
  let split :=
    if Py.startswith "//" url then
      let '(netloc, rest) :=
        _splitnetloc (match url with String _ (String _ r) => r | _ => EmptyString end) in
      if (contains "[" netloc && negb (contains "]" netloc))
         || (contains "]" netloc && negb (contains "[" netloc))
      then None
      else Some (netloc, rest)
    else Some (EmptyString, url) in
  match split with
  | None => None
  | Some (netloc, url) =>
      let '(url, fragment) :=
        if contains "#" url then (before "#" url, after "#" url)
        else (url, EmptyString) in
      let '(url, query) :=
        if contains "?" url then (before "?" url, after "?" url)
        else (url, EmptyString) in
      Some {| split_scheme := scheme; split_netloc := netloc; split_path := url;
              split_query := query; split_fragment := fragment |}
  end.

Record ParseResult := {
  scheme : string;
  netloc : string;
  path : string;
  query : string;
  fragment : string;
}.

(** [urlparse(url)]; the [params] component, which the source never reads,
    is dropped after it has been cut from the path. *)
Definition urlparse (url : string) : option ParseResult :=
  match urlsplit url with
  | None => None
  | Some r =>
      let url := split_path r in
      let url :=
        if existsb (String.eqb (split_scheme r)) uses_params && contains ";" url
        then _splitparams url else url in
      Some {| scheme := split_scheme r; netloc := split_netloc r; path := url;
              query := split_query r; fragment := split_fragment r |}
  end.

End UrlParse.

(** ** app/services/audit_runner.py: the audit manager *)

(** [AuditManager._audits]; the lock only serialises the accesses. *)
Abbreviation AuditManager := (gmap string AuditState).

(** [os.path.join(a, b)] for a relative [b] on a POSIX host. *)
Fixpoint endswith_slash (s : string) : bool :=
  match s with
  | EmptyString => false
  | String c EmptyString => Ascii.eqb c "/"
  | String _ r => endswith_slash r
  end.

Definition path_join (a b : string) : string :=
  match a with
  | EmptyString => b
  | _ => if endswith_slash a then a +:+ b else a +:+ "/" +:+ b
  end.

(** The progress record that [update_progress] writes. *)
Definition new_progress (audit : AuditState) (stage : string) (percent : Z)
    (current_url message : option string) : AuditProgress :=
  {| stage := stage;
     percent := percent;
     current_url := current_url;
     pages_visited := Z.of_nat (size (visited_urls audit));
     errors_found := Py.len (console_errors audit) + Py.len (network_failures audit);
     message := message |}.

Definition update_progress (self : AuditManager) (audit_id : string) (stage : string)
    (percent : Z) (current_url message : option string) : AuditManager :=
  match self !! audit_id with
  | Some audit =>
      <[ audit_id := set_progress (new_progress audit stage percent current_url message) audit ]> self
  | None => self
  end.

(** [create_audit]; [audit_id] is the fresh uuid, [now] the reading of
    [datetime.utcnow()] and [ARTIFACTS_DIR] the configured directory. *)
Definition new_audit (ARTIFACTS_DIR audit_id session_id url : string)
    (options : AuditOptions) (now : Z) : AuditState :=
  {| audit_id := audit_id;
     session_id := session_id;
     url := url;
     options := options;
     status := QUEUED;
     progress := {| stage := "initializing"; percent := 0; current_url := None;
                    pages_visited := 0; errors_found := 0; message := None |};
     started_at := now;
     finished_at := None;
     console_errors := [];
     network_failures := [];
     ui_flows := [];
     page_timings := [];
     large_assets := [];
     slow_endpoints := [];
     security_hygiene := None;
     accessibility_violations := [];
     visited_urls := ∅;
     discovered_urls := ∅;
     total_requests := 0;
     error_message := None;
     artifacts_dir := path_join (path_join ARTIFACTS_DIR "audits") audit_id;
     screenshots := [];
     preview_image_path := None;
     preview_updated_at := None |}.

Definition create_audit (self : AuditManager) (ARTIFACTS_DIR audit_id session_id url : string)
    (options : AuditOptions) (now : Z) : AuditState * AuditManager :=
  let audit := new_audit ARTIFACTS_DIR audit_id session_id url options now in
  (audit, <[ audit_id := audit ]> self).

Definition get_audit (self : AuditManager) (audit_id : string) : option AuditState :=
  self !! audit_id.

(** ** app/services/audit_runner.py: error patterns *)

Definition ERROR_PATTERNS : list string :=
  [ "something went wrong"; "error occurred"; "page not found"; "404";
    "500 internal server error"; "access denied"; "forbidden"; "oops";
    "unexpected error" ].

(** The literal [p] matches at the start of [s], ignoring case. *)
Fixpoint match_ignorecase (p s : string) : bool :=
  match p, s with
  | EmptyString, _ => true
  | String a p', String b s' =>
      Ascii.eqb (Py.lower_char a) (Py.lower_char b) && match_ignorecase p' s'
  | String _ _, EmptyString => false
  end.

(** The literal [p] matches somewhere in [s], ignoring case. *)
Fixpoint search_ignorecase (p s : string) : bool :=
  match_ignorecase p s
  || match s with
     | EmptyString => false
     | String _ r => search_ignorecase p r
     end.

(** [ERROR_REGEX.search(content) is not None]: the regex is the alternation
    of the patterns, which are literals, compiled with [re.IGNORECASE]. *)
Definition ERROR_REGEX_search (content : string) : bool :=
  existsb (fun p => search_ignorecase p content) ERROR_PATTERNS.

(** ** app/services/audit_runner.py: the runner

    The runner is a coroutine.  Between two [await]s nothing else runs, so the
    audit record can be observed only while the runner is suspended in an
    [await] and after it has returned.  The monad below threads the record,
    the runner's own attributes and the list of the record's states at the
    suspensions; an awaited call either returns or raises. *)

Inductive Result (A : Type) : Type :=
| Ok (a : A)
| Raise (e : string).
Arguments Ok {A} a.
Arguments Raise {A} e.

Record World := {
  audit : AuditState;              (* self.audit, the record held by the audit manager *)
  context : bool;                  (* self.context is not None *)
  page : bool;                     (* self.page is not None *)
  _last_preview_capture_s : Z;     (* in milliseconds *)
  trace : list AuditState;         (* the record at each suspension so far *)
}.

Definition M (A : Type) : Type := World -> Result A * World.

#[export] Instance M_ret : MRet M := fun A x w => (Ok x, w).

#[export] Instance M_bind : MBind M := fun A B f m w =>
  match m w with
  | (Ok x, w') => f x w'
  | (Raise e, w') => (Raise e, w')
  end.

(** [try: body except Exception as e: handler] *)
Definition try_except {A} (body : M A) (handler : string -> M A) : M A := fun w =>
  match body w with
  | (Ok x, w') => (Ok x, w')
  | (Raise e, w') => handler e w'
  end.

(** [try: body finally: cleanup] *)
Definition try_finally {A} (body : M A) (cleanup : M unit) : M A := fun w =>
  let '(r, w') := body w in
  match cleanup w' with
  | (Ok _, w'') => (r, w'')
  | (Raise e, w'') => (Raise e, w'')
  end.

Definition read : M AuditState := fun w => (Ok (audit w), w).

Definition read_world : M World := fun w => (Ok w, w).

Definition mutate (f : AuditState -> AuditState) : M unit := fun w =>
  (Ok tt,
   {| audit := f (audit w); context := context w; page := page w;
      _last_preview_capture_s := _last_preview_capture_s w; trace := trace w |}).

Definition set_context (v : bool) : M unit := fun w =>
  (Ok tt,
   {| audit := audit w; context := v; page := page w;
      _last_preview_capture_s := _last_preview_capture_s w; trace := trace w |}).

Definition set_page (v : bool) : M unit := fun w =>
  (Ok tt,
   {| audit := audit w; context := context w; page := v;
      _last_preview_capture_s := _last_preview_capture_s w; trace := trace w |}).

Definition set_last_preview_capture (v : Z) : M unit := fun w =>
  (Ok tt,
   {| audit := audit w; context := context w; page := page w;
      _last_preview_capture_s := v; trace := trace w |}).

(** [await call]: the runner is suspended with the record as it stands, then
    the call returns or raises. *)
Definition await {A} (outcome : Result A) : M A := fun w =>
  (outcome,
   {| audit := audit w; context := context w; page := page w;
      _last_preview_capture_s := _last_preview_capture_s w;
      trace := trace w ++ [audit w] |}).

(** [await asyncio.sleep(...)] *)
Definition sleep : M unit := await (Ok tt).

(** [audit_manager.update_progress(self.audit.audit_id, ...)]: the manager
    finds under that id the very record the runner holds (it was registered
    by [create_audit] and is never removed) and replaces its progress. *)
Definition report_progress (stage : string) (percent : Z)
    (current_url message : option string) : M unit :=
  mutate (fun a => set_progress (new_progress a stage percent current_url message) a).

(** *** The browser and the network, as the runner meets them *)

(** One call of [_capture_live_preview]: whether the page is closed, the
    reading of [time.time()] in milliseconds, and what the screenshot does. *)
Record PreviewEnv := {
  page_is_closed : bool;
  time_ms : Z;
  preview_screenshot : Result unit;
}.

(** One crawled page. *)
Record PageEnv := {
  goto : Result (option Z * Z);       (* the response's status, if any, and the elapsed ms *)
  probe : Result (option (Z * Z * Z));
      (* the body of _probe_safe_interactions: no safe action, or the counts
         of clicks, navigations and slow loads *)
  content : Result string;            (* page.content() *)
  screenshot : Result unit;           (* page.screenshot(path=...) *)
  links : Result (list string);       (* the hrefs that page.evaluate returns *)
  preview : PreviewEnv;
}.

(** A cookie of [context.cookies()], as far as the runner reads it. *)
Record Cookie := {
  name : option string;
  domain : option string;
  secure : bool;
  httpOnly : bool;
  sameSite : option string;
}.

(** A violation as the axe script returns it. *)
Record AxeViolation := {
  axe_id : string;
  axe_impact : option string;
  axe_description : string;
  axe_helpUrl : option string;
  axe_nodes : Z;
}.

Record Env := {
  create_authenticated_context : Result unit;
  new_page : Result unit;
  initial_goto : Result (option Z * Z);
  initial_preview : PreviewEnv;
  initial_links : Result (list string);
  crawled : nat -> string -> PageEnv;   (* the i-th page of the crawl loop *)
  loop_percent : Z -> Z -> Z;
      (* int((i / max(total_pages, 1)) * 60), a floating-point computation *)
  head : string -> HeadOutcome;
  cookies : Result (list Cookie);
  axe_goto : Result unit;
  axe_script : Result unit;
  axe_evaluate : Result (list AxeViolation);
  utcnow : Z;
  page_closed_at_cleanup : bool;
  page_close : Result unit;
  context_close : Result unit;
}.

(** The attributes of [AuditRunner] fixed by [__init__]. *)
Record AuditRunner := {
  base_domain : string;
  _preview_path : string;
}.

Definition AuditRunner_init (audit : AuditState) : option AuditRunner :=
  match UrlParse.urlparse (url audit) with
  | None => None
  | Some parsed =>
      Some {| base_domain := UrlParse.netloc parsed;
              _preview_path := path_join (artifacts_dir audit) "preview_latest.jpg" |}
  end.

Definition _capture_live_preview (self : AuditRunner) (pv : PreviewEnv) : M unit :=
  try_except
    (w ← read_world;
     if negb (page w) || page_is_closed pv then mret tt
     else
       let now := time_ms pv in
       if now - _last_preview_capture_s w <? 1000 then mret tt
       else
         set_last_preview_capture now;;
         await (preview_screenshot pv);;
         mutate (set_preview_image_path (Some (_preview_path self)));;
         mutate (set_preview_updated_at (Some now)))
    (fun _ => mret tt).

(** [clean_url = f"{parsed.scheme}://{parsed.netloc}{parsed.path}"] *)
Definition clean_url (parsed : UrlParse.ParseResult) : string :=
  UrlParse.scheme parsed +:+ "://" +:+ UrlParse.netloc parsed +:+ UrlParse.path parsed.

(** [parsed.netloc == self.base_domain or not parsed.netloc] *)
Definition same_domain (self : AuditRunner) (parsed : UrlParse.ParseResult) : bool :=
  String.eqb (UrlParse.netloc parsed) (base_domain self)
  || negb (Py.truthy (UrlParse.netloc parsed)).

(** The [for link in links] loop of [_discover_links]. *)
Fixpoint discover_loop (self : AuditRunner) (links : list string) : M unit :=
  match links with
  | [] => mret tt
  | link :: rest =>
      match UrlParse.urlparse link with
      | None => fun w => (Raise "Invalid IPv6 URL", w)
      | Some parsed =>
          (if same_domain self parsed then
             a ← read;
             if Py.truthy (clean_url parsed)
                && negb (bool_decide (clean_url parsed ∈ visited_urls a))
             then mutate (fun a => set_discovered_urls ({[ clean_url parsed ]} ∪ discovered_urls a) a)
             else mret tt
           else mret tt);;
          discover_loop self rest
      end
  end.

Definition _discover_links (self : AuditRunner) (evaluated : Result (list string)) : M unit :=
  try_except
    (links ← await evaluated;
     discover_loop self links)
    (fun _ => mret tt).

Definition _take_screenshot (pe : PageEnv) (url : string) : M (option string) :=
  try_except
    (a ← read;
     let filename := "screenshot_" +:+ pretty (Py.len (screenshots a)) +:+ ".png" in
     let path := path_join (artifacts_dir a) filename in
     await (screenshot pe);;
     mutate (fun a => set_screenshots (screenshots a ++ [path]) a);;
     mret (Some path))
    (fun _ => mret None).

(** [" | ".join(parts)] for the summary of a probe. *)
Definition probe_summary (clicks navs slow_or_loader : Z) : string :=
  "UI probe: " +:+ pretty clicks +:+ " clicks"
  +:+ (if navs =? 0 then "" else " | " +:+ pretty navs +:+ " nav")
  +:+ (if slow_or_loader =? 0 then "" else " | " +:+ pretty slow_or_loader +:+ " slow/loader").

Definition _probe_safe_interactions (pe : PageEnv) : M (option string) :=
  w ← read_world;
  if negb (page w) then mret None
  else
    try_except
      (r ← await (probe pe);
       match r with
       | None => mret None
       | Some (clicks, navs, slow_or_loader) =>
           mret (Some (probe_summary clicks navs slow_or_loader))
       end)
      (fun _ => mret None).

(** [getattr(self.audit.options, "check_ui_flows", False)]: [AuditOptions]
    declares no such field, so the default is what [getattr] returns. *)
Definition getattr_check_ui_flows (o : AuditOptions) : bool := false.

(** The status and notes that [_audit_page] derives from the page content
    and the response. *)
Definition page_verdict (content : string) (response : option Z)
  : FlowStatus * option string :=
  let has_error := ERROR_REGEX_search content in
  let is_blank := Py.str_len (Py.strip content) <? 100 in
  if is_blank then (flow_error, Some "Blank or nearly empty page")
  else if has_error then (flow_warning, Some "Page contains error patterns")
  else
    match response with
    | Some code =>
        if 400 <=? code then (flow_error, Some ("HTTP " +:+ pretty code))
        else (flow_ok, None)
    | None => (flow_ok, None)
    end.

(** [notes = f"{notes + ' | ' if notes else ''}{interaction_notes}"] *)
Definition with_interaction_notes (notes interaction_notes : option string) : option string :=
  match interaction_notes with
  | Some i =>
      if Py.truthy i then
        Some (match notes with
              | Some n => if Py.truthy n then n +:+ " | " +:+ i else i
              | None => i
              end)
      else notes
  | None => notes
  end.

Definition _audit_page (self : AuditRunner) (pe : PageEnv) (url : string) : M unit :=
  try_except
    ('(response, load_time) ← await (goto pe);
     sleep;;
     a ← read;
     interaction_notes ←
       (if getattr_check_ui_flows (options a) then _probe_safe_interactions pe
        else mret None);
     mutate (fun a => set_page_timings
        (page_timings a ++ [{| pt_url := url; ttfb_ms := None;
                               dom_content_loaded_ms := Some load_time; load_ms := None |}]) a);;
     content ← await (content pe);
     let '(status, notes) := page_verdict content response in
     a ← read;
     screenshot_path ←
       (if negb (bool_decide (status = flow_ok)) && screenshot_on_error (options a)
        then _take_screenshot pe url else mret None);
     let notes := with_interaction_notes notes interaction_notes in
     mutate (fun a => set_ui_flows
        (ui_flows a ++ [{| page_url := url; flow_status := status; notes := notes;
                           screenshot_path := screenshot_path;
                           load_time_ms := Some load_time |}]) a);;
     _discover_links self (links pe);;
     _capture_live_preview self (preview pe))
    (fun e =>
       mutate (fun a => set_ui_flows
         (ui_flows a ++ [{| page_url := url; flow_status := flow_error;
                            notes := Some ("Failed: " +:+ e);
                            screenshot_path := None; load_time_ms := None |}]) a)).

(** The status and notes of the initial availability check. *)
Definition availability_verdict (response : option Z) : FlowStatus * option string :=
  match response with
  | Some code =>
      if 400 <=? code then (flow_error, Some ("HTTP " +:+ pretty code))
      else if 300 <=? code then (flow_warning, Some ("Redirect: HTTP " +:+ pretty code))
      else (flow_ok, None)
  | None => (flow_ok, None)
  end.

Definition _check_initial_availability (env : Env) (self : AuditRunner) : M unit :=
  a ← read;
  report_progress "checking_availability" 10 (Some (url a)) None;;
  try_except
    ('(response, load_time) ← await (initial_goto env);
     _capture_live_preview self (initial_preview env);;
     mutate (fun a => set_page_timings
        (page_timings a ++ [{| pt_url := url a; ttfb_ms := None;
                               dom_content_loaded_ms := Some load_time; load_ms := None |}]) a);;
     let '(status, notes) := availability_verdict response in
     mutate (fun a => set_ui_flows
        (ui_flows a ++ [{| page_url := url a; flow_status := status; notes := notes;
                           screenshot_path := None; load_time_ms := Some load_time |}]) a);;
     mutate (fun a => set_visited_urls ({[ url a ]} ∪ visited_urls a) a))
    (fun e =>
       mutate (fun a => set_ui_flows
         (ui_flows a ++ [{| page_url := url a; flow_status := flow_error;
                            notes := Some ("Failed to load: " +:+ e);
                            screenshot_path := None; load_time_ms := None |}]) a)).

(** [pages_to_visit]: the discovered URLs not yet visited, in the order in
    which the set is iterated, cut to [max_pages - 1]. *)
Definition pages_to_visit (a : AuditState) : list string :=
  let pages := elements (discovered_urls a ∖ visited_urls a) in
  Py.slice_to (max_pages (options a) - 1) pages.

(** The [for i, url in enumerate(pages_to_visit)] loop, from index [i] on. *)
Fixpoint crawl_loop (env : Env) (self : AuditRunner) (total_pages : Z) (i : nat)
    (pages : list string) : M unit :=
  match pages with
  | [] => mret tt
  | url :: rest =>
      let progress := 20 + loop_percent env (Z.of_nat i) total_pages in
      report_progress "auditing_pages" progress (Some url)
        (Some ("Checking page " +:+ pretty (Z.of_nat i + 1) +:+ "/" +:+ pretty total_pages));;
      _audit_page self (crawled env i url) url;;
      mutate (fun a => set_visited_urls ({[ url ]} ∪ visited_urls a) a);;
      sleep;;
      crawl_loop env self total_pages (S i) rest
  end.

Definition _crawl_and_audit (env : Env) (self : AuditRunner) : M unit :=
  report_progress "crawling" 20 None (Some "Discovering pages...");;
  _discover_links self (initial_links env);;
  a ← read;
  let pages := pages_to_visit a in
  let total_pages := Py.len pages in
  crawl_loop env self total_pages 0 pages.

(** The issues of one cookie. *)
Definition cookie_flag_issues (cookie : Cookie) : list string :=
  let issues := [] in
  let issues := if negb (secure cookie) then issues ++ ["Missing Secure flag"] else issues in
  let issues := if negb (httpOnly cookie) then issues ++ ["Missing HttpOnly flag"] else issues in
  let issues :=
    match sameSite cookie with
    | None => issues ++ ["SameSite not set or None"]
    | Some v =>
        if negb (Py.truthy v) || String.eqb v "None"
        then issues ++ ["SameSite not set or None"] else issues
    end in
  issues.

(** The [for cookie in cookies] loop of [_check_security_hygiene]. *)
Fixpoint cookie_loop (cookies : list Cookie) (cookie_issues : list CookieFlagIssue)
  : list CookieFlagIssue :=
  match cookies with
  | [] => cookie_issues
  | cookie :: rest =>
      let issues := cookie_flag_issues cookie in
      match issues with
      | [] => cookie_loop rest cookie_issues
      | _ =>
          cookie_loop rest
            (cookie_issues ++
             [{| cookie_name := default "unknown" (name cookie);
                 cookie_domain := default "" (domain cookie);
                 issues := issues |}])
      end
  end.

Definition _check_security_hygiene (env : Env) (self : AuditRunner) : M unit :=
  report_progress "security_check" 85 None (Some "Checking security hygiene...");;
  a ← read;
  let https_ok := Py.startswith "https://" (url a) in
  headers_result ← await (Ok (check_security_headers (head env) (url a)));
  cookie_issues ←
    try_except
      (cookies ← await (cookies env);
       mret (cookie_loop cookies []))
      (fun _ => mret []);
  mutate (set_security_hygiene
    (Some {| https_ok := https_ok;
             headers_present := fst headers_result;
             headers_missing := snd headers_result;
             cookie_flags_issues := cookie_issues |})).

Definition to_violation (page_url : string) (v : AxeViolation) : AccessibilityViolation :=
  {| av_id := axe_id v;
     impact := match axe_impact v with
               | Some i => if Py.truthy i then i else "moderate"
               | None => "moderate"
               end;
     av_description := axe_description v;
     help_url := axe_helpUrl v;
     nodes_count := axe_nodes v;
     av_page_url := page_url |}.

Definition _run_accessibility_checks (env : Env) (self : AuditRunner) : M unit :=
  a ← read;
  if negb (include_accessibility (options a)) then mret tt
  else
    report_progress "accessibility_check" 90 None (Some "Running accessibility checks...");;
    try_except
      (await (axe_goto env);;
       await (axe_script env);;
       results ← await (axe_evaluate env);
       mutate (fun a => set_accessibility_violations
         (accessibility_violations a ++ map (to_violation (url a)) results) a))
      (fun _ => mret tt).

(** [_setup_event_listeners] registers the callbacks with [page.on]; it
    awaits nothing and writes nothing to the record. *)
Definition _setup_event_listeners : M unit := mret tt.

(** The four phases that [run] calls in turn. *)
Definition audit_phases (env : Env) (self : AuditRunner) : M unit :=
  _check_initial_availability env self;;
  _crawl_and_audit env self;;
  _check_security_hygiene env self;;
  _run_accessibility_checks env self.

Definition run (env : Env) (self : AuditRunner) : M unit :=
  try_finally
    (try_except
       (mutate (set_status RUNNING);;
        report_progress "starting" 5 None None;;
        await (create_authenticated_context env);;
        set_context true;;
        await (new_page env);;
        set_page true;;
        _setup_event_listeners;;
        audit_phases env self;;
        mutate (set_status DONE);;
        mutate (set_finished_at (Some (utcnow env)));;
        a ← read;
        report_progress "complete" 100 None
          (Some ("Audit complete. Visited "
                 +:+ pretty (Z.of_nat (size (visited_urls a))) +:+ " pages.")))
       (fun e =>
          mutate (set_status ERROR);;
          mutate (set_error_message (Some e));;
          report_progress "error" 0 None (Some ("Audit failed: " +:+ e))))
    (w ← read_world;
     (if page w && negb (page_closed_at_cleanup env) then await (page_close env) else mret tt);;
     (if context w then await (context_close env) else mret tt)).

(** The world in which [run] starts. *)
Definition start (audit : AuditState) : World :=
  {| audit := audit; context := false; page := false;
     _last_preview_capture_s := 0; trace := [] |}.

(** The states of the record that can be observed while [run] executes: the
    record as it was queued, the record at each suspension, the record once
    [run] is over. *)
Definition moments (env : Env) (self : AuditRunner) (audit0 : AuditState) : list AuditState :=
  let w := snd (run env self (start audit0)) in
  audit0 :: trace w ++ [audit w].

(** The record once [run] is over. *)
Definition final (env : Env) (self : AuditRunner) (audit0 : AuditState) : AuditState :=
  audit (snd (run env self (start audit0))).

(** [run_audit_async(audit_id)]: the manager after the task and the states of
    the record that could be observed meanwhile. *)
Definition run_audit_async (manager : AuditManager) (audit_id : string) (env : Env)
  : AuditManager * list AuditState :=
  match get_audit manager audit_id with
  | None => (manager, [])
  | Some audit0 =>
      match AuditRunner_init audit0 with
      | None => (manager, [audit0])
      | Some runner =>
          (<[ audit_id := final env runner audit0 ]> manager, moments env runner audit0)
      end
  end.

(** ** Predicates used by the properties *)

(** The tracked [header] occurs among the response's header names, compared
    in lower case as the probe does. *)
Definition header_found (header_names : list string) (header : string) : Prop :=
  existsb (fun h => String.eqb (Py.lower h) (Py.lower header)) header_names = true.

#[local] Instance header_found_dec names header : Decision (header_found names header).
Proof. unfold header_found. apply _. Defined.

(** No window holds more entries than the limit allows. *)
Definition within_limit (self : RateLimiter) : Prop :=
  forall ip, Py.len (requests self !!! ip) <= Z.max 0 (requests_per_minute self).

(** ** The runner: a logic of steps *)

(** [steps R m]: whatever the world, [m] takes the record to one related to
    it by [R], and so is the record at every suspension on the way. *)
Definition steps_at {A} (R : relation AuditState) (m : M A) (w : World) : Prop :=
  R (audit w) (audit (snd (m w)))
  /\ exists ext, trace (snd (m w)) = trace w ++ ext /\ Forall (R (audit w)) ext.

Definition steps {A} (R : relation AuditState) (m : M A) : Prop :=
  forall w, steps_at R m w.

(** [safe m]: [m] never raises. *)
Definition safe {A} (m : M A) : Prop :=
  forall w, exists x, fst (m w) = Ok x.

(** A URL as [_discover_links] builds it: [scheme://netloc/path] of a link
    whose netloc is the base domain or is empty. *)
Definition discovered_form (self : AuditRunner) (u : string) : Prop :=
  exists link parsed,
    UrlParse.urlparse link = Some parsed
    /\ same_domain self parsed = true
    /\ u = clean_url parsed.

(** What the phases of an audit may change in the record: never the URL, the
    options, the status, the finishing time or the error message; the visited
    and discovered sets only grow, the first by the target or by discovered
    URLs, the second by URLs of the discovered form. *)
Definition frame (self : AuditRunner) (a a' : AuditState) : Prop :=
  url a' = url a
  /\ options a' = options a
  /\ status a' = status a
  /\ finished_at a' = finished_at a
  /\ error_message a' = error_message a
  /\ visited_urls a ⊆ visited_urls a'
  /\ discovered_urls a ⊆ discovered_urls a'
  /\ (forall u, u ∈ visited_urls a' ->
        u ∈ visited_urls a \/ u = url a \/ u ∈ discovered_urls a')
  /\ (forall u, u ∈ discovered_urls a' ->
        u ∈ discovered_urls a \/ discovered_form self u).

(** The same, with the visited set untouched. *)
Definition still (self : AuditRunner) (a a' : AuditState) : Prop :=
  frame self a a' /\ visited_urls a' = visited_urls a.

(** The same, with no visited URL added but from [pages]. *)
Definition grown (self : AuditRunner) (pages : list string) (a a' : AuditState) : Prop :=
  frame self a a' /\ visited_urls a' ⊆ visited_urls a ∪ list_to_set pages.

(** The same as [frame], with no visited URL added but the target. *)
Definition arrived (self : AuditRunner) (a a' : AuditState) : Prop :=
  frame self a a' /\ visited_urls a' ⊆ visited_urls a ∪ {[ url a ]}.

(** The bound that [max_pages] puts on the pages selected by the crawl. *)
Definition within_budget (a : AuditState) (pages : list string) : Prop :=
  (1 <= max_pages (options a) ->
   Z.of_nat (length pages) <= max_pages (options a) - 1).

(** The record once [run] has set the status to running and reported the
    "starting" progress. *)
Definition started (a0 : AuditState) : AuditState :=
  let a := set_status RUNNING a0 in
  set_progress (new_progress a "starting" 5 None None) a.

(** The finalisation of [run] applied to the record the phases left. *)
Definition completed (env : Env) (a : AuditState) : AuditState :=
  let a := set_finished_at (Some (utcnow env)) (set_status DONE a) in
  set_progress
    (new_progress a "complete" 100 None
       (Some ("Audit complete. Visited "
              +:+ pretty (Z.of_nat (size (visited_urls a))) +:+ " pages."))) a.

(** The [except] branch of [run] applied to the record at the failure. *)
Definition failed (e : string) (a : AuditState) : AuditState :=
  let a := set_error_message (Some e) (set_status ERROR a) in
  set_progress (new_progress a "error" 0 None (Some ("Audit failed: " +:+ e))) a.

(** Every observable state of a run is the queued record, a state the phases
    reach from the started record, the completed record or the failed one. *)
Definition moment_of (env : Env) (self : AuditRunner) (a0 : AuditState)
    (pages : list string) (s : AuditState) : Prop :=
  s = a0
  \/ grown self (url a0 :: pages) (started a0) s
  \/ (exists a, grown self (url a0 :: pages) (started a0) a /\ s = completed env a)
  \/ (exists e, s = failed e (started a0)).

(** Steps that leave the list of UI flows as it is. *)
Definition same_flows (a a' : AuditState) : Prop := ui_flows a' = ui_flows a.

(** ** A concrete audit and concrete behaviours of the browser *)

Definition example_options : AuditOptions :=
  {| max_pages := 20; max_depth := 2; enable_form_submit := false;
     include_accessibility := true; screenshot_on_error := true |}.

Definition example_audit : AuditState :=
  new_audit "artifacts" "audit-1" "session-1" "https://example.test/?next=1#top"
    example_options 1000000.

Definition example_runner : AuditRunner :=
  {| base_domain := "example.test";
     _preview_path := "artifacts/audits/audit-1/preview_latest.jpg" |}.

Definition padding (n : nat) : string := string_of_list_ascii (repeat "x"%char n).

(** A page of 100 characters that holds the phrase "oops", and the same page
    one character shorter. *)
Definition oops_page_100 : string := "Oops" +:+ padding 96.
Definition oops_page_99 : string := "Oops" +:+ padding 95.

Definition quiet_preview : PreviewEnv :=
  {| page_is_closed := false; time_ms := 5000; preview_screenshot := Ok tt |}.

Definition quiet_page : PageEnv :=
  {| goto := Ok (Some 200, 120);
     probe := Ok None;
     content := Ok oops_page_100;
     screenshot := Ok tt;
     links := Ok [];
     preview := quiet_preview |}.

(** A page answered with HTTP 500 whose content is one character short of
    100. *)
Definition short_page : PageEnv :=
  {| goto := Ok (Some 500, 120);
     probe := Ok None;
     content := Ok oops_page_99;
     screenshot := Ok tt;
     links := Ok [];
     preview := quiet_preview |}.

(** Everything works; the target page links to "/about" and to a telephone
    number. *)
Definition quiet_env : Env :=
  {| create_authenticated_context := Ok tt;
     new_page := Ok tt;
     initial_goto := Ok (Some 200, 150);
     initial_preview := quiet_preview;
     initial_links := Ok ["https://example.test/about?tab=1#team"; "tel:+15551234"];
     crawled := fun _ _ => quiet_page;
     loop_percent := fun i total => (i * 60) `div` Z.max total 1;
     head := fun _ => HeadResponse ["content-security-policy"; "X-Frame-Options"];
     cookies := Ok [];
     axe_goto := Ok tt;
     axe_script := Ok tt;
     axe_evaluate := Ok [];
     utcnow := 9000000;
     page_closed_at_cleanup := false;
     page_close := Ok tt;
     context_close := Ok tt |}.

(** The authenticated context cannot be created. *)
Definition no_context_env : Env :=
  {| create_authenticated_context := Raise "Session not authenticated";
     new_page := Ok tt;
     initial_goto := Ok (Some 200, 150);
     initial_preview := quiet_preview;
     initial_links := Ok [];
     crawled := fun _ _ => quiet_page;
     loop_percent := fun i total => (i * 60) `div` Z.max total 1;
     head := fun _ => HeadResponse [];
     cookies := Ok [];
     axe_goto := Ok tt;
     axe_script := Ok tt;
     axe_evaluate := Ok [];
     utcnow := 9000000;
     page_closed_at_cleanup := false;
     page_close := Ok tt;
     context_close := Ok tt |}.

Definition broken_preview : PreviewEnv :=
  {| page_is_closed := false; time_ms := 5000; preview_screenshot := Raise "Target closed" |}.

Definition broken_page : PageEnv :=
  {| goto := Raise "Timeout 60000ms exceeded";
     probe := Raise "Target closed";
     content := Raise "Target closed";
     screenshot := Raise "Target closed";
     links := Raise "Execution context was destroyed";
     preview := broken_preview |}.

(** The context and the page are created; every later call fails. *)
Definition hostile_env : Env :=
  {| create_authenticated_context := Ok tt;
     new_page := Ok tt;
     initial_goto := Raise "net::ERR_CONNECTION_REFUSED";
     initial_preview := broken_preview;
     initial_links := Raise "Execution context was destroyed";
     crawled := fun _ _ => broken_page;
     loop_percent := fun i total => (i * 60) `div` Z.max total 1;
     head := fun _ => HeadTimeout "timed out";
     cookies := Raise "Target closed";
     axe_goto := Raise "Timeout 30000ms exceeded";
     axe_script := Raise "Failed to load script";
     axe_evaluate := Raise "axe is not defined";
     utcnow := 9000000;
     page_closed_at_cleanup := true;
     page_close := Raise "Target closed";
     context_close := Raise "Target closed" |}.

(** The netloc of a URL, as [urlparse] finds it. *)
Definition netloc_of (u : string) : string :=
  match UrlParse.urlparse u with
  | Some parsed => UrlParse.netloc parsed
  | None => ""
  end.

(** ** Further definitions *)

(** ** app/utils/security_headers.py: recommendations *)

(** [get_header_recommendations(missing_headers)]: the dictionary as the list
    of its items in insertion order. *)
Definition get_header_recommendations (missing_headers : list string)
  : list (string * string) :=
  let recommendations := [] in
  let recommendations :=
    if bool_decide ("Strict-Transport-Security" ∈ missing_headers)
    then recommendations ++
      [("HSTS", "Add 'Strict-Transport-Security: max-age=31536000; includeSubDomains'")]
    else recommendations in
  let recommendations :=
    if bool_decide ("Content-Security-Policy" ∈ missing_headers)
    then recommendations ++
      [("CSP", "Implement a Content Security Policy appropriate for your application")]
    else recommendations in
  let recommendations :=
    if bool_decide ("X-Content-Type-Options" ∈ missing_headers)
    then recommendations ++
      [("X-Content-Type-Options", "Add 'X-Content-Type-Options: nosniff'")]
    else recommendations in
  let recommendations :=
    if bool_decide ("X-Frame-Options" ∈ missing_headers)
    then recommendations ++
      [("X-Frame-Options", "Add 'X-Frame-Options: DENY' or 'SAMEORIGIN'")]
    else recommendations in
  let recommendations :=
    if bool_decide ("Referrer-Policy" ∈ missing_headers)
    then recommendations ++
      [("Referrer-Policy", "Add 'Referrer-Policy: strict-origin-when-cross-origin'")]
    else recommendations in
  let recommendations :=
    if bool_decide ("Permissions-Policy" ∈ missing_headers)
    then recommendations ++
      [("Permissions-Policy",
        "Consider adding Permissions-Policy to restrict browser features")]
    else recommendations in
  recommendations.

(** ** app/services/report_builder.py: recommendations *)

Record RecommendedFix := {
  fix_category : string;
  fix_severity : Severity;
  fix_issue : string;
  fix_recommendation : string;
  affected_urls : list string;
}.

(** [sep.join(parts)] *)
Fixpoint str_join (sep : string) (parts : list string) : string :=
  match parts with
  | [] => ""
  | [p] => p
  | p :: rest => p +:+ sep +:+ str_join sep rest
  end.

(** [list(set(xs))]: the distinct elements, in the order in which the set is
    iterated. *)
Definition list_of_set (xs : list string) : list string :=
  elements (list_to_set xs : gset string).

(** [v.impact in ("critical", "serious")] *)
Definition is_critical (v : AccessibilityViolation) : bool :=
  String.eqb (impact v) "critical" || String.eqb (impact v) "serious".

Definition _generate_recommendations (audit : AuditState) : list RecommendedFix :=
  let fixes := [] in
  let fixes :=
    match console_errors audit with
    | [] => fixes
    | _ =>
        let error_urls := list_of_set (map ce_page_url (take 5 (console_errors audit))) in
        fixes ++
        [{| fix_category := "Console Errors"; fix_severity := Severity_ERROR;
            fix_issue := "Found " +:+ pretty (Py.len (console_errors audit))
                         +:+ " console errors";
            fix_recommendation := "Review and fix JavaScript errors. Check for null references, API failures, and missing dependencies.";
            affected_urls := error_urls |}]
    end in
  let fixes :=
    match network_failures audit with
    | [] => fixes
    | _ =>
        let failure_urls := list_of_set (map nf_url (take 5 (network_failures audit))) in
        fixes ++
        [{| fix_category := "Network/API"; fix_severity := Severity_ERROR;
            fix_issue := "Found " +:+ pretty (Py.len (network_failures audit))
                         +:+ " failing network requests";
            fix_recommendation := "Check API endpoints, verify authentication, and ensure proper error handling for failed requests.";
            affected_urls := failure_urls |}]
    end in
  let ui_errors := List.filter is_error_flow (ui_flows audit) in
  let fixes :=
    match ui_errors with
    | [] => fixes
    | _ =>
        fixes ++
        [{| fix_category := "UI Flows"; fix_severity := Severity_ERROR;
            fix_issue := "Found " +:+ pretty (Py.len ui_errors) +:+ " broken pages";
            fix_recommendation := "Review pages for rendering issues, missing content, or error states.";
            affected_urls := map page_url (take 5 ui_errors) |}]
    end in
  let fixes :=
    match security_hygiene audit with
    | None => fixes
    | Some hygiene =>
        let fixes :=
          if negb (https_ok hygiene) then
            fixes ++
            [{| fix_category := "Security"; fix_severity := Severity_ERROR;
                fix_issue := "Site not using HTTPS";
                fix_recommendation := "Enable HTTPS with a valid SSL certificate.";
                affected_urls := [url audit] |}]
          else fixes in
        match headers_missing hygiene with
        | [] => fixes
        | _ =>
            fixes ++
            [{| fix_category := "Security"; fix_severity := Severity_WARNING;
                fix_issue := "Missing security headers: "
                             +:+ str_join ", " (headers_missing hygiene);
                fix_recommendation := "Add recommended security headers to your server configuration.";
                affected_urls := [url audit] |}]
        end
    end in
  let fixes :=
    match large_assets audit with
    | [] => fixes
    | _ =>
        fixes ++
        [{| fix_category := "Performance"; fix_severity := Severity_WARNING;
            fix_issue := "Found " +:+ pretty (Py.len (large_assets audit))
                         +:+ " large assets (>500KB)";
            fix_recommendation := "Optimize images, minify JavaScript/CSS, and consider lazy loading for large resources.";
            affected_urls := map la_url (take 3 (large_assets audit)) |}]
    end in
  let fixes :=
    match slow_endpoints audit with
    | [] => fixes
    | _ =>
        fixes ++
        [{| fix_category := "Performance"; fix_severity := Severity_WARNING;
            fix_issue := "Found " +:+ pretty (Py.len (slow_endpoints audit))
                         +:+ " slow endpoints (>1s)";
            fix_recommendation := "Optimize slow API endpoints, add caching, or review database queries.";
            affected_urls := map se_url (take 3 (slow_endpoints audit)) |}]
    end in
  let fixes :=
    match accessibility_violations audit with
    | [] => fixes
    | _ =>
        let critical := List.filter is_critical (accessibility_violations audit) in
        match critical with
        | [] => fixes
        | _ =>
            fixes ++
            [{| fix_category := "Accessibility"; fix_severity := Severity_WARNING;
                fix_issue := "Found " +:+ pretty (Py.len critical)
                             +:+ " critical/serious accessibility violations";
                fix_recommendation := "Address accessibility issues for better usability and compliance. Focus on color contrast, alt text, and keyboard navigation.";
                affected_urls := map av_page_url (take 3 critical) |}]
        end
    end in
  fixes.

(** ** Measures used by the further properties *)

(** The sum of the scores of a list of categories. *)
Definition total_category_score (categories : list CategoryScore) : Z :=
  foldr (fun c acc => score c + acc) 0 categories.

(** The rank of a letter grade, F lowest. *)
Definition grade_rank (grade : string) : Z :=
  if String.eqb grade "A" then 4
  else if String.eqb grade "B" then 3
  else if String.eqb grade "C" then 2
  else if String.eqb grade "D" then 1
  else 0.

(** The world in which [run] enters the phases: the record is started, the
    context and the page exist, and the record was seen at the two
    suspensions that created them. *)
Definition entered (a0 : AuditState) : World :=
  {| audit := started a0; context := true; page := true;
     _last_preview_capture_s := 0; trace := [started a0; started a0] |}.

(** Steps that leave [field] of the record as it is. *)
Definition keeps {T} (field : AuditState -> T) : relation AuditState :=
  fun a a' => field a' = field a.

(** The path that [_take_screenshot] gives to the [n]-th screenshot. *)
Definition shot_path (dir : string) (n : nat) : string :=
  path_join dir ("screenshot_" +:+ pretty (Z.of_nat n) +:+ ".png").

(** The screenshots of the record are numbered from 0 in the order in which
    they were taken. *)
Definition numbered (a : AuditState) : Prop :=
  screenshots a = map (shot_path (artifacts_dir a)) (seq 0 (length (screenshots a))).

(** Steps that keep the artifacts directory and the numbering. *)
Definition numbering (a a' : AuditState) : Prop :=
  artifacts_dir a' = artifacts_dir a /\ (numbered a -> numbered a').

(** The percentages of a list of states never decrease. *)
Fixpoint rising (l : list AuditState) : Prop :=
  match l with
  | [] => True
  | a :: rest =>
      Forall (fun b => percent (progress a) <= percent (progress b)) rest /\ rising rest
  end.

(** The states seen so far are rising, none is above the present one, and
    the present percentage is at most [b]. *)
Definition upto (b : Z) (w : World) : Prop :=
  rising (trace w)
  /\ Forall (fun s => percent (progress s) <= percent (progress (audit w))) (trace w)
  /\ percent (progress (audit w)) <= b.

(** From a world that is up to [lo], [m] leads to one that is up to [hi]. *)
Definition climbs {A} (lo hi : Z) (m : M A) : Prop :=
  forall w, upto lo w -> upto hi (snd (m w)).

(** The percentages that the crawl loop reports grow with the index and
    stay below 60, as [int((i / max(total_pages, 1)) * 60)] does. *)
Definition loop_percent_grows (env : Env) : Prop :=
  forall i j total, 0 <= i <= j -> j < total ->
    0 <= loop_percent env i total <= loop_percent env j total
    /\ loop_percent env j total <= 60.

(** The cookies that [_check_security_hygiene] reports. *)
Definition lacks_flag (cookie : Cookie) : bool :=
  negb (secure cookie) || negb (httpOnly cookie)
  || match sameSite cookie with
     | None => true
     | Some v => negb (Py.truthy v) || String.eqb v "None"
     end.

(** ** app/services/session_manager.py

    Times are readings of [datetime.utcnow()] in microseconds; each call of
    [is_expired] reads the clock anew.  The session directory on disk is not
    part of the model: its creation is taken to succeed and a failure to
    remove it is swallowed by the source. *)

Module Sessions.

Inductive SessionStatus := STARTED | AUTHENTICATED | EXPIRED.

Record Session := {
  session_id : string;
  url : string;
  status : SessionStatus;
  created_at : Z;
  expires_at : Z;
  storage_state_path : option string;
  browser_context_id : option string;
  is_authenticated : bool;
}.

(** [datetime.utcnow() > self.expires_at] *)
Definition is_expired (self : Session) (utcnow : Z) : bool := expires_at self <? utcnow.

(** [SessionManager._sessions]; the lock only serialises the accesses. *)
Abbreviation SessionManager := (gmap string Session).

(** [timedelta(minutes=...)] *)
Definition minutes (n : Z) : Z := n * 60 * 1000000.

(** [create_session]; [session_id] is the fresh uuid, [now] the reading of
    the clock, [ARTIFACTS_DIR] and [SESSION_TTL_MINUTES] the settings. *)
Definition create_session (self : SessionManager) (ARTIFACTS_DIR : string)
    (SESSION_TTL_MINUTES : Z) (session_id url : string) (now : Z)
  : Session * SessionManager :=
  let expires_at := now + minutes SESSION_TTL_MINUTES in
  let session_dir := path_join (path_join ARTIFACTS_DIR "sessions") session_id in
  let storage_state_path := path_join session_dir "storage_state.json" in
  let session :=
    {| session_id := session_id;
       url := url;
       status := STARTED;
       created_at := now;
       expires_at := expires_at;
       storage_state_path := Some storage_state_path;
       browser_context_id := None;
       is_authenticated := false |} in
  (session, <[ session_id := session ]> self).

Definition _cleanup_session (self : SessionManager) (session_id : string)
  : bool * SessionManager :=
  match self !! session_id with
  | Some _ => (true, delete session_id self)
  | None => (false, self)
  end.

Definition get_session (self : SessionManager) (session_id : string) (utcnow : Z)
  : option Session * SessionManager :=
  match self !! session_id with
  | Some session =>
      if is_expired session utcnow
      then (None, snd (_cleanup_session self session_id))
      else (Some session, self)
  | None => (None, self)
  end.

Definition mark_authenticated (self : SessionManager) (session_id : string) (utcnow : Z)
  : bool * SessionManager :=
  match self !! session_id with
  | Some session =>
      if negb (is_expired session utcnow)
      then (true,
            <[ session_id :=
                 {| session_id := Sessions.session_id session;
                    url := url session;
                    status := AUTHENTICATED;
                    created_at := created_at session;
                    expires_at := expires_at session;
                    storage_state_path := storage_state_path session;
                    browser_context_id := browser_context_id session;
                    is_authenticated := true |} ]> self)
      else (false, self)
  | None => (false, self)
  end.

Definition delete_session (self : SessionManager) (session_id : string)
  : bool * SessionManager :=
  _cleanup_session self session_id.

(** The body of the [for session_id in expired_ids] loop of
    [cleanup_expired_sessions]. *)
Definition cleanup_step (state : Z * SessionManager) (session_id : string)
  : Z * SessionManager :=
  let '(cleaned, sessions) := state in
  let '(removed, sessions) := _cleanup_session sessions session_id in
  (if removed then cleaned + 1 else cleaned, sessions).

(** [cleanup_expired_sessions]; [clock sid] is the reading of the clock when
    the session [sid] is examined. *)
Definition cleanup_expired_sessions (self : SessionManager) (clock : string -> Z)
  : Z * SessionManager :=
  let expired_ids :=
    map fst (List.filter (fun item => is_expired (snd item) (clock (fst item)))
               (map_to_list self)) in
  fold_left cleanup_step expired_ids (0, self).

Definition get_active_count (self : SessionManager) (clock : string -> Z) : Z :=
  Py.len (List.filter (fun item => negb (is_expired (snd item) (clock (fst item))))
            (map_to_list self)).

End Sessions.

(** ** app/utils/sanitizers.py *)

(** [p in s] for strings. *)
Fixpoint occurs (p s : string) : bool :=
  Py.startswith p s
  || match s with
     | EmptyString => false
     | String _ r => occurs p r
     end.

(** [re.match(r'^172\.(1[6-9]|2[0-9]|3[01])\.', host)] *)
Definition match_172 (host : string) : bool :=
  match host with
  | String "1" (String "7" (String "2" (String "." (String a (String b (String "." _)))))) =>
      let n := nat_of_ascii b in
      (Ascii.eqb a "1" && (54 <=? n) && (n <=? 57))%nat
      || (Ascii.eqb a "2" && (48 <=? n) && (n <=? 57))%nat
      || (Ascii.eqb a "3" && (48 <=? n) && (n <=? 49))%nat
  | _ => false
  end.

(** [re.match(r'^::1$', host)]: the whole host, or the host before a final
    line feed. *)
Definition match_loopback6 (host : string) : bool :=
  String.eqb host "::1" || String.eqb host ("::1" +:+ String (ascii_of_nat 10) "").

(** [PRIVATE_IP_PATTERNS], each as the test that [re.match] makes. *)
Definition PRIVATE_IP_PATTERNS : list (string -> bool) :=
  [ Py.startswith "127.";
    Py.startswith "10.";
    match_172;
    Py.startswith "192.168.";
    Py.startswith "169.254.";
    match_loopback6;
    Py.startswith "fc00:";
    Py.startswith "fe80:" ].

(** [is_private_ip]; [ip_address host] is the outcome of
    [ipaddress.ip_address(host)]: [None] for a [ValueError], otherwise
    whether the address is private, loopback or link-local. *)
Definition is_private_ip (ip_address : string -> option bool) (host : string) : bool :=
  if String.eqb (Py.lower host) "localhost"
     || String.eqb (Py.lower host) "localhost.localdomain"
  then true
  else if existsb (fun pattern => pattern host) PRIVATE_IP_PATTERNS then true
  else match ip_address host with
       | Some private => private
       | None => false
       end.

(** [validate_url]; [ALLOW_PRIVATE_IPS] is the setting. *)
Definition validate_url (ALLOW_PRIVATE_IPS : bool) (ip_address : string -> option bool)
    (url : string) : bool * string :=
  if negb (Py.truthy url) then (false, "URL is required")
  else
    let url := Py.strip url in
    if negb (Py.startswith "http://" url || Py.startswith "https://" url)
    then (false, "URL must start with http:// or https://")
    else
      match UrlParse.urlparse url with
      | None => (false, "Invalid URL format: Invalid IPv6 URL")
      | Some parsed =>
          let host := UrlParse.netloc parsed in
          if negb (Py.truthy host) then (false, "URL must have a valid host")
          else
            let hostname := UrlParse.before ":" host in
            if negb ALLOW_PRIVATE_IPS && is_private_ip ip_address hostname
            then (false, "Private/local IP addresses are not allowed. Set ALLOW_PRIVATE_IPS=true for internal testing.")
            else if occurs ".." (UrlParse.path parsed)
            then (false, "Invalid path traversal in URL")
            else (true, "")
      end.

(** ** app/services/browser.py *)

Module Browser.

(** [create_authenticated_context], as far as the sessions decide it:
    [storage_state_exists] is [os.path.exists(session.storage_state_path)]
    and [new_context] the outcome of starting the browser and opening the
    context. *)
Definition create_authenticated_context (sessions : Sessions.SessionManager)
    (session_id : string) (utcnow : Z) (storage_state_exists : bool)
    (new_context : Result unit) : Result unit * Sessions.SessionManager :=
  let '(session, sessions) := Sessions.get_session sessions session_id utcnow in
  match session with
  | None => (Raise ("Session " +:+ session_id +:+ " not found"), sessions)
  | Some session =>
      if negb (Sessions.is_authenticated session)
      then (Raise ("Session " +:+ session_id +:+ " is not authenticated"), sessions)
      else if negb storage_state_exists
      then (Raise ("Storage state not found for session " +:+ session_id), sessions)
      else (new_context, sessions)
  end.

End Browser.

(** ** app/utils/frontend_adapter.py *)

Definition _impact_to_severity (impact : option string) : string :=
  match impact with
  | None => "medium"
  | Some impact =>
      if negb (Py.truthy impact) then "medium"
      else
        let impact := Py.lower impact in
        if String.eqb impact "critical" || String.eqb impact "serious" then "high"
        else if String.eqb impact "moderate" then "medium"
        else "low"
  end.

(** An environment in which the context is what the browser manager makes of
    the given sessions; everything else works. *)
Definition session_env (sessions : Sessions.SessionManager) (session_id : string)
    (now : Z) (storage_state_exists : bool) : Env :=
  {| create_authenticated_context :=
       fst (Browser.create_authenticated_context sessions session_id now
              storage_state_exists (Ok tt));
     new_page := Ok tt;
     initial_goto := Ok (Some 200, 150);
     initial_preview := quiet_preview;
     initial_links := Ok [];
     crawled := fun _ _ => quiet_page;
     loop_percent := fun i total => (i * 60) `div` Z.max total 1;
     head := fun _ => HeadResponse [];
     cookies := Ok [];
     axe_goto := Ok tt;
     axe_script := Ok tt;
     axe_evaluate := Ok [];
     utcnow := 9000000;
     page_closed_at_cleanup := false;
     page_close := Ok tt;
     context_close := Ok tt |}.

(** ** app/services/audit_runner.py: the listeners of [_setup_event_listeners]

    The callbacks run when the browser emits an event; none of them awaits,
    so each is one step on the record and on the [request_timings] of the
    closure.  Times are readings of [time.time() * 1000] in milliseconds. *)

Definition set_console_errors (v : list ConsoleError) (a : AuditState) : AuditState :=
  {| audit_id := audit_id a;
     session_id := session_id a;
     url := url a;
     options := options a;
     status := status a;
     progress := progress a;
     started_at := started_at a;
     finished_at := finished_at a;
     console_errors := v;
     network_failures := network_failures a;
     ui_flows := ui_flows a;
     page_timings := page_timings a;
     large_assets := large_assets a;
     slow_endpoints := slow_endpoints a;
     security_hygiene := security_hygiene a;
     accessibility_violations := accessibility_violations a;
     visited_urls := visited_urls a;
     discovered_urls := discovered_urls a;
     total_requests := total_requests a;
     error_message := error_message a;
     artifacts_dir := artifacts_dir a;
     screenshots := screenshots a;
     preview_image_path := preview_image_path a;
     preview_updated_at := preview_updated_at a |}.

Definition set_network_failures (v : list NetworkFailure) (a : AuditState) : AuditState :=
  {| audit_id := audit_id a;
     session_id := session_id a;
     url := url a;
     options := options a;
     status := status a;
     progress := progress a;
     started_at := started_at a;
     finished_at := finished_at a;
     console_errors := console_errors a;
     network_failures := v;
     ui_flows := ui_flows a;
     page_timings := page_timings a;
     large_assets := large_assets a;
     slow_endpoints := slow_endpoints a;
     security_hygiene := security_hygiene a;
     accessibility_violations := accessibility_violations a;
     visited_urls := visited_urls a;
     discovered_urls := discovered_urls a;
     total_requests := total_requests a;
     error_message := error_message a;
     artifacts_dir := artifacts_dir a;
     screenshots := screenshots a;
     preview_image_path := preview_image_path a;
     preview_updated_at := preview_updated_at a |}.

Definition set_large_assets (v : list LargeAsset) (a : AuditState) : AuditState :=
  {| audit_id := audit_id a;
     session_id := session_id a;
     url := url a;
     options := options a;
     status := status a;
     progress := progress a;
     started_at := started_at a;
     finished_at := finished_at a;
     console_errors := console_errors a;
     network_failures := network_failures a;
     ui_flows := ui_flows a;
     page_timings := page_timings a;
     large_assets := v;
     slow_endpoints := slow_endpoints a;
     security_hygiene := security_hygiene a;
     accessibility_violations := accessibility_violations a;
     visited_urls := visited_urls a;
     discovered_urls := discovered_urls a;
     total_requests := total_requests a;
     error_message := error_message a;
     artifacts_dir := artifacts_dir a;
     screenshots := screenshots a;
     preview_image_path := preview_image_path a;
     preview_updated_at := preview_updated_at a |}.

Definition set_slow_endpoints (v : list SlowEndpoint) (a : AuditState) : AuditState :=
  {| audit_id := audit_id a;
     session_id := session_id a;
     url := url a;
     options := options a;
     status := status a;
     progress := progress a;
     started_at := started_at a;
     finished_at := finished_at a;
     console_errors := console_errors a;
     network_failures := network_failures a;
     ui_flows := ui_flows a;
     page_timings := page_timings a;
     large_assets := large_assets a;
     slow_endpoints := v;
     security_hygiene := security_hygiene a;
     accessibility_violations := accessibility_violations a;
     visited_urls := visited_urls a;
     discovered_urls := discovered_urls a;
     total_requests := total_requests a;
     error_message := error_message a;
     artifacts_dir := artifacts_dir a;
     screenshots := screenshots a;
     preview_image_path := preview_image_path a;
     preview_updated_at := preview_updated_at a |}.

Definition set_total_requests (v : Z) (a : AuditState) : AuditState :=
  {| audit_id := audit_id a;
     session_id := session_id a;
     url := url a;
     options := options a;
     status := status a;
     progress := progress a;
     started_at := started_at a;
     finished_at := finished_at a;
     console_errors := console_errors a;
     network_failures := network_failures a;
     ui_flows := ui_flows a;
     page_timings := page_timings a;
     large_assets := large_assets a;
     slow_endpoints := slow_endpoints a;
     security_hygiene := security_hygiene a;
     accessibility_violations := accessibility_violations a;
     visited_urls := visited_urls a;
     discovered_urls := discovered_urls a;
     total_requests := v;
     error_message := error_message a;
     artifacts_dir := artifacts_dir a;
     screenshots := screenshots a;
     preview_image_path := preview_image_path a;
     preview_updated_at := preview_updated_at a |}.

(** [int(s)] for a string of code points below 256: optional white space
    around, an optional sign, decimal digits with single underscores between
    them; [None] stands for the [ValueError]. *)
Fixpoint int_digits (acc : Z) (after_digit : bool) (s : string) : option Z :=
  match s with
  | EmptyString => if after_digit then Some acc else None
  | String c r =>
      if UrlParse.is_digit c
      then int_digits (10 * acc + (Z.of_nat (nat_of_ascii c) - 48)) true r
      else if Ascii.eqb c "_" && after_digit then int_digits acc false r
      else None
  end.

Definition py_int (s : string) : option Z :=
  match Py.strip s with
  | String "-" r => Z.opp <$> int_digits 0 false r
  | String "+" r => int_digits 0 false r
  | digits => int_digits 0 false digits
  end.

(** A console message: [msg.type], [msg.text], and [msg.location], [None]
    when it is missing or empty and otherwise its "url" entry, if any. *)
Record ConsoleMessage := {
  msg_type : string;
  msg_text : string;
  msg_location : option (option string);
}.

Record Request := {
  req_url : string;
  req_method : string;
  req_resource_type : string;
  req_failure : option string;
}.

Record Response := {
  resp_url : string;
  resp_status : Z;
  resp_request : Request;
  resp_headers : gmap string string;
}.

(** [self.page.url if self.page else ""] *)
Definition current_page_url (page : option string) : string := default "" page.

Definition on_console (page : option string) (timestamp : string) (msg : ConsoleMessage)
    (a : AuditState) : AuditState :=
  if String.eqb (msg_type msg) "error" || String.eqb (msg_type msg) "warning" then
    set_console_errors
      (console_errors a ++
       [{| ce_message := msg_text msg;
           ce_location := match msg_location msg with
                          | Some location => location
                          | None => None
                          end;
           ce_page_url := current_page_url page;
           ce_severity := if String.eqb (msg_type msg) "error"
                          then Severity_ERROR else Severity_WARNING;
           ce_stack := None;
           ce_timestamp := Some timestamp |}]) a
  else a.

Definition on_pageerror (page : option string) (timestamp : string) (error : string)
    (a : AuditState) : AuditState :=
  set_console_errors
    (console_errors a ++
     [{| ce_message := error;
         ce_location := None;
         ce_page_url := current_page_url page;
         ce_severity := Severity_ERROR;
         ce_stack := Some error;
         ce_timestamp := Some timestamp |}]) a.

Definition on_request (now : Z) (request : Request)
    (state : AuditState * gmap string Z) : AuditState * gmap string Z :=
  let '(a, request_timings) := state in
  (set_total_requests (total_requests a + 1) a,
   <[ req_url request := now ]> request_timings).

(** [on_response]; [now] is the first reading of the clock and [now_default]
    the second, made for the default of [request_timings.get]. *)
Definition on_response (page : option string) (now now_default : Z) (response : Response)
    (state : AuditState * gmap string Z) : AuditState * gmap string Z :=
  let '(a, request_timings) := state in
  let url := resp_url response in
  let duration := now - default now_default (request_timings !! url) in
  let a :=
    if 400 <=? resp_status response then
      set_network_failures
        (network_failures a ++
         [{| nf_url := url;
             nf_method := req_method (resp_request response);
             nf_status := Some (resp_status response);
             nf_error := None;
             nf_duration_ms := Some duration;
             nf_page_url := current_page_url page;
             nf_resource_type := Some (req_resource_type (resp_request response)) |}]) a
    else a in
  let a :=
    if 1000 <? duration then
      set_slow_endpoints
        (slow_endpoints a ++
         [{| se_url := url;
             se_method := req_method (resp_request response);
             se_duration_ms := duration;
             se_status := Some (resp_status response) |}]) a
    else a in
  let a :=
    match resp_headers response !! "content-length" with
    | Some content_length =>
        if Py.truthy content_length then
          match py_int content_length with
          | Some size =>
              if 500000 <? size then
                set_large_assets
                  (large_assets a ++
                   [{| la_url := url;
                       size_bytes := size;
                       la_type := default "unknown" (resp_headers response !! "content-type");
                       la_page_url := current_page_url page |}]) a
              else a
          | None => a
          end
        else a
    | None => a
    end in
  (a, request_timings).

Definition on_request_failed (page : option string) (request : Request)
    (a : AuditState) : AuditState :=
  set_network_failures
    (network_failures a ++
     [{| nf_url := req_url request;
         nf_method := req_method request;
         nf_status := None;
         nf_error := req_failure request;
         nf_duration_ms := None;
         nf_page_url := current_page_url page;
         nf_resource_type := Some (req_resource_type request) |}]) a.

(** An event of the page, with the readings its callback makes. *)
Inductive PageEvent :=
| console_event (page : option string) (timestamp : string) (msg : ConsoleMessage)
| pageerror_event (page : option string) (timestamp : string) (error : string)
| request_event (now : Z) (request : Request)
| response_event (page : option string) (now now_default : Z) (response : Response)
| requestfailed_event (page : option string) (request : Request).

(** The callback that the event triggers. *)
Definition deliver (event : PageEvent) (state : AuditState * gmap string Z)
  : AuditState * gmap string Z :=
  match event with
  | console_event page timestamp msg => (on_console page timestamp msg (fst state), snd state)
  | pageerror_event page timestamp error =>
      (on_pageerror page timestamp error (fst state), snd state)
  | request_event now request => on_request now request state
  | response_event page now now_default response =>
      on_response page now now_default response state
  | requestfailed_event page request => (on_request_failed page request (fst state), snd state)
  end.

(** ** app/core/rate_limit.py: the middleware *)

(** A request, as far as [get_client_ip] reads it: the two headers (the
    lookup of a header ignores the case of its name) and the host of
    [request.client], if there is a client. *)
Record HttpRequest := {
  x_forwarded_for : option string;
  x_real_ip : option string;
  client_host : option string;
}.

(** Truthiness of the result of [headers.get]. *)
Definition header_set (value : option string) : bool :=
  match value with
  | Some text => Py.truthy text
  | None => false
  end.

Definition get_client_ip (request : HttpRequest) : string :=
  let forwarded := x_forwarded_for request in
  if header_set forwarded then Py.strip (UrlParse.before "," (default "" forwarded))
  else
    let real_ip := x_real_ip request in
    if header_set real_ip then default "" real_ip
    else match client_host request with
         | Some host => host
         | None => "unknown"
         end.

(** The [HTTPException] that the middleware raises. *)
Record HTTPException := {
  status_code : Z;
  detail_error : string;
  detail_message : string;
  retry_after_seconds : Z;
}.

(** [rate_limit_middleware]; [None] when it returns, the exception when it
    raises. *)
Definition rate_limit_middleware (request : HttpRequest) (limiter : RateLimiter) (now : Z)
  : option HTTPException * RateLimiter :=
  let ip := get_client_ip request in
  let '(allowed, limiter) := is_allowed limiter ip now in
  if negb allowed then
    (Some {| status_code := 429;
             detail_error := "rate_limit_exceeded";
             detail_message := "Too many requests. Limit: "
                               +:+ pretty (requests_per_minute limiter) +:+ "/minute";
             retry_after_seconds := 60 |},
     limiter)
  else (None, limiter).

(** ** app/core/config.py *)

(** [s.split(",")] *)
Fixpoint split_comma (s : string) : list string :=
  match s with
  | EmptyString => [EmptyString]
  | String c r =>
      if Ascii.eqb c ","
      then EmptyString :: split_comma r
      else match split_comma r with
           | piece :: pieces => String c piece :: pieces
           | [] => [String c EmptyString]
           end
  end.

(** [Settings.cors_origins_list] *)
Definition cors_origins_list (CORS_ORIGINS : string) : list string :=
  map Py.strip
    (List.filter (fun origin => Py.truthy (Py.strip origin)) (split_comma CORS_ORIGINS)).

(** * Properties *)

(** ** Scoring *)

Lemma get_grade_100 : get_grade 100 = "A".
Proof. reflexivity. Qed.

(** C1. For non-negative counters, [calculate_score] is 100 minus the six
    capped penalties, clamped to [0, 100]; equal counter tuples give equal
    score and grade; the all-zero tuple gives score 100 and grade A. *)
Theorem calculate_score_spec (console network ui_err security a11y slow : Z) :
  0 <= console -> 0 <= network -> 0 <= ui_err ->
  0 <= security -> 0 <= a11y -> 0 <= slow ->
  calculate_score console network ui_err security a11y slow
    = spec_overall_score console network ui_err security a11y slow
  /\ 0 <= calculate_score console network ui_err security a11y slow <= 100
  /\ (forall console' network' ui_err' security' a11y' slow',
        (console', network', ui_err', security', a11y', slow')
          = (console, network, ui_err, security, a11y, slow) ->
        calculate_score console' network' ui_err' security' a11y' slow'
          = calculate_score console network ui_err security a11y slow
        /\ get_grade (calculate_score console' network' ui_err' security' a11y' slow')
          = get_grade (calculate_score console network ui_err security a11y slow))
  /\ calculate_score 0 0 0 0 0 0 = 100
  /\ get_grade (calculate_score 0 0 0 0 0 0) = "A".
Proof.
  intros Hc Hn Hu Hs Ha Hp.
  split; [|split; [|split; [|split]]].
  - unfold calculate_score, spec_overall_score, clamp. lia.
  - unfold calculate_score. lia.
  - intros c' n' u' s' a' p' Heq. inversion Heq; subst. split; reflexivity.
  - reflexivity.
  - reflexivity.
Qed.

Lemma calculate_score_spec_witness :
  calculate_score 3 2 0 0 0 0 = 88 /\ get_grade (calculate_score 3 2 0 0 0 0) = "B".
Proof.
  destruct (calculate_score_spec 3 2 0 0 0 0) as [H _]; [lia..|].
  split; [rewrite H; reflexivity|reflexivity].
Defined.

(** ** Report builder *)

Lemma count_ui_errors_from (flows : list UIFlowResult) (acc : Z) :
  fold_left (fun acc f => if is_error_flow f then acc + 1 else acc) flows acc
  = acc + Z.of_nat (length (filter (fun f => flow_status f = flow_error) flows)).
Proof.
  revert acc. induction flows as [|f flows IH]; intros acc; simpl.
  - lia.
  - rewrite IH, filter_cons. unfold is_error_flow.
    destruct (decide (flow_status f = flow_error)) as [->|Hne]; simpl; [lia|].
    destruct (flow_status f); try done; lia.
Qed.

Lemma count_ui_errors_spec (audit : AuditState) :
  count_ui_errors (ui_flows audit) = spec_error_flows audit.
Proof. unfold count_ui_errors, spec_error_flows. rewrite count_ui_errors_from. lia. Qed.

Lemma _count_security_issues_spec (audit : AuditState) :
  _count_security_issues audit = spec_security_issues audit.
Proof.
  unfold _count_security_issues, spec_security_issues, Py.len.
  destruct (security_hygiene audit) as [h|]; [|reflexivity].
  destruct (https_ok h); simpl; lia.
Qed.

(** C6. The six category scores are the stated formulas bounded below by 0,
    the security issue count is 2 * (not https_ok) + |headers_missing| +
    |cookie_issues| (0 without a security-hygiene record), and the overall
    score is computed from that same security aggregate. *)
Theorem category_scores_spec (audit : AuditState) :
  let count {A} (l : list A) := Z.of_nat (length l) in
  _calculate_category_scores audit =
    [ {| category := "Console Errors";
         score := Z.max 0 (20 - 2 * count (console_errors audit));
         max_score := 20; issues_count := count (console_errors audit) |};
      {| category := "Network/API";
         score := Z.max 0 (20 - 3 * count (network_failures audit));
         max_score := 20; issues_count := count (network_failures audit) |};
      {| category := "UI Flows";
         score := Z.max 0 (20 - 4 * spec_error_flows audit);
         max_score := 20; issues_count := spec_error_flows audit |};
      {| category := "Security";
         score := Z.max 0 (20 - 3 * spec_security_issues audit);
         max_score := 20; issues_count := spec_security_issues audit |};
      {| category := "Performance";
         score := Z.max 0 (10 - (count (slow_endpoints audit) + count (large_assets audit)));
         max_score := 10;
         issues_count := count (slow_endpoints audit) + count (large_assets audit) |};
      {| category := "Accessibility";
         score := Z.max 0 (10 - count (accessibility_violations audit));
         max_score := 10; issues_count := count (accessibility_violations audit) |} ]
  /\ Forall (fun c => 0 <= score c <= max_score c) (_calculate_category_scores audit)
  /\ match security_hygiene audit with
     | None => spec_security_issues audit = 0
     | Some _ => True
     end
  /\ report_category_scores (build audit) = _calculate_category_scores audit
  /\ report_score (build audit) =
       calculate_score (count (console_errors audit)) (count (network_failures audit))
         (spec_error_flows audit) (spec_security_issues audit)
         (count (accessibility_violations audit)) (count (slow_endpoints audit)).
Proof.
  intros count.
  assert (Hlist : _calculate_category_scores audit = _calculate_category_scores audit) by reflexivity.
  unfold _calculate_category_scores at 2 in Hlist. simpl in Hlist.
  rewrite count_ui_errors_spec, _count_security_issues_spec in Hlist.
  unfold Py.len in Hlist. subst count. cbv beta.
  split; [|split; [|split; [|split]]].
  - rewrite Hlist, !(Z.mul_comm 2), !(Z.mul_comm 3), !(Z.mul_comm 4). reflexivity.
  - assert (0 <= spec_error_flows audit) by (unfold spec_error_flows; lia).
    assert (0 <= spec_security_issues audit).
    { unfold spec_security_issues. destruct (security_hygiene audit) as [h|]; [|lia].
      destruct (https_ok h); lia. }
    rewrite Hlist. repeat (apply List.Forall_cons; [simpl; lia|]). apply List.Forall_nil.
  - unfold spec_security_issues. destruct (security_hygiene audit); done.
  - reflexivity.
  - unfold build. simpl. rewrite count_ui_errors_spec, _count_security_issues_spec.
    reflexivity.
Qed.

(** ** Security-header probe *)

Lemma headers_loop_from (header_names : list string) (items : list (string * string))
    (present missing : list string) :
  fold_left
    (fun (acc : list string * list string) (item : string * string) =>
       let '(present, missing) := acc in
       let header := fst item in
       let header_lower := Py.lower header in
       let found := existsb (fun h => String.eqb (Py.lower h) header_lower) header_names in
       if found then (present ++ [header], missing)
       else (present, missing ++ [header]))
    items (present, missing)
  = (present ++ filter (header_found header_names) (map fst items),
     missing ++ filter (fun h => ~ header_found header_names h) (map fst items)).
Proof.
  revert present missing.
  induction items as [|[header description] items IH]; intros present missing; simpl.
  - by rewrite !app_nil_r.
  - rewrite !filter_cons.
    destruct (decide (header_found header_names header)) as [Hfound|Hfound].
    + rewrite decide_False by (intros Hn; by apply Hn).
      unfold header_found in Hfound. rewrite Hfound, IH.
      by rewrite <- app_assoc.
    + rewrite decide_True by done.
      unfold header_found in Hfound. apply not_true_is_false in Hfound.
      rewrite Hfound, IH. by rewrite <- app_assoc.
Qed.

Lemma headers_loop_filter (header_names : list string) :
  headers_loop header_names
  = (filter (header_found header_names) (map fst SECURITY_HEADERS),
     filter (fun h => ~ header_found header_names h) (map fst SECURITY_HEADERS)).
Proof. unfold headers_loop. by rewrite headers_loop_from. Qed.

Lemma SECURITY_HEADERS_NoDup : NoDup (map fst SECURITY_HEADERS).
Proof. apply (bool_decide_unpack _). vm_compute. exact I. Qed.

Lemma SECURITY_HEADERS_six : length (map fst SECURITY_HEADERS) = 6%nat.
Proof. reflexivity. Qed.

(** C9. For every URL and every behaviour of the HEAD request, the two lists
    returned partition the six tracked headers; when the request raises, a
    timeout included, [present] is empty and [missing] lists all six. *)
Theorem check_security_headers_partition (head : string -> HeadOutcome) (url : string) :
  let present := fst (check_security_headers head url) in
  let missing := snd (check_security_headers head url) in
  (present ++ missing ≡ₚ map fst SECURITY_HEADERS)
  /\ NoDup (present ++ missing)
  /\ (forall h, (h ∈ map fst SECURITY_HEADERS) ->
        ((h ∈ present) /\ (h ∉ missing)) \/ ((h ∉ present) /\ (h ∈ missing)))
  /\ match head url with
     | HeadResponse _ => True
     | HeadTimeout _ | HeadError _ =>
         present = [] /\ missing = map fst SECURITY_HEADERS
                     /\ length missing = 6%nat
     end.
Proof.
  intros present missing.
  assert (Hperm : present ++ missing ≡ₚ map fst SECURITY_HEADERS).
  { subst present missing. unfold check_security_headers.
    destruct (head url); simpl; try reflexivity.
    rewrite headers_loop_filter. simpl fst. simpl snd. apply filter_app_complement. }
  assert (Hnodup : NoDup (present ++ missing)).
  { rewrite Hperm. apply SECURITY_HEADERS_NoDup. }
  split; [exact Hperm|]. split; [exact Hnodup|]. split.
  - intros h Hh. rewrite <- Hperm in Hh.
    apply NoDup_app in Hnodup as (_ & Hdisj & _).
    apply elem_of_app in Hh as [Hh|Hh].
    + left. split; [done|]. by apply Hdisj.
    + right. split; [|done]. intros Hp. by apply (Hdisj h).
  - subst present missing. unfold check_security_headers.
    destruct (head url); simpl; done.
Qed.

Lemma check_security_headers_partition_witness :
  check_security_headers (fun _ => HeadTimeout "timed out") "https://example.test/"
  = ([], map fst SECURITY_HEADERS).
Proof.
  destruct (check_security_headers_partition (fun _ => HeadTimeout "timed out")
              "https://example.test/") as (_ & _ & _ & Hpresent & Hmissing & _).
  rewrite (surjective_pairing (check_security_headers _ _)).
  by rewrite Hpresent, Hmissing.
Defined.

(** ** Rate limiter *)

Lemma filter_after_cutoff (c cutoff : Z) (l : list Z) :
  cutoff <= c ->
  filter (fun t => c < t) (filter (fun t => cutoff < t) l) = filter (fun t => c < t) l.
Proof. intros Hle. apply list_filter_filter_l. intros x. lia. Qed.

Lemma is_allowed_limit (self : RateLimiter) (ip : string) (now : Z) :
  requests_per_minute (snd (is_allowed self ip now)) = requests_per_minute self.
Proof.
  unfold is_allowed, _cleanup_old_requests. simpl.
  by destruct (_ <=? _).
Qed.

Lemma is_allowed_other (self : RateLimiter) (ip ip' : string) (now : Z) :
  ip' <> ip ->
  requests (snd (is_allowed self ip now)) !!! ip' = requests self !!! ip'.
Proof.
  intros Hne. unfold is_allowed, _cleanup_old_requests. simpl.
  destruct (_ <=? _); simpl; by rewrite ?lookup_total_insert_ne by done.
Qed.

Lemma is_allowed_same (self : RateLimiter) (ip : string) (now : Z) :
  requests (snd (is_allowed self ip now)) !!! ip
  = filter (fun t => now - one_minute < t) (requests self !!! ip)
    ++ (if fst (is_allowed self ip now) then [now] else []).
Proof.
  unfold is_allowed, _cleanup_old_requests. simpl.
  destruct (_ <=? _); simpl; rewrite !lookup_total_insert_eq; by rewrite ?app_nil_r.
Qed.

Lemma is_allowed_verdict (self : RateLimiter) (ip : string) (now : Z) :
  fst (is_allowed self ip now)
  = negb (requests_per_minute self
          <=? Py.len (filter (fun t => now - one_minute < t) (requests self !!! ip))).
Proof.
  unfold is_allowed, _cleanup_old_requests. simpl.
  rewrite lookup_total_insert_eq. by destruct (_ <=? _).
Qed.

(** What the window of [ip] holds after a run of calls, seen through any
    cutoff that is not earlier than the cutoffs of the calls. *)
Lemma serve_window (calls : list (string * Z)) (self : RateLimiter) (ip : string) (c : Z) :
  Forall (fun call => snd call - one_minute <= c) calls ->
  filter (fun t => c < t) (requests (fst (serve self calls)) !!! ip)
  = filter (fun t => c < t) (requests self !!! ip ++ accepted ip calls (snd (serve self calls))).
Proof.
  revert self. induction calls as [|[ip' now] calls IH]; intros self Hall; simpl.
  - by rewrite app_nil_r.
  - apply Forall_cons in Hall as [Hnow Hall]. simpl in Hnow.
    destruct (is_allowed self ip' now) as [verdict self'] eqn:Hcall.
    specialize (IH self' Hall).
    destruct (serve self' calls) as [final verdicts] eqn:Hserve. simpl in *.
    rewrite IH, !filter_app.
    assert (Hself' : self' = snd (is_allowed self ip' now)) by (by rewrite Hcall).
    assert (Hverdict : verdict = fst (is_allowed self ip' now)) by (by rewrite Hcall).
    destruct (String.eqb_spec ip' ip) as [->|Hne]; simpl.
    + rewrite Hself', is_allowed_same, <- Hverdict, filter_app.
      rewrite filter_after_cutoff by lia.
      destruct verdict; simpl; [|by rewrite filter_nil, app_nil_r].
      by rewrite <- app_assoc, <- filter_app.
    + rewrite Hself', is_allowed_other by done. done.
Qed.

Lemma is_allowed_within_limit (self : RateLimiter) (ip : string) (now : Z) :
  within_limit self -> within_limit (snd (is_allowed self ip now)).
Proof.
  intros Hlim ip'. rewrite is_allowed_limit.
  destruct (decide (ip' = ip)) as [->|Hne].
  - rewrite is_allowed_same, is_allowed_verdict.
    pose proof (length_filter (fun t => now - one_minute < t) (requests self !!! ip)) as Hlen.
    specialize (Hlim ip). unfold Py.len in *. rewrite length_app.
    destruct (_ <=? _) eqn:Hcmp; simpl; lia.
  - rewrite is_allowed_other by done. apply Hlim.
Qed.

Lemma serve_within_limit (calls : list (string * Z)) (self : RateLimiter) :
  within_limit self ->
  within_limit (fst (serve self calls))
  /\ requests_per_minute (fst (serve self calls)) = requests_per_minute self.
Proof.
  revert self. induction calls as [|[ip now] calls IH]; intros self Hlim; simpl; [done|].
  destruct (is_allowed self ip now) as [verdict self'] eqn:Hcall.
  assert (Hself' : self' = snd (is_allowed self ip now)) by (by rewrite Hcall).
  destruct (IH self') as [IH1 IH2].
  { rewrite Hself'. by apply is_allowed_within_limit. }
  destruct (serve self' calls) as [final verdicts]. simpl in *.
  split; [done|]. by rewrite IH2, Hself', is_allowed_limit.
Qed.

Lemma serve_window_admitted (calls : list (string * Z)) (self : RateLimiter) (ip : string) (t : Z) :
  t ∈ requests (fst (serve self calls)) !!! ip ->
  t ∈ requests self !!! ip \/ t ∈ accepted ip calls (snd (serve self calls)).
Proof.
  revert self. induction calls as [|[ip' now] calls IH]; intros self; simpl; [by left|].
  destruct (is_allowed self ip' now) as [verdict self'] eqn:Hcall.
  assert (Hself' : self' = snd (is_allowed self ip' now)) by (by rewrite Hcall).
  assert (Hverdict : verdict = fst (is_allowed self ip' now)) by (by rewrite Hcall).
  specialize (IH self').
  destruct (serve self' calls) as [final verdicts]. simpl in *.
  intros Hin. apply IH in Hin as [Hin|Hin].
  - destruct (String.eqb_spec ip' ip) as [->|Hne]; simpl.
    + rewrite Hself', is_allowed_same, <- Hverdict in Hin.
      apply elem_of_app in Hin as [Hin|Hin].
      * left. by apply list_elem_of_filter in Hin as [_ ?].
      * destruct verdict; [|by apply elem_of_nil in Hin].
        right. apply list_elem_of_singleton in Hin as ->. simpl. by left.
    + rewrite Hself', is_allowed_other in Hin by done. by left.
  - right. destruct (String.eqb ip' ip && verdict); [by right|done].
Qed.

(** C7. With limit N, once N requests of an IP have been accepted within the
    minute before a call, that call is refused; and once 60 seconds have
    passed since the earliest admission still in the window, the next request
    of that IP is accepted. *)
Theorem rate_limit_window (N : Z) (calls : list (string * Z)) (ip : string) (t : Z) :
  let limiter := fst (serve (RateLimiter_init N) calls) in
  let verdicts := snd (serve (RateLimiter_init N) calls) in
  (Forall (fun call => snd call <= t) calls ->
   N <= Py.len (filter (fun t0 => t - one_minute < t0) (accepted ip calls verdicts)) ->
   fst (is_allowed limiter ip t) = false)
  /\ (forall t0, t0 ∈ requests limiter !!! ip -> t0 ∈ accepted ip calls verdicts)
  /\ (forall t0,
        t0 ∈ requests limiter !!! ip ->
        (forall t1, t1 ∈ requests limiter !!! ip -> t0 <= t1) ->
        t0 + one_minute <= t ->
        fst (is_allowed limiter ip t) = true).
Proof.
  intros limiter verdicts.
  assert (Hfresh : within_limit (RateLimiter_init N)).
  { intros ip'. simpl. rewrite lookup_total_empty. unfold Py.len. cbn. lia. }
  destruct (serve_within_limit calls _ Hfresh) as [Hlim HN]. fold limiter in Hlim, HN.
  simpl in HN.
  split; [|split].
  - intros Hcalls Hadm. rewrite is_allowed_verdict. subst limiter.
    rewrite serve_window.
    + simpl. rewrite lookup_total_empty. simpl. fold verdicts.
      rewrite HN. apply negb_false_iff, Z.leb_le. exact Hadm.
    + eapply Forall_impl; [exact Hcalls|]. simpl. intros call Hcall. lia.
  - intros t0 Hin. subst limiter verdicts.
    apply serve_window_admitted in Hin as [Hin|Hin]; [|done].
    simpl in Hin. rewrite lookup_total_empty in Hin. by apply elem_of_nil in Hin.
  - intros t0 Hin _ Hold. rewrite is_allowed_verdict, HN.
    apply negb_true_iff, Z.leb_gt.
    pose proof (length_filter_lt (fun t1 => t - one_minute < t1) _ t0 Hin) as Hlt.
    specialize (Hlim ip). rewrite HN in Hlim. unfold Py.len in *.
    assert (Hlt' := Hlt ltac:(lia)). lia.
Qed.

Lemma rate_limit_window_witness :
  fst (is_allowed (fst (serve (RateLimiter_init 2)
                          [("10.0.0.1", 0); ("10.0.0.2", 1000000); ("10.0.0.1", 5000000)]))
                  "10.0.0.1" 59000000) = false
  /\ fst (is_allowed (fst (serve (RateLimiter_init 2)
                             [("10.0.0.1", 0); ("10.0.0.2", 1000000); ("10.0.0.1", 5000000)]))
                     "10.0.0.1" 60000000) = true.
Proof.
  split.
  - apply (rate_limit_window 2 [("10.0.0.1", 0); ("10.0.0.2", 1000000); ("10.0.0.1", 5000000)]
             "10.0.0.1" 59000000).
    + repeat constructor; simpl; lia.
    + vm_compute. discriminate.
  - apply (rate_limit_window 2 [("10.0.0.1", 0); ("10.0.0.2", 1000000); ("10.0.0.1", 5000000)]
             "10.0.0.1" 60000000) with (t0 := 0).
    + assert (Hw : requests (fst (serve (RateLimiter_init 2)
                [("10.0.0.1", 0); ("10.0.0.2", 1000000); ("10.0.0.1", 5000000)])) !!! "10.0.0.1"
               = [0; 5000000]) by (vm_compute; reflexivity).
      rewrite Hw. constructor.
    + intros t1 Ht1.
      assert (Hw : requests (fst (serve (RateLimiter_init 2)
                [("10.0.0.1", 0); ("10.0.0.2", 1000000); ("10.0.0.1", 5000000)])) !!! "10.0.0.1"
               = [0; 5000000]) by (vm_compute; reflexivity).
      rewrite Hw in Ht1. apply list_elem_of_In in Ht1. simpl in Ht1.
      destruct Ht1 as [<-|[<-|[]]]; lia.
    + vm_compute. discriminate.
Defined.

(** C10. A refused call leaves the window of its IP as it was, up to the
    pruning of the entries that are a minute old or older: no time stamp is
    added, the other IPs are untouched, and any later call gets the verdict
    and leaves the limiter that it would have without the refused call. *)
Theorem denied_request_consumes_nothing (self : RateLimiter) (ip : string) (now : Z) :
  fst (is_allowed self ip now) = false ->
  let self' := snd (is_allowed self ip now) in
  requests self'
    = <[ ip := filter (fun t => now - one_minute < t) (requests self !!! ip) ]> (requests self)
  /\ requests_per_minute self' = requests_per_minute self
  /\ (forall t, t ∈ requests self' !!! ip -> t ∈ requests self !!! ip)
  /\ (forall ip', ip' <> ip -> requests self' !!! ip' = requests self !!! ip')
  /\ (forall later, now <= later -> is_allowed self' ip later = is_allowed self ip later).
Proof.
  intros Hdenied self'.
  assert (Hreq : requests self'
    = <[ ip := filter (fun t => now - one_minute < t) (requests self !!! ip) ]> (requests self)).
  { subst self'. revert Hdenied. unfold is_allowed, _cleanup_old_requests. simpl.
    destruct (_ <=? _); simpl; [done|discriminate]. }
  assert (Hlimit : requests_per_minute self' = requests_per_minute self)
    by apply is_allowed_limit.
  split; [exact Hreq|]. split; [exact Hlimit|]. split; [|split].
  - intros t. rewrite Hreq, lookup_total_insert_eq.
    intros Hin. by apply list_elem_of_filter in Hin as [_ ?].
  - intros ip' Hne. by apply is_allowed_other.
  - intros later Hlater. unfold is_allowed, _cleanup_old_requests. simpl.
    rewrite Hlimit, Hreq, !lookup_total_insert_eq, !insert_insert_eq.
    rewrite filter_after_cutoff by lia. reflexivity.
Qed.

Lemma denied_request_consumes_nothing_witness :
  requests (snd (is_allowed {| requests_per_minute := 1;
                               requests := {[ "10.0.0.1" := [0; 30000000] ]} |}
                            "10.0.0.1" 70000000)) !!! "10.0.0.1" = [30000000].
Proof.
  destruct (denied_request_consumes_nothing
              {| requests_per_minute := 1; requests := {[ "10.0.0.1" := [0; 30000000] ]} |}
              "10.0.0.1" 70000000) as [H _].
  - vm_compute. reflexivity.
  - rewrite H. vm_compute. reflexivity.
Defined.

(** ** The runner: rules of the step logic *)

(** Sequencing from the world [w], when the first part steps by [R1], the
    second by [R2], and from the record of [w] a step of [R1] followed by one
    of [R2] is within [R]. *)
Lemma steps_at_bind {A B} (R1 R2 R : relation AuditState) (m : M A) (f : A -> M B)
    (w : World) :
  (forall b, R1 (audit w) b -> R (audit w) b) ->
  (forall b c, R1 (audit w) b -> R2 b c -> R (audit w) c) ->
  steps_at R1 m w ->
  (forall x w1, m w = (Ok x, w1) -> R1 (audit w) (audit w1) -> steps_at R2 (f x) w1) ->
  steps_at R (m ≫= f) w.
Proof.
  intros Hincl Hcomp (H1 & ext1 & Ht1 & Hf1) Hf. unfold steps_at, mbind, M_bind.
  destruct (m w) as [[x|e] w1] eqn:Hmw; simpl in *.
  - destruct (Hf x w1 eq_refl H1) as (H2 & ext2 & Ht2 & Hf2).
    split; [by eapply Hcomp|].
    exists (ext1 ++ ext2). split; [by rewrite Ht2, Ht1, app_assoc|].
    apply Forall_app. split.
    + eapply Forall_impl; [exact Hf1|]. intros s. apply Hincl.
    + eapply Forall_impl; [exact Hf2|]. intros s. by apply Hcomp.
  - split; [by apply Hincl|]. exists ext1. split; [done|].
    eapply Forall_impl; [exact Hf1|]. intros s. apply Hincl.
Qed.

Section steps_rules.
Context (R : relation AuditState) `{!Reflexive R, !Transitive R}.

Lemma steps_here {A} (m : M A) :
  (forall w, audit (snd (m w)) = audit w /\ trace (snd (m w)) = trace w) ->
  steps R m.
Proof.
  intros H w. unfold steps_at. destruct (H w) as [-> ->]. split; [reflexivity|].
  exists []. by rewrite app_nil_r.
Qed.

Lemma steps_ret {A} (x : A) : steps R (mret x).
Proof. by apply steps_here. Qed.

Lemma steps_raise {A} (e : string) : steps R (fun w => (@Raise A e, w)).
Proof. by apply steps_here. Qed.

Lemma steps_read : steps R read.
Proof. by apply steps_here. Qed.

Lemma steps_read_world : steps R read_world.
Proof. by apply steps_here. Qed.

Lemma steps_set_context v : steps R (set_context v).
Proof. by apply steps_here. Qed.

Lemma steps_set_page v : steps R (set_page v).
Proof. by apply steps_here. Qed.

Lemma steps_set_last_preview_capture v : steps R (set_last_preview_capture v).
Proof. by apply steps_here. Qed.

Lemma steps_await {A} (o : Result A) : steps R (await o).
Proof.
  intros w. simpl. split; [reflexivity|].
  exists [audit w]. split; [done|]. by apply Forall_singleton.
Qed.

Lemma steps_mutate (f : AuditState -> AuditState) :
  (forall a, R a (f a)) -> steps R (mutate f).
Proof.
  intros Hf w. simpl. split; [apply Hf|]. exists []. by rewrite app_nil_r.
Qed.

Lemma steps_seq {A B} (m : M A) (w : World) (k : World -> Result B * World) :
  steps R m ->
  (forall w1, R (audit w1) (audit (snd (k w1)))
     /\ exists ext, trace (snd (k w1)) = trace w1 ++ ext /\ Forall (R (audit w1)) ext) ->
  R (audit w) (audit (snd (k (snd (m w)))))
  /\ exists ext, trace (snd (k (snd (m w)))) = trace w ++ ext /\ Forall (R (audit w)) ext.
Proof.
  unfold steps, steps_at. intros Hm Hk. destruct (Hm w) as (H1 & ext1 & Ht1 & Hf1).
  destruct (Hk (snd (m w))) as (H2 & ext2 & Ht2 & Hf2).
  split; [by etrans|].
  exists (ext1 ++ ext2). split; [by rewrite Ht2, Ht1, app_assoc|].
  apply Forall_app. split; [done|].
  eapply Forall_impl; [exact Hf2|]. intros s Hs. by etrans.
Qed.

Lemma steps_bind {A B} (m : M A) (f : A -> M B) :
  steps R m -> (forall x, steps R (f x)) -> steps R (m ≫= f).
Proof.
  intros Hm Hf w. unfold steps_at, mbind, M_bind.
  destruct (m w) as [[x|e] w1] eqn:Hmw.
  - replace w1 with (snd (m w)) by (by rewrite Hmw).
    apply (steps_seq m w (f x)); [done|]. apply Hf.
  - replace w1 with (snd (m w)) by (by rewrite Hmw). apply Hm.
Qed.

Lemma steps_try {A} (body : M A) (handler : string -> M A) :
  steps R body -> (forall e, steps R (handler e)) -> steps R (try_except body handler).
Proof.
  intros Hm Hf w. unfold steps_at, try_except.
  destruct (body w) as [[x|e] w1] eqn:Hmw.
  - replace w1 with (snd (body w)) by (by rewrite Hmw). apply Hm.
  - replace w1 with (snd (body w)) by (by rewrite Hmw).
    apply (steps_seq body w (handler e)); [done|]. apply Hf.
Qed.

Lemma steps_finally {A} (body : M A) (cleanup : M unit) :
  steps R body -> steps R cleanup -> steps R (try_finally body cleanup).
Proof.
  intros Hm Hc w. unfold steps_at, try_finally.
  destruct (body w) as [r w1] eqn:Hmw.
  replace w1 with (snd (body w)) by (by rewrite Hmw).
  pose proof (steps_seq body w cleanup Hm Hc) as H.
  by destruct (cleanup (snd (body w))) as [[[]|e] w2].
Qed.

End steps_rules.

Lemma steps_weaken {A} (R R' : relation AuditState) (m : M A) :
  (forall a b, R a b -> R' a b) -> steps R m -> steps R' m.
Proof.
  intros Hsub Hm w. destruct (Hm w) as (H & ext & Ht & Hf).
  split; [by apply Hsub|]. exists ext. split; [done|].
  eapply Forall_impl; [exact Hf|]. intros s. apply Hsub.
Qed.

Lemma safe_ret {A} (x : A) : safe (mret x : M A).
Proof. intros w. by exists x. Qed.

Lemma safe_bind {A B} (m : M A) (f : A -> M B) :
  safe m -> (forall x, safe (f x)) -> safe (m ≫= f).
Proof.
  intros Hm Hf w. unfold mbind, M_bind.
  destruct (Hm w) as [x Hx]. destruct (m w) as [[y|e] w1]; simpl in Hx; [|done].
  apply Hf.
Qed.

Lemma safe_try {A} (body : M A) (handler : string -> M A) :
  (forall e, safe (handler e)) -> safe (try_except body handler).
Proof.
  intros Hf w. unfold try_except.
  destruct (body w) as [[y|e] w1]; [by exists y|]. apply Hf.
Qed.

Lemma safe_mutate f : safe (mutate f).
Proof. intros w. by exists tt. Qed.

Lemma safe_read : safe read.
Proof. intros w. by exists (audit w). Qed.

Lemma safe_read_world : safe read_world.
Proof. intros w. by exists w. Qed.

Lemma safe_await_ok {A} (x : A) : safe (await (Ok x)).
Proof. intros w. by exists x. Qed.

Lemma safe_set_context v : safe (set_context v).
Proof. intros w. by exists tt. Qed.

Lemma safe_set_page v : safe (set_page v).
Proof. intros w. by exists tt. Qed.

(** One step of a proof that a computation [steps] or is [safe]. *)
Ltac steps_step :=
  lazymatch goal with
  | |- steps ?R (mret _) => apply (steps_ret R)
  | |- steps ?R (_ ≫= _) => apply (steps_bind R); [|intros ?]
  | |- steps ?R (try_except _ _) => apply (steps_try R); [|intros ?]
  | |- steps ?R (await _) => apply (steps_await R)
  | |- steps ?R sleep => apply (steps_await R)
  | |- steps ?R read => apply (steps_read R)
  | |- steps ?R read_world => apply (steps_read_world R)
  | |- steps ?R (set_context _) => apply (steps_set_context R)
  | |- steps ?R (set_page _) => apply (steps_set_page R)
  | |- steps ?R (set_last_preview_capture _) => apply (steps_set_last_preview_capture R)
  | |- steps _ (let '(_, _) := ?x in _) => destruct x
  | |- steps _ (if ?b then _ else _) => destruct b
  | |- steps _ (match ?x with _ => _ end) => destruct x
  end.

Ltac safe_step :=
  lazymatch goal with
  | |- safe (mret _) => apply safe_ret
  | |- safe (_ ≫= _) => apply safe_bind; [|intros ?]
  | |- safe (try_except _ _) => apply safe_try; intros ?
  | |- safe (await (Ok _)) => apply safe_await_ok
  | |- safe sleep => apply safe_await_ok
  | |- safe read => apply safe_read
  | |- safe read_world => apply safe_read_world
  | |- safe (mutate _) => apply safe_mutate
  | |- safe (set_context _) => apply safe_set_context
  | |- safe (set_page _) => apply safe_set_page
  | |- safe (let '(_, _) := ?x in _) => destruct x
  | |- safe (if ?b then _ else _) => destruct b
  | |- safe (match ?x with _ => _ end) => destruct x
  end.

#[export] Instance frame_refl self : Reflexive (frame self).
Proof. intros a. unfold frame. split_and!; try done; intros u Hu; by left. Qed.

#[export] Instance frame_trans self : Transitive (frame self).
Proof.
  intros a b c (U1 & O1 & S1 & F1 & E1 & V1 & D1 & VF1 & DF1)
               (U2 & O2 & S2 & F2 & E2 & V2 & D2 & VF2 & DF2).
  unfold frame. split_and!; try congruence; try (by etrans).
  - intros u Hu. destruct (VF2 u Hu) as [H|[H|H]].
    + destruct (VF1 u H) as [H'|[H'|H']]; [by left|by right; left|].
      right; right. by apply D2.
    + right; left. congruence.
    + by right; right.
  - intros u Hu. destruct (DF2 u Hu) as [H|H]; [|by right]. by apply DF1.
Qed.

#[export] Instance still_refl self : Reflexive (still self).
Proof. intros a. split; reflexivity. Qed.

#[export] Instance still_trans self : Transitive (still self).
Proof. intros a b c [F1 V1] [F2 V2]. split; [by etrans|congruence]. Qed.

#[export] Instance grown_refl self pages : Reflexive (grown self pages).
Proof. intros a. split; [reflexivity|set_solver]. Qed.

Lemma still_grown self pages a b : still self a b -> grown self pages a b.
Proof. intros [F V]. split; [done|]. rewrite V. set_solver. Qed.

Lemma grown_mono self pages pages' a b :
  pages ⊆ pages' -> grown self pages a b -> grown self pages' a b.
Proof. intros Hle [F V]. split; [done|]. set_solver. Qed.

Lemma grown_comp self pages pages' a b c :
  grown self pages a b -> grown self pages' b c -> grown self (pages ++ pages') a c.
Proof.
  intros [F1 V1] [F2 V2]. split; [by etrans|].
  rewrite list_to_set_app_L. set_solver.
Qed.

Lemma still_grown_comp self pages a b c :
  still self a b -> grown self pages b c -> grown self pages a c.
Proof. intros [F1 V1] [F2 V2]. split; [by etrans|]. by rewrite <- V1. Qed.

Lemma grown_still_comp self pages a b c :
  grown self pages a b -> still self b c -> grown self pages a c.
Proof. intros [F1 V1] [F2 V2]. split; [by etrans|]. by rewrite V2. Qed.

Lemma size_list_to_set_le (pages : list string) :
  (size (list_to_set pages : gset string) <= length pages)%nat.
Proof.
  induction pages as [|u pages IH].
  - by rewrite list_to_set_nil, size_empty.
  - rewrite list_to_set_cons, size_union_alt, size_singleton. simpl length.
    assert (size (list_to_set pages ∖ {[u]} : gset string)
            <= size (list_to_set pages : gset string))%nat
      by (apply subseteq_size; set_solver).
    lia.
Qed.

Lemma grown_size self pages a b :
  grown self pages a b ->
  (size (visited_urls b) <= size (visited_urls a) + length pages)%nat.
Proof.
  intros [_ V]. etrans; [apply (subseteq_size _ _ V)|].
  rewrite size_union_alt.
  assert (size (list_to_set pages ∖ visited_urls a : gset string)
          <= size (list_to_set pages : gset string))%nat
    by (apply subseteq_size; set_solver).
  pose proof (size_list_to_set_le pages). lia.
Qed.

Lemma still_frame self a b : still self a b -> frame self a b.
Proof. by intros [F _]. Qed.

(** An assignment that touches none of the fields that [frame] reads. *)
Ltac still_field :=
  intros; unfold still, frame; simpl;
  split_and!; try done; intros ? ?; by left.

Lemma still_set_progress self v a : still self a (set_progress v a).
Proof. still_field. Qed.
Lemma still_set_page_timings self v a : still self a (set_page_timings v a).
Proof. still_field. Qed.
Lemma still_set_ui_flows self v a : still self a (set_ui_flows v a).
Proof. still_field. Qed.
Lemma still_set_screenshots self v a : still self a (set_screenshots v a).
Proof. still_field. Qed.
Lemma still_set_security_hygiene self v a : still self a (set_security_hygiene v a).
Proof. still_field. Qed.
Lemma still_set_accessibility_violations self v a :
  still self a (set_accessibility_violations v a).
Proof. still_field. Qed.
Lemma still_set_preview_image_path self v a : still self a (set_preview_image_path v a).
Proof. still_field. Qed.
Lemma still_set_preview_updated_at self v a : still self a (set_preview_updated_at v a).
Proof. still_field. Qed.

Lemma still_discover self parsed link a :
  UrlParse.urlparse link = Some parsed ->
  same_domain self parsed = true ->
  still self a (set_discovered_urls ({[ clean_url parsed ]} ∪ discovered_urls a) a).
Proof.
  intros Hparse Hsame. unfold still, frame; simpl.
  split_and!; try done.
  - set_solver.
  - intros u Hu. by left.
  - intros u Hu. apply elem_of_union in Hu as [Hu|Hu]; [|by left].
    right. apply elem_of_singleton in Hu as ->. by exists link, parsed.
Qed.

Create HintDb still_db.
#[export] Hint Resolve still_set_progress still_set_page_timings still_set_ui_flows
  still_set_screenshots still_set_security_hygiene still_set_accessibility_violations
  still_set_preview_image_path still_set_preview_updated_at : still_db.

Ltac steps_mutate_still :=
  lazymatch goal with
  | |- steps ?R (mutate _) => apply (steps_mutate R); intros ?; eauto with still_db
  end.

Ltac steps_auto := repeat first [ steps_step | steps_mutate_still ].

Ltac safe_auto := repeat safe_step.

Section leaves.
Context (self : AuditRunner).

Lemma report_progress_steps stage percent current_url message :
  steps (still self) (report_progress stage percent current_url message).
Proof. unfold report_progress. steps_auto. Qed.

Lemma _capture_live_preview_steps pv :
  steps (still self) (_capture_live_preview self pv).
Proof. unfold _capture_live_preview. steps_auto. Qed.

Lemma discover_loop_steps links : steps (still self) (discover_loop self links).
Proof.
  induction links as [|link links IH]; simpl; [steps_auto|].
  destruct (UrlParse.urlparse link) as [parsed|] eqn:Hparse;
    [|by apply (steps_raise (still self))].
  apply (steps_bind (still self)); [|intros ?; exact IH].
  destruct (same_domain self parsed) eqn:Hsame; [|steps_auto].
  apply (steps_bind (still self)); [steps_auto|intros a].
  destruct (_ && _); [|steps_auto].
  apply (steps_mutate (still self)). intros a'. by eapply still_discover.
Qed.

Lemma _discover_links_steps evaluated :
  steps (still self) (_discover_links self evaluated).
Proof.
  unfold _discover_links. apply (steps_try (still self)); [|intros ?; steps_auto].
  apply (steps_bind (still self)); [steps_auto|intros links]. apply discover_loop_steps.
Qed.

Lemma _take_screenshot_steps pe url : steps (still self) (_take_screenshot pe url).
Proof. unfold _take_screenshot. steps_auto. Qed.

Lemma _probe_safe_interactions_steps pe :
  steps (still self) (_probe_safe_interactions pe).
Proof. unfold _probe_safe_interactions. steps_auto. Qed.

Lemma _audit_page_steps pe url : steps (still self) (_audit_page self pe url).
Proof.
  unfold _audit_page.
  repeat first
    [ apply _take_screenshot_steps
    | apply _probe_safe_interactions_steps
    | apply _discover_links_steps
    | apply _capture_live_preview_steps
    | steps_step
    | steps_mutate_still ].
Qed.

Lemma _check_security_hygiene_steps env :
  steps (still self) (_check_security_hygiene env self).
Proof.
  unfold _check_security_hygiene.
  repeat first
    [ apply report_progress_steps
    | steps_step
    | steps_mutate_still ].
Qed.

Lemma _run_accessibility_checks_steps env :
  steps (still self) (_run_accessibility_checks env self).
Proof.
  unfold _run_accessibility_checks.
  repeat first
    [ apply report_progress_steps
    | steps_step
    | steps_mutate_still ].
Qed.

Lemma discover_loop_trace links w :
  trace (snd (discover_loop self links w)) = trace w.
Proof.
  revert w. induction links as [|link links IH]; intros w; simpl; [done|].
  destruct (UrlParse.urlparse link) as [parsed|]; [|done].
  unfold mbind, M_bind.
  destruct (same_domain self parsed); simpl; [|apply IH].
  destruct (_ && _); simpl; by rewrite IH.
Qed.

Lemma _audit_page_safe pe url : safe (_audit_page self pe url).
Proof. unfold _audit_page. safe_auto. Qed.

Lemma _discover_links_safe evaluated : safe (_discover_links self evaluated).
Proof. unfold _discover_links. safe_auto. Qed.

Lemma report_progress_safe stage percent current_url message :
  safe (report_progress stage percent current_url message).
Proof. unfold report_progress. safe_auto. Qed.

Lemma _check_initial_availability_safe env :
  safe (_check_initial_availability env self).
Proof.
  unfold _check_initial_availability.
  repeat first [ apply report_progress_safe | safe_step ].
Qed.

Lemma crawl_loop_safe env total pages i : safe (crawl_loop env self total i pages).
Proof.
  revert i. induction pages as [|url rest IH]; intros i; simpl; [safe_auto|].
  repeat first
    [ apply report_progress_safe | apply _audit_page_safe | apply IH | safe_step ].
Qed.

Lemma _crawl_and_audit_safe env : safe (_crawl_and_audit env self).
Proof.
  unfold _crawl_and_audit.
  repeat first
    [ apply report_progress_safe | apply _discover_links_safe
    | apply crawl_loop_safe | safe_step ].
Qed.

Lemma _check_security_hygiene_safe env : safe (_check_security_hygiene env self).
Proof.
  unfold _check_security_hygiene.
  repeat first [ apply report_progress_safe | safe_step ].
Qed.

Lemma _run_accessibility_checks_safe env : safe (_run_accessibility_checks env self).
Proof.
  unfold _run_accessibility_checks.
  repeat first [ apply report_progress_safe | safe_step ].
Qed.

Lemma audit_phases_safe env : safe (audit_phases env self).
Proof.
  unfold audit_phases.
  repeat first
    [ apply _check_initial_availability_safe | apply _crawl_and_audit_safe
    | apply _check_security_hygiene_safe | apply _run_accessibility_checks_safe
    | safe_step ].
Qed.

End leaves.

#[export] Instance arrived_refl self : Reflexive (arrived self).
Proof. intros a. split; [reflexivity|set_solver]. Qed.

#[export] Instance arrived_trans self : Transitive (arrived self).
Proof.
  intros a b c [F1 V1] [F2 V2]. split; [by etrans|].
  destruct F1 as (U1 & _). rewrite U1 in V2. set_solver.
Qed.

Lemma still_arrived self a b : still self a b -> arrived self a b.
Proof. intros [F V]. split; [done|]. rewrite V. set_solver. Qed.

Lemma arrived_visit self a :
  arrived self a (set_visited_urls ({[ url a ]} ∪ visited_urls a) a).
Proof.
  unfold arrived, frame; simpl. split_and!; try done.
  - set_solver.
  - intros u Hu. apply elem_of_union in Hu as [Hu|Hu]; [|by left].
    right; left. by apply elem_of_singleton in Hu.
  - intros u Hu. by left.
  - set_solver.
Qed.

Lemma arrived_grown self a b : arrived self a b -> grown self [url a] a b.
Proof. intros [F V]. split; [done|]. simpl. set_solver. Qed.

(** ** What the crawl selects *)

Lemma slice_to_elem_of {A} (k : Z) (l : list A) (x : A) :
  x ∈ Py.slice_to k l -> x ∈ l.
Proof.
  unfold Py.slice_to. destruct (0 <=? k); intros Hx; by eapply subseteq_take.
Qed.

Lemma slice_to_length {A} (k : Z) (l : list A) :
  0 <= k -> (length (Py.slice_to k l) <= Z.to_nat k)%nat.
Proof.
  intros Hk. unfold Py.slice_to. rewrite (proj2 (Z.leb_le 0 k) Hk).
  rewrite length_take. lia.
Qed.

Lemma slice_to_NoDup {A} (k : Z) (l : list A) : NoDup l -> NoDup (Py.slice_to k l).
Proof.
  intros Hl. unfold Py.slice_to.
  destruct (0 <=? k); (eapply sublist_NoDup; [exact Hl|apply sublist_take]).
Qed.

Lemma pages_to_visit_spec (a : AuditState) :
  (forall u, u ∈ pages_to_visit a -> u ∈ discovered_urls a /\ u ∉ visited_urls a)
  /\ NoDup (pages_to_visit a)
  /\ (1 <= max_pages (options a) ->
      Z.of_nat (length (pages_to_visit a)) <= max_pages (options a) - 1)
  /\ (max_pages (options a) = 1 -> pages_to_visit a = []).
Proof.
  unfold pages_to_visit. split_and!.
  - intros u Hu. apply slice_to_elem_of, elem_of_elements in Hu. set_solver.
  - apply slice_to_NoDup, NoDup_elements.
  - intros Hmp.
    pose proof (slice_to_length (max_pages (options a) - 1)
                  (elements (discovered_urls a ∖ visited_urls a))) as H.
    lia.
  - intros ->. reflexivity.
Qed.

Section phases.
Context (self : AuditRunner).

Ltac steps_arrived :=
  repeat first
    [ apply (steps_weaken (still self) (arrived self));
        [ apply still_arrived
        | first [ apply report_progress_steps | apply _capture_live_preview_steps ] ]
    | steps_step
    | lazymatch goal with
      | |- steps ?R (mutate _) =>
          apply (steps_mutate R); intros ?;
          first [ apply arrived_visit | apply still_arrived; eauto with still_db ]
      end ].

Lemma _check_initial_availability_steps env :
  steps (arrived self) (_check_initial_availability env self).
Proof. unfold _check_initial_availability. steps_arrived. Qed.

Lemma mutate_inv f w x w1 :
  mutate f w = (Ok x, w1) -> audit w1 = f (audit w).
Proof. unfold mutate. intros [= _ <-]. done. Qed.

Lemma frame_discovered a b u :
  frame self a b -> u ∈ discovered_urls a -> u ∈ discovered_urls b.
Proof. intros (_ & _ & _ & _ & _ & _ & D & _) Hu. by apply D. Qed.

Lemma grown_visit a (u : string) :
  u ∈ discovered_urls a ->
  grown self [u] a (set_visited_urls ({[ u ]} ∪ visited_urls a) a).
Proof.
  intros Hu. unfold grown, frame; simpl. split_and!; try done.
  - set_solver.
  - intros v Hv. apply elem_of_union in Hv as [Hv|Hv]; [|by left].
    right; right. by apply elem_of_singleton in Hv as ->.
  - intros v Hv. by left.
  - set_solver.
Qed.

Lemma crawl_loop_steps env total pages :
  forall i w,
    (forall u, u ∈ pages -> u ∈ discovered_urls (audit w)) ->
    steps_at (grown self pages) (crawl_loop env self total i pages) w.
Proof.
  induction pages as [|url rest IH]; intros i w Hpages; simpl.
  - by apply (steps_ret (grown self [])).
  - apply (steps_at_bind (still self) (grown self (url :: rest)));
      [intros b; apply still_grown | intros b c; apply still_grown_comp
      | apply report_progress_steps | ].
    intros [] w1 _ Hst1.
    apply (steps_at_bind (still self) (grown self (url :: rest)));
      [intros b; apply still_grown | intros b c; apply still_grown_comp
      | apply _audit_page_steps | ].
    intros [] w2 _ Hst2.
    assert (Hdisc2 : forall u, u ∈ url :: rest -> u ∈ discovered_urls (audit w2)).
    { intros u Hu. eapply frame_discovered; [apply still_frame, Hst2|].
      eapply frame_discovered; [apply still_frame, Hst1|]. by apply Hpages. }
    apply (steps_at_bind (grown self [url]) (grown self rest)).
    + intros b. apply grown_mono. set_solver.
    + intros b c Hb Hc. by apply (grown_comp self [url] rest _ b).
    + split; [|exists []; by rewrite app_nil_r].
      simpl. apply grown_visit, Hdisc2. by left.
    + intros [] w3 Hw3 Hst3.
      apply (steps_at_bind (still self) (grown self rest));
        [intros b; apply still_grown | intros b c; apply still_grown_comp
        | apply (steps_await (still self)) | ].
      intros [] w4 _ Hst4. apply IH.
      intros u Hu. eapply frame_discovered; [apply still_frame, Hst4|].
      eapply frame_discovered; [apply Hst3|]. apply Hdisc2. by right.
Qed.

Lemma frame_options a b : frame self a b -> options b = options a.
Proof. by intros (_ & O & _). Qed.

Lemma _crawl_and_audit_steps env w :
  exists pages,
    within_budget (audit w) pages
    /\ steps_at (grown self pages) (_crawl_and_audit env self) w.
Proof.
  set (w1 := snd (report_progress "crawling" 20 None (Some "Discovering pages...") w)).
  set (w2 := snd (_discover_links self (initial_links env) w1)).
  exists (pages_to_visit (audit w2)).
  destruct (report_progress_steps self "crawling" 20 None (Some "Discovering pages...") w)
    as [Hst1 _]. fold w1 in Hst1.
  destruct (_discover_links_steps self (initial_links env) w1) as [Hst2 _]. fold w2 in Hst2.
  split.
  - unfold within_budget.
    rewrite <- (frame_options _ _ (still_frame _ _ _ Hst1)).
    rewrite <- (frame_options _ _ (still_frame _ _ _ Hst2)).
    apply pages_to_visit_spec.
  - unfold _crawl_and_audit.
    apply (steps_at_bind (still self) (grown self (pages_to_visit (audit w2))));
      [intros b; apply still_grown | intros b c; apply still_grown_comp
      | apply report_progress_steps | ].
    intros [] w1' Hw1 _.
    assert (w1' = w1) as -> by (subst w1; by rewrite Hw1).
    apply (steps_at_bind (still self) (grown self (pages_to_visit (audit w2))));
      [intros b; apply still_grown | intros b c; apply still_grown_comp
      | apply _discover_links_steps | ].
    intros [] w2' Hw2 _.
    assert (w2' = w2) as -> by (subst w2; by rewrite Hw2).
    apply (steps_at_bind (still self) (grown self (pages_to_visit (audit w2))));
      [intros b; apply still_grown | intros b c; apply still_grown_comp
      | apply (steps_read (still self)) | ].
    intros a w3 [= <- <-] _.
    apply crawl_loop_steps. intros u Hu. by apply pages_to_visit_spec in Hu as [? _].
Qed.

Lemma audit_phases_steps env w :
  exists pages,
    within_budget (audit w) pages
    /\ steps_at (grown self (url (audit w) :: pages)) (audit_phases env self) w.
Proof.
  set (w1 := snd (_check_initial_availability env self w)).
  destruct (_check_initial_availability_steps env w) as [Hst1 _]. fold w1 in Hst1.
  destruct (_crawl_and_audit_steps env w1) as (pages & Hbudget & Hcrawl).
  exists pages. split.
  - unfold within_budget in *. destruct Hst1 as [Hframe _].
    by rewrite <- (frame_options _ _ Hframe).
  - unfold audit_phases.
    apply (steps_at_bind (arrived self) (grown self pages)).
    + intros b Hb. eapply grown_mono; [|by apply arrived_grown]. set_solver.
    + intros b c Hb Hc. apply (grown_comp self [url (audit w)] pages _ b); [|done].
      by apply arrived_grown.
    + apply _check_initial_availability_steps.
    + intros [] w1' Hw1 _.
      assert (w1' = w1) as -> by (subst w1; by rewrite Hw1).
      apply (steps_at_bind (grown self pages) (still self));
        [done | intros b c; apply grown_still_comp | exact Hcrawl | ].
      intros [] w2 _ _.
      apply (steps_bind (still self));
        [apply _check_security_hygiene_steps
        |intros ?; apply _run_accessibility_checks_steps].
Qed.

End phases.

(** ** URLs: no query and no fragment after normalisation *)

Import UrlParse.










(** ** The run as a whole *)

Lemma try_finally_snd {A} (body : M A) (cleanup : M unit) (w : World) :
  snd (try_finally body cleanup w) = snd (cleanup (snd (body w))).
Proof.
  unfold try_finally. destruct (body w) as [r w1]. simpl.
  by destruct (cleanup w1) as [[[]|e] w2].
Qed.

Section run_outcome.
Context (env : Env) (self : AuditRunner) (a0 : AuditState).

(** Every state seen at a suspension is either one the phases can reach
    from the started record, or the final record (seen during the
    cleanup); the final record is the completed one when the context and
    the page could be created, and the failed one otherwise. *)
Lemma run_outcome :
  exists pages ext tail,
    within_budget a0 pages
    /\ trace (snd (run env self (start a0))) = ext ++ tail
    /\ Forall (grown self (url a0 :: pages) (started a0)) ext
    /\ Forall (fun s => s = final env self a0) tail
    /\ match create_authenticated_context env, new_page env with
       | Ok _, Ok _ =>
           exists a, grown self (url a0 :: pages) (started a0) a
                     /\ final env self a0 = completed env a
       | Raise e, _ => final env self a0 = failed e (started a0)
       | Ok _, Raise e => final env self a0 = failed e (started a0)
       end.
Proof.
  unfold final, run. rewrite !try_finally_snd.
  match goal with
  | |- context [snd (?cleanup (snd (?body (start a0))))] =>
      set (wb := snd (body (start a0)));
      assert (Hclean : steps eq cleanup) by steps_auto;
      destruct (Hclean wb) as (Haudit & tail & Htail & Hsame)
  end.
  rewrite <- Haudit, Htail.
  assert (Hbody : exists pages,
    within_budget a0 pages
    /\ Forall (grown self (url a0 :: pages) (started a0)) (trace wb)
    /\ match create_authenticated_context env, new_page env with
       | Ok _, Ok _ =>
           exists a, grown self (url a0 :: pages) (started a0) a
                     /\ audit wb = completed env a
       | Raise e, _ => audit wb = failed e (started a0)
       | Ok _, Raise e => audit wb = failed e (started a0)
       end).
  { subst wb.
    unfold try_except, mbind, M_bind, report_progress, mutate, await,
      set_context, set_page, _setup_event_listeners, read, read_world, mret, M_ret.
    destruct (create_authenticated_context env) as [[]|e] eqn:Hctx.
    2:{ cbn. exists []. split_and!; try done.
        - intros ?. simpl. lia.
        - apply Forall_singleton. reflexivity. }
    destruct (new_page env) as [[]|e] eqn:Hpage.
    2:{ cbn. exists []. split_and!; try done.
        - intros ?. simpl. lia.
        - repeat (apply List.Forall_cons; [reflexivity|]). apply List.Forall_nil. }
    cbn -[audit_phases set_status set_progress set_finished_at set_error_message
          new_progress].
    fold (started a0).
    match goal with
    | |- context [audit_phases env self ?w] => set (w3 := w)
    end.
    destruct (audit_phases_steps self env w3)
      as (pages & Hbudget & Hgrown & ext & Htrace & Hext).
    destruct (audit_phases_safe self env w3) as [[] Hsafe].
    destruct (audit_phases env self w3) as [r w4]. simpl in Hsafe, Hgrown, Htrace. subst r.
    cbn -[set_status set_progress set_finished_at set_error_message new_progress].
    fold (completed env (audit w4)).
    exists pages. split_and!.
    - exact Hbudget.
    - rewrite Htrace.
      repeat (apply List.Forall_cons; [reflexivity|]). exact Hext.
    - by exists (audit w4). }
  destruct Hbody as (pages & Hbudget & Hext & Hfinal).
  exists pages, (trace wb), tail. split_and!; try done.
  eapply Forall_impl; [exact Hsame|]. by intros s ->.
Qed.

End run_outcome.

Lemma moments_inv (env : Env) (self : AuditRunner) (a0 : AuditState) :
  exists pages,
    within_budget a0 pages
    /\ Forall (moment_of env self a0 pages) (moments env self a0).
Proof.
  destruct (run_outcome env self a0) as (pages & ext & tail & Hb & Ht & Hext & Htail & Hfin).
  assert (Hfinal : moment_of env self a0 pages (final env self a0)).
  { destruct (create_authenticated_context env) as [[]|e].
    - destruct (new_page env) as [[]|e].
      + destruct Hfin as (a & Ha & ->). right; right; left. by exists a.
      + rewrite Hfin. right; right; right. by exists e.
    - rewrite Hfin. right; right; right. by exists e. }
  exists pages. split; [done|]. unfold moments. fold (final env self a0). rewrite Ht.
  apply List.Forall_cons; [by left|].
  rewrite !Forall_app. split_and!.
  - eapply Forall_impl; [exact Hext|]. intros s Hs. right; by left.
  - eapply Forall_impl; [exact Htail|]. by intros s ->.
  - by apply Forall_singleton.
Qed.

(** ** The per-page verdict *)

#[export] Instance same_flows_refl : Reflexive same_flows.
Proof. by intros a. Qed.

#[export] Instance same_flows_trans : Transitive same_flows.
Proof. unfold same_flows. intros a b c H1 H2. congruence. Qed.

Section flows.
Context (self : AuditRunner).

Ltac steps_flows :=
  repeat first
    [ steps_step
    | lazymatch goal with
      | |- steps ?R (mutate _) => apply (steps_mutate R); intros ?; reflexivity
      end ].

Lemma discover_loop_flows links : steps same_flows (discover_loop self links).
Proof.
  induction links as [|link links IH]; simpl; [steps_flows|].
  destruct (UrlParse.urlparse link) as [parsed|]; [|by apply (steps_raise same_flows)].
  apply (steps_bind same_flows); [|intros ?; exact IH]. steps_flows.
Qed.

Lemma page_tail_flows evaluated pv :
  steps same_flows
    (_discover_links self evaluated ≫= fun _ => _capture_live_preview self pv).
Proof.
  unfold _discover_links, _capture_live_preview.
  repeat first [ apply discover_loop_flows | steps_flows ].
Qed.

Lemma _capture_live_preview_safe pv : safe (_capture_live_preview self pv).
Proof. unfold _capture_live_preview. safe_auto. Qed.

Lemma page_tail_effect evaluated pv w :
  exists w',
    (_discover_links self evaluated ≫= fun _ => _capture_live_preview self pv) w
      = (Ok tt, w')
    /\ ui_flows (audit w') = ui_flows (audit w).
Proof.
  destruct (page_tail_flows evaluated pv w) as [Hflows _].
  assert (Hsafe : safe (_discover_links self evaluated
                          ≫= fun _ => _capture_live_preview self pv)).
  { apply safe_bind; [apply _discover_links_safe|intros ?; apply _capture_live_preview_safe]. }
  destruct (Hsafe w) as [[] Hok].
  destruct ((_discover_links self evaluated ≫= _) w) as [r w'].
  simpl in *. subst r. by exists w'.
Qed.

(** What [_audit_page] appends when the navigation and the reading of the
    content both succeed. *)
Lemma _audit_page_flow pe url w response load_time html :
  goto pe = Ok (response, load_time) ->
  content pe = Ok html ->
  exists shot,
    ui_flows (audit (snd (_audit_page self pe url w)))
    = ui_flows (audit w)
      ++ [{| page_url := url;
             flow_status := fst (page_verdict html response);
             notes := snd (page_verdict html response);
             screenshot_path := shot;
             load_time_ms := Some load_time |}].
Proof.
  intros Hgoto Hcontent. unfold _audit_page.
  unfold try_except at 1.
  unfold mbind at 1, M_bind at 1, await at 1. rewrite Hgoto.
  cbn -[_discover_links _capture_live_preview page_verdict _take_screenshot mbind].
  unfold mbind at 1, M_bind at 1, sleep, await at 1.
  unfold mbind at 1, M_bind at 1, read at 1.
  cbn -[_discover_links _capture_live_preview page_verdict _take_screenshot mbind].
  unfold mbind at 1, M_bind at 1, mret at 1, M_ret at 1.
  unfold mbind at 1, M_bind at 1, mutate at 1.
  unfold mbind at 1, M_bind at 1, await at 1. rewrite Hcontent.
  cbn -[_discover_links _capture_live_preview page_verdict _take_screenshot mbind].
  destruct (page_verdict html response) as [status notes] eqn:Hverdict.
  unfold mbind at 1, M_bind at 1, read at 1.
  cbn -[_discover_links _capture_live_preview page_verdict _take_screenshot mbind].
  unfold mbind at 1, M_bind at 1.
  match goal with
  | |- context [(if ?c then _take_screenshot pe url else mret None) ?w0] =>
      assert (Hshot : exists shot w1,
                (if c then _take_screenshot pe url else mret None) w0 = (Ok shot, w1)
                /\ ui_flows (audit w1) = ui_flows (audit w));
      [|destruct Hshot as (shot & w1 & -> & Hw1)]
  end.
  { destruct (_ && _).
    - unfold _take_screenshot, try_except, mbind, M_bind, read, await, mutate, mret, M_ret.
      destruct (screenshot pe) as [[]|e]; cbn; eauto.
    - cbn. eauto. }
  unfold with_interaction_notes.
  unfold mbind at 1, M_bind at 1, mutate at 1.
  cbn -[_discover_links _capture_live_preview mbind].
  match goal with
  | |- context [(_discover_links self (links pe) ≫= _) ?w2] =>
      destruct (page_tail_effect (links pe) (preview pe) w2) as (w3 & -> & Hw3)
  end.
  exists shot. simpl. rewrite Hw3. simpl. by rewrite Hw1.
Qed.

End flows.

Lemma ERROR_REGEX_search_pattern (p html : string) :
  p ∈ ERROR_PATTERNS -> search_ignorecase p html = true -> ERROR_REGEX_search html = true.
Proof.
  intros Hp Hsearch. unfold ERROR_REGEX_search. apply existsb_exists.
  exists p. split; [by apply list_elem_of_In|done].
Qed.

(** C8. When the page is loaded and its content read, [_audit_page] appends
    one flow for the page: status error with notes "Blank or nearly empty
    page" when the trimmed content is shorter than 100 characters, whatever
    the content and the HTTP status; otherwise status warning with notes
    "Page contains error patterns" when an error phrase (such as "oops")
    occurs in it, whatever the HTTP status; otherwise the HTTP status
    decides. *)
Theorem audit_page_verdict (self : AuditRunner) (pe : PageEnv) (url : string) (w : World)
    (response : option Z) (load_time : Z) (html : string) :
  goto pe = Ok (response, load_time) ->
  content pe = Ok html ->
  exists flow,
    ui_flows (audit (snd (_audit_page self pe url w))) = ui_flows (audit w) ++ [flow]
    /\ page_url flow = url
    /\ (Py.str_len (Py.strip html) < 100 ->
        flow_status flow = flow_error
        /\ notes flow = Some "Blank or nearly empty page")
    /\ (100 <= Py.str_len (Py.strip html) ->
        ERROR_REGEX_search html = true ->
        flow_status flow = flow_warning
        /\ notes flow = Some "Page contains error patterns")
    /\ (100 <= Py.str_len (Py.strip html) ->
        search_ignorecase "oops" html = true ->
        flow_status flow = flow_warning)
    /\ (100 <= Py.str_len (Py.strip html) ->
        ERROR_REGEX_search html = false ->
        match response with
        | Some code =>
            if 400 <=? code
            then flow_status flow = flow_error /\ notes flow = Some ("HTTP " +:+ pretty code)
            else flow_status flow = flow_ok /\ notes flow = None
        | None => flow_status flow = flow_ok /\ notes flow = None
        end).
Proof.
  intros Hgoto Hcontent.
  destruct (_audit_page_flow self pe url w response load_time html Hgoto Hcontent)
    as [shot Hflow].
  eexists. split; [exact Hflow|]. simpl. split; [done|].
  unfold page_verdict.
  assert (Hwarn : 100 <= Py.str_len (Py.strip html) -> ERROR_REGEX_search html = true ->
    fst (if Py.str_len (Py.strip html) <? 100
         then (flow_error, Some "Blank or nearly empty page")
         else if ERROR_REGEX_search html
              then (flow_warning, Some "Page contains error patterns")
              else match response with
                   | Some code =>
                       if 400 <=? code then (flow_error, Some ("HTTP " +:+ pretty code))
                       else (flow_ok, None)
                   | None => (flow_ok, None)
                   end) = flow_warning
    /\ snd (if Py.str_len (Py.strip html) <? 100
            then (flow_error, Some "Blank or nearly empty page")
            else if ERROR_REGEX_search html
                 then (flow_warning, Some "Page contains error patterns")
                 else match response with
                      | Some code =>
                          if 400 <=? code then (flow_error, Some ("HTTP " +:+ pretty code))
                          else (flow_ok, None)
                      | None => (flow_ok, None)
                      end) = Some "Page contains error patterns").
  { intros Hlen Herr. rewrite (proj2 (Z.ltb_ge _ _) Hlen), Herr. done. }
  split_and!.
  - intros Hlen. by rewrite (proj2 (Z.ltb_lt _ _) Hlen).
  - exact Hwarn.
  - intros Hlen Hoops. apply Hwarn; [done|].
    apply (ERROR_REGEX_search_pattern "oops"); [|done].
    apply list_elem_of_In. simpl. tauto.
  - intros Hlen Herr. rewrite (proj2 (Z.ltb_ge _ _) Hlen), Herr.
    destruct response as [code|]; [|done]. by destruct (400 <=? code).
Qed.

Lemma audit_page_verdict_witness :
  (exists flow,
     ui_flows (audit (snd (_audit_page example_runner quiet_page
                             "https://example.test/about" (start example_audit)))) = [flow]
     /\ flow_status flow = flow_warning
     /\ notes flow = Some "Page contains error patterns")
  /\ (exists flow,
        ui_flows (audit (snd (_audit_page example_runner short_page
                                "https://example.test/about" (start example_audit)))) = [flow]
        /\ flow_status flow = flow_error
        /\ notes flow = Some "Blank or nearly empty page").
Proof.
  split.
  - destruct (audit_page_verdict example_runner quiet_page "https://example.test/about"
                (start example_audit) (Some 200) 120 oops_page_100 eq_refl eq_refl)
      as (flow & Hflows & _ & _ & Hwarn & _).
    exists flow. split; [exact Hflows|].
    apply Hwarn; [vm_compute; discriminate|vm_compute; reflexivity].
  - destruct (audit_page_verdict example_runner short_page "https://example.test/about"
                (start example_audit) (Some 500) 120 oops_page_99 eq_refl eq_refl)
      as (flow & Hflows & _ & Hblank & _).
    exists flow. split; [exact Hflows|].
    apply Hblank. vm_compute. reflexivity.
Defined.

(** ** The life cycle of an audit *)

Lemma grown_status self pages a b : grown self pages a b -> status b = status a.
Proof. by intros [(_ & _ & S & _) _]. Qed.

Lemma grown_finished_at self pages a b :
  grown self pages a b -> finished_at b = finished_at a.
Proof. by intros [(_ & _ & _ & F & _) _]. Qed.

Lemma final_cases (env : Env) (self : AuditRunner) (a0 : AuditState) :
  match create_authenticated_context env, new_page env with
  | Ok _, Ok _ =>
      exists a, status a = RUNNING /\ finished_at a = finished_at a0
                /\ error_message a = error_message a0
                /\ final env self a0 = completed env a
  | Raise e, _ => final env self a0 = failed e (started a0)
  | Ok _, Raise e => final env self a0 = failed e (started a0)
  end.
Proof.
  destruct (run_outcome env self a0) as (pages & ext & tail & _ & _ & _ & _ & Hfin).
  destruct (create_authenticated_context env) as [[]|e]; [|done].
  destruct (new_page env) as [[]|e]; [|done].
  destruct Hfin as (a & [(_ & _ & S & F & E & _) _] & Ha).
  exists a. by split_and!.
Qed.

(** C2, as the code has it. At every observable moment of a run,
    [finished_at] is set if and only if the status is done: normal completion
    sets the status to done and [finished_at] together; a failure that aborts
    the run sets the status to error and leaves [finished_at] unset; it is
    never set while the audit is queued or running. *)
Theorem finished_at_iff_done (env : Env) (self : AuditRunner) (a0 : AuditState) :
  status a0 = QUEUED ->
  finished_at a0 = None ->
  Forall (fun s => finished_at s <> None <-> status s = DONE) (moments env self a0)
  /\ Forall (fun s => status s = QUEUED \/ status s = RUNNING -> finished_at s = None)
       (moments env self a0)
  /\ match create_authenticated_context env, new_page env with
     | Ok _, Ok _ =>
         status (final env self a0) = DONE
         /\ finished_at (final env self a0) = Some (utcnow env)
     | _, _ =>
         status (final env self a0) = ERROR
         /\ finished_at (final env self a0) = None
     end.
Proof.
  intros Hqueued Hunset.
  destruct (moments_inv env self a0) as (pages & _ & Hmoments).
  assert (Heach : Forall (fun s =>
            (status s = DONE /\ finished_at s <> None)
            \/ (status s <> DONE /\ finished_at s = None)) (moments env self a0)).
  { eapply Forall_impl; [exact Hmoments|].
    intros s [->|[Hs|[(a & Ha & ->)|(e & ->)]]].
    - right. by rewrite Hqueued, Hunset.
    - right. rewrite (grown_status _ _ _ _ Hs), (grown_finished_at _ _ _ _ Hs). by simpl.
    - left. by simpl.
    - right. by simpl. }
  split_and!.
  - eapply Forall_impl; [exact Heach|]. intros s [[-> Hf]|[Hs ->]]; by split.
  - eapply Forall_impl; [exact Heach|].
    intros s [[-> Hf]|[Hs ->]]; [by intros [?|?]|done].
  - pose proof (final_cases env self a0) as Hfin.
    destruct (create_authenticated_context env) as [[]|e].
    + destruct (new_page env) as [[]|e].
      * destruct Hfin as (a & _ & _ & _ & ->). by simpl.
      * rewrite Hfin. by simpl.
    + rewrite Hfin. by simpl.
Qed.

Lemma finished_at_iff_done_witness :
  status (final quiet_env example_runner example_audit) = DONE
  /\ finished_at (final quiet_env example_runner example_audit) = Some 9000000.
Proof.
  exact (proj2 (proj2 (finished_at_iff_done quiet_env example_runner example_audit
                         eq_refl eq_refl))).
Defined.

(** C2 as stated fails: when the authenticated context cannot be created the
    run ends with status error and [finished_at] still unset. *)
Lemma finished_at_unset_on_error :
  ~ (finished_at (final no_context_env example_runner example_audit) <> None
     <-> (status (final no_context_env example_runner example_audit) = DONE
          \/ status (final no_context_env example_runner example_audit) = ERROR)).
Proof.
  intros [_ H]. apply H; [|reflexivity]. right. reflexivity.
Qed.

(** C3. The run ends with status error exactly when the authenticated context
    or the first page cannot be created; whatever else fails, the run ends with
    status done.  On such a failure [error_message] is the description of the
    failure and the progress is stage "error" at 0 percent. *)
Theorem run_fails_only_without_context_or_page (env : Env) (self : AuditRunner)
    (a0 : AuditState) :
  (status (final env self a0) = ERROR
   <-> (exists e, create_authenticated_context env = Raise e)
       \/ (exists e, new_page env = Raise e))
  /\ (create_authenticated_context env = Ok tt -> new_page env = Ok tt ->
      status (final env self a0) = DONE
      /\ error_message (final env self a0) = error_message a0)
  /\ (forall e,
        create_authenticated_context env = Raise e
        \/ (create_authenticated_context env = Ok tt /\ new_page env = Raise e) ->
        status (final env self a0) = ERROR
        /\ error_message (final env self a0) = Some e
        /\ stage (progress (final env self a0)) = "error"
        /\ percent (progress (final env self a0)) = 0
        /\ message (progress (final env self a0)) = Some ("Audit failed: " +:+ e)).
Proof.
  pose proof (final_cases env self a0) as Hfin.
  destruct (create_authenticated_context env) as [[]|e1] eqn:Hctx.
  - destruct (new_page env) as [[]|e2] eqn:Hpage.
    + destruct Hfin as (a & _ & _ & Ha & ->). split_and!.
      * split; [by simpl|]. intros [[e [=]]|[e [=]]].
      * intros _ _. by simpl.
      * intros e [[=]|[_ [=]]].
    + rewrite Hfin. split_and!.
      * split; [|by simpl]. intros _. right. by exists e2.
      * intros _ [=].
      * intros e [[=]|[_ [= <-]]]. by simpl.
  - rewrite Hfin. split_and!.
    + split; [|by simpl]. intros _. left. by exists e1.
    + intros [=].
    + intros e [[= <-]|[[=] _]]. by simpl.
Qed.

Lemma run_fails_only_without_context_or_page_witness :
  status (final hostile_env example_runner example_audit) = DONE
  /\ status (final no_context_env example_runner example_audit) = ERROR
  /\ error_message (final no_context_env example_runner example_audit)
     = Some "Session not authenticated"
  /\ percent (progress (final no_context_env example_runner example_audit)) = 0.
Proof.
  destruct (run_fails_only_without_context_or_page hostile_env example_runner example_audit)
    as (_ & Hdone & _).
  destruct (run_fails_only_without_context_or_page no_context_env example_runner example_audit)
    as (_ & _ & Herror).
  destruct (Hdone eq_refl eq_refl) as [H1 _].
  destruct (Herror "Session not authenticated" (or_introl eq_refl)) as (H2 & H3 & _ & H4 & _).
  by split_and!.
Defined.

(** ** The bound on the visited pages *)

Lemma moment_visited env self a0 pages s :
  visited_urls a0 = ∅ ->
  moment_of env self a0 pages s ->
  visited_urls s ⊆ list_to_set (url a0 :: pages)
  /\ (size (visited_urls s) <= 1 + length pages)%nat.
Proof.
  intros Hempty Hs.
  assert (Hgrown : forall a, grown self (url a0 :: pages) (started a0) a ->
            visited_urls a ⊆ list_to_set (url a0 :: pages)
            /\ (size (visited_urls a) <= 1 + length pages)%nat).
  { intros a Ha. split.
    - destruct Ha as [_ V]. simpl in V. rewrite Hempty in V. set_solver.
    - apply grown_size in Ha. simpl in Ha. rewrite Hempty, size_empty in Ha. lia. }
  destruct Hs as [->|[Hs|[(a & Ha & ->)|(e & ->)]]]; simpl.
  - rewrite Hempty, size_empty. split; [set_solver|lia].
  - by apply Hgrown.
  - by apply Hgrown.
  - rewrite Hempty, size_empty. split; [set_solver|lia].
Qed.

(** C4. With [max_pages] between 1 and 100, at every observable moment of a
    run the number of visited URLs is at most [max_pages]: the crawl selects
    at most [max_pages - 1] URLs, all discovered and none visited yet, and with
    [max_pages = 1] it selects none, so that only the target is ever
    visited. *)
Theorem visited_within_max_pages (env : Env) (self : AuditRunner) (a0 : AuditState) :
  visited_urls a0 = ∅ ->
  1 <= max_pages (options a0) <= 100 ->
  Forall (fun s => Z.of_nat (size (visited_urls s)) <= max_pages (options a0))
    (moments env self a0)
  /\ (forall a, 1 <= max_pages (options a) ->
        Z.of_nat (length (pages_to_visit a)) <= max_pages (options a) - 1
        /\ (forall u, u ∈ pages_to_visit a ->
              u ∈ discovered_urls a /\ u ∉ visited_urls a))
  /\ (max_pages (options a0) = 1 ->
      (forall a, max_pages (options a) = 1 -> pages_to_visit a = [])
      /\ Forall (fun s => visited_urls s ⊆ {[ url a0 ]}) (moments env self a0)).
Proof.
  intros Hempty Hrange.
  destruct (moments_inv env self a0) as (pages & Hbudget & Hmoments).
  unfold within_budget in Hbudget.
  split_and!.
  - eapply Forall_impl; [exact Hmoments|]. intros s Hs.
    destruct (moment_visited _ _ _ _ _ Hempty Hs) as [_ Hsize]. lia.
  - intros a Ha. split; [by apply pages_to_visit_spec|].
    intros u Hu. by apply pages_to_visit_spec.
  - intros Hone. split; [intros a Ha; by apply pages_to_visit_spec|].
    assert (pages = []) as -> by (destruct pages; [done|simpl in Hbudget; lia]).
    eapply Forall_impl; [exact Hmoments|]. intros s Hs.
    destruct (moment_visited _ _ _ _ _ Hempty Hs) as [Hsub _]. set_solver.
Qed.

Lemma visited_within_max_pages_witness :
  Forall (fun s => Z.of_nat (size (visited_urls s)) <= 20)
    (moments quiet_env example_runner example_audit).
Proof.
  apply (visited_within_max_pages quiet_env example_runner example_audit).
  - reflexivity.
  - simpl. lia.
Defined.

(** ** The scope of the crawl *)

Lemma same_domain_spec self parsed :
  same_domain self parsed = true ->
  UrlParse.netloc parsed = base_domain self \/ UrlParse.netloc parsed = "".
Proof.
  unfold same_domain. intros H. apply orb_true_iff in H as [H|H].
  - left. by apply String.eqb_eq.
  - right. by destruct (UrlParse.netloc parsed).
Qed.

(** C5 on a target page that links to a telephone number, a link that the
    script of [_discover_links] lets through.  The link is kept because its
    netloc is empty; the URL built from it enters the discovered set and,
    once crawled, the visited set; its netloc is not the base domain, against
    the comment "Only include same-domain links".  The target itself is
    visited as it was submitted, with its query and its fragment, so the test
    of a normalised URL against the visited set never finds it. *)
Lemma crawl_leaves_the_base_domain :
  let s := final quiet_env example_runner example_audit in
  AuditRunner_init example_audit = Some example_runner
  /\ base_domain example_runner = "example.test"
  /\ initial_links quiet_env = Ok ["https://example.test/about?tab=1#team"; "tel:+15551234"]
  /\ "tel://+15551234" ∈ discovered_urls s
  /\ "tel://+15551234" ∈ visited_urls s
  /\ netloc_of "tel://+15551234" = "+15551234"
  /\ "https://example.test/?next=1#top" ∈ visited_urls s
  /\ ~ (forall u, u ∈ visited_urls s ∪ discovered_urls s ->
          netloc_of u = base_domain example_runner)
  /\ ~ (forall u, u ∈ visited_urls s ∪ discovered_urls s ->
          UrlParse.contains "?" u = false /\ UrlParse.contains "#" u = false).
Proof.
  intros s.
  assert (Htarget : "https://example.test/?next=1#top" ∈ visited_urls s)
    by (apply (bool_decide_unpack _); vm_compute; exact I).
  assert (Hdiscovered : "tel://+15551234" ∈ discovered_urls s)
    by (apply (bool_decide_unpack _); vm_compute; exact I).
  assert (Hvisited : "tel://+15551234" ∈ visited_urls s)
    by (apply (bool_decide_unpack _); vm_compute; exact I).
  split_and!.
  - vm_compute. reflexivity.
  - reflexivity.
  - reflexivity.
  - exact Hdiscovered.
  - exact Hvisited.
  - vm_compute. reflexivity.
  - exact Htarget.
  - intros H. specialize (H "tel://+15551234").
    discriminate H. apply elem_of_union. right. exact Hdiscovered.
  - intros H. specialize (H "https://example.test/?next=1#top").
    destruct H as [H _]; [apply elem_of_union; left; exact Htarget|]. discriminate H.
Qed.

(** * Further properties *)

(** ** Scoring *)

(** X1. Whatever the integers passed, the score is never negative, and it
    never rises when a counter rises. *)
Theorem calculate_score_antitone (c n u s a p c' n' u' s' a' p' : Z) :
  c <= c' -> n <= n' -> u <= u' -> s <= s' -> a <= a' -> p <= p' ->
  0 <= calculate_score c' n' u' s' a' p' <= calculate_score c n u s a p.
Proof.
  intros Hc Hn Hu Hs Ha Hp. unfold calculate_score.
  assert (Z.min (c * 2) 20 <= Z.min (c' * 2) 20) by lia.
  assert (Z.min (n * 3) 20 <= Z.min (n' * 3) 20) by lia.
  assert (Z.min (u * 4) 20 <= Z.min (u' * 4) 20) by lia.
  assert (Z.min (s * 3) 20 <= Z.min (s' * 3) 20) by lia.
  assert (Z.min a 10 <= Z.min a' 10) by lia.
  assert (Z.min p 10 <= Z.min p' 10) by lia.
  generalize dependent (Z.min (c * 2) 20). generalize dependent (Z.min (c' * 2) 20).
  generalize dependent (Z.min (n * 3) 20). generalize dependent (Z.min (n' * 3) 20).
  generalize dependent (Z.min (u * 4) 20). generalize dependent (Z.min (u' * 4) 20).
  generalize dependent (Z.min (s * 3) 20). generalize dependent (Z.min (s' * 3) 20).
  generalize dependent (Z.min a 10). generalize dependent (Z.min a' 10).
  generalize dependent (Z.min p 10). generalize dependent (Z.min p' 10).
  intros. lia.
Qed.

Lemma calculate_score_antitone_witness :
  0 <= calculate_score 4 2 1 0 0 0 <= calculate_score 3 2 0 0 0 0.
Proof. apply calculate_score_antitone; lia. Defined.

(** X2. The letter grade follows the thresholds 90, 80, 70 and 60, and a
    higher score never earns a lower grade. *)
Theorem get_grade_monotone (score1 score2 : Z) :
  score1 <= score2 ->
  grade_rank (get_grade score1) <= grade_rank (get_grade score2)
  /\ (get_grade score2 = "A" <-> 90 <= score2)
  /\ (get_grade score2 = "F" <-> score2 < 60)
  /\ In (get_grade score2) ["A"; "B"; "C"; "D"; "F"].
Proof.
  intros Hle. unfold get_grade.
  destruct (Z.leb_spec 90 score1), (Z.leb_spec 80 score1), (Z.leb_spec 70 score1),
    (Z.leb_spec 60 score1), (Z.leb_spec 90 score2), (Z.leb_spec 80 score2),
    (Z.leb_spec 70 score2), (Z.leb_spec 60 score2);
    try lia; (split_and!; [vm_compute; congruence | split; (lia || done) ..| simpl; tauto]).
Qed.

Lemma get_grade_monotone_witness :
  grade_rank (get_grade 59) <= grade_rank (get_grade 90).
Proof. apply (get_grade_monotone 59 90). lia. Defined.

(** ** Report builder *)

(** X3. The overall score of a report lies between 0 and 100 and is never
    below the sum of the six category scores; the two agree when the audit
    recorded no large asset. *)
Theorem overall_score_and_categories (audit : AuditState) :
  0 <= report_score (build audit) <= 100
  /\ total_category_score (report_category_scores (build audit)) <= report_score (build audit)
  /\ (large_assets audit = [] ->
      total_category_score (report_category_scores (build audit)) = report_score (build audit)).
Proof.
  unfold build, _calculate_category_scores, calculate_score, total_category_score, Py.len.
  cbn [report_score report_category_scores app foldr score].
  assert (0 <= count_ui_errors (ui_flows audit))
    by (rewrite count_ui_errors_spec; unfold spec_error_flows; lia).
  assert (0 <= _count_security_issues audit).
  { rewrite _count_security_issues_spec. unfold spec_security_issues.
    destruct (security_hygiene audit) as [h|]; [destruct (https_ok h)|]; lia. }
  split_and!; [lia|lia|lia|]. intros ->. simpl. lia.
Qed.

Lemma overall_score_and_categories_witness :
  total_category_score
    (report_category_scores (build (final hostile_env example_runner example_audit)))
  = report_score (build (final hostile_env example_runner example_audit)).
Proof.
  apply (overall_score_and_categories (final hostile_env example_runner example_audit)).
  reflexivity.
Defined.

Lemma app_cons_not_nil {A} (l : list A) (x : A) : l ++ [x] <> [].
Proof. by destruct l. Qed.

(** A recommendation has been appended: the list is not empty, and the audit
    is not clean. *)
Ltac recommended :=
  split;
  [ intros Hnil; by apply app_cons_not_nil in Hnil
  | intros Hclean; decompose [and] Hclean; discriminate ].

(** X4. The report recommends nothing exactly when the audit has no console
    error, no network failure, no flow with status error, no large asset, no
    slow endpoint, no critical or serious accessibility violation, and its
    security record, if any, has HTTPS and no missing header; cookie issues
    and milder accessibility violations never yield a recommendation. *)
Theorem no_recommendation_iff_clean (audit : AuditState) :
  _generate_recommendations audit = []
  <-> console_errors audit = []
      /\ network_failures audit = []
      /\ List.filter is_error_flow (ui_flows audit) = []
      /\ match security_hygiene audit with
         | None => True
         | Some hygiene => https_ok hygiene = true /\ headers_missing hygiene = []
         end
      /\ large_assets audit = []
      /\ slow_endpoints audit = []
      /\ List.filter is_critical (accessibility_violations audit) = [].
Proof.
  unfold _generate_recommendations. cbv zeta.
  destruct (accessibility_violations audit) as [|av avs];
    [|destruct (List.filter is_critical (av :: avs)) as [|cv cvs]];
    cbv beta iota; cbn [List.filter]; [| |recommended].
  all: destruct (slow_endpoints audit) as [|se ses]; cbv beta iota; [|recommended].
  all: destruct (large_assets audit) as [|la las]; cbv beta iota; [|recommended].
  all: destruct (security_hygiene audit) as [hygiene|]; cbv beta iota.
  all: try (destruct (headers_missing hygiene) as [|m ms]; cbv beta iota; [|recommended];
            destruct (https_ok hygiene); cbv beta iota delta [negb]; [|recommended]).
  all: destruct (List.filter is_error_flow (ui_flows audit)) as [|uf ufs];
    cbv beta iota; [|recommended].
  all: destruct (network_failures audit) as [|nf nfs]; cbv beta iota; [|recommended].
  all: destruct (console_errors audit) as [|ce ces]; cbv beta iota; [|recommended].
  all: by split_and!.
Qed.

(** ** Security-header probe *)

(** X5. When the HEAD request is answered, a tracked header is reported
    present exactly when some header of the response equals it up to case;
    the order of the response's headers and their case play no part. *)
Theorem present_iff_some_header_matches (head : string -> HeadOutcome) (url : string)
    (header_names : list string) (h : string) :
  head url = HeadResponse header_names ->
  (h ∈ fst (check_security_headers head url)
   <-> h ∈ map fst SECURITY_HEADERS
       /\ exists name, name ∈ header_names /\ Py.lower name = Py.lower h)
  /\ (h ∈ snd (check_security_headers head url)
      <-> h ∈ map fst SECURITY_HEADERS
          /\ forall name, name ∈ header_names -> Py.lower name <> Py.lower h).
Proof.
  intros Hhead. unfold check_security_headers. rewrite Hhead, headers_loop_filter.
  simpl fst. simpl snd. rewrite !list_elem_of_filter. unfold header_found.
  split.
  - split.
    + intros [Hfound Hkey]. split; [done|].
      apply existsb_exists in Hfound as (name & Hin & Heq).
      exists name. split; [by apply list_elem_of_In|by apply String.eqb_eq].
    + intros [Hkey (name & Hin & Heq)]. split; [|done].
      apply existsb_exists. exists name.
      split; [by apply list_elem_of_In|by apply String.eqb_eq].
  - split.
    + intros [Hnone Hkey]. split; [done|]. intros name Hin Heq. apply Hnone.
      apply existsb_exists. exists name.
      split; [by apply list_elem_of_In|by apply String.eqb_eq].
    + intros [Hkey Hnone]. split; [|done]. intros Hfound.
      apply existsb_exists in Hfound as (name & Hin & Heq).
      apply (Hnone name); [by apply list_elem_of_In|by apply String.eqb_eq].
Qed.

Lemma present_iff_some_header_matches_witness :
  "X-Frame-Options" ∈ fst (check_security_headers
                             (fun _ => HeadResponse ["x-frame-options"; "Server"])
                             "https://example.test/").
Proof.
  apply (present_iff_some_header_matches
           (fun _ => HeadResponse ["x-frame-options"; "Server"])
           "https://example.test/" ["x-frame-options"; "Server"] "X-Frame-Options" eq_refl).
  split.
  - apply list_elem_of_In. simpl. tauto.
  - exists "x-frame-options". split; [constructor|reflexivity].
Defined.

Lemma recommendations_count (missing : list string) :
  length (get_header_recommendations missing)
  = length (filter (fun h => h ∈ missing) (map fst SECURITY_HEADERS)).
Proof.
  unfold get_header_recommendations. cbn [SECURITY_HEADERS map fst].
  rewrite !filter_cons, filter_nil.
  repeat (destruct (decide (_ ∈ missing)) as [?|?];
          [rewrite (bool_decide_eq_true_2 _ ltac:(eassumption))
          |rewrite (bool_decide_eq_false_2 _ ltac:(eassumption))]);
  reflexivity.
Qed.

Lemma filter_iff_on {A} (P Q : A -> Prop) `{!forall x, Decision (P x)}
    `{!forall x, Decision (Q x)} (l : list A) :
  (forall x, x ∈ l -> (P x <-> Q x)) -> filter P l = filter Q l.
Proof.
  induction l as [|x l IH]; intros Hiff; [done|].
  rewrite !filter_cons.
  rewrite IH by (intros y Hy; apply Hiff; by right).
  destruct (decide (P x)) as [HP|HP], (decide (Q x)) as [HQ|HQ]; try done.
  - exfalso. apply HQ, Hiff; [by left|done].
  - exfalso. apply HP, Hiff; [by left|done].
Qed.

Lemma filter_all {A} (P : A -> Prop) `{!forall x, Decision (P x)} (l : list A) :
  (forall x, x ∈ l -> P x) -> filter P l = l.
Proof.
  induction l as [|x l IH]; intros Hall; [done|].
  rewrite filter_cons_True by (apply Hall; by left).
  rewrite IH; [done|]. intros y Hy. apply Hall. by right.
Qed.

Lemma filter_none {A} (P : A -> Prop) `{!forall x, Decision (P x)} (l : list A) :
  (forall x, x ∈ l -> ~ P x) -> filter P l = [].
Proof.
  induction l as [|x l IH]; intros Hnone; [done|].
  rewrite filter_cons_False by (apply Hnone; by left).
  apply IH. intros y Hy. apply Hnone. by right.
Qed.

(** X6. [get_header_recommendations] gives one recommendation for each
    tracked header that is named in its argument and none for any other name;
    applied to the [missing] list of [check_security_headers] it gives exactly
    as many recommendations as headers are missing. *)
Theorem one_recommendation_per_missing_header (head : string -> HeadOutcome) (url : string)
    (missing : list string) :
  length (get_header_recommendations missing)
    = length (filter (fun h => h ∈ missing) (map fst SECURITY_HEADERS))
  /\ length (get_header_recommendations (snd (check_security_headers head url)))
     = length (snd (check_security_headers head url))
  /\ ((forall h, h ∈ map fst SECURITY_HEADERS -> h ∉ missing) ->
      get_header_recommendations missing = []).
Proof.
  split; [apply recommendations_count|]. split.
  - rewrite recommendations_count. f_equal.
    assert (Hsub : exists (P : string -> Prop) (Hdec : forall h, Decision (P h)),
              snd (check_security_headers head url)
              = filter P (map fst SECURITY_HEADERS)).
    { unfold check_security_headers. destruct (head url).
      - rewrite headers_loop_filter. simpl snd. eauto.
      - exists (fun _ => True), _. simpl snd. by rewrite filter_all.
      - exists (fun _ => True), _. simpl snd. by rewrite filter_all. }
    destruct Hsub as (P & Hdec & ->).
    apply filter_iff_on. intros h Hh. rewrite list_elem_of_filter. tauto.
  - intros Hnone. apply length_zero_iff_nil. rewrite recommendations_count.
    by rewrite filter_none.
Qed.

Lemma one_recommendation_per_missing_header_witness :
  get_header_recommendations ["Server"; "x-frame-options"] = [].
Proof.
  apply (one_recommendation_per_missing_header (fun _ => HeadResponse [])
           "https://example.test/" ["Server"; "x-frame-options"]).
  intros h Hh Hin. apply list_elem_of_In in Hh, Hin. simpl in Hh, Hin.
  destruct Hin as [<-|[<-|[]]];
    repeat (destruct Hh as [Hh|Hh]; [discriminate Hh|]); exact Hh.
Defined.

(** ** Rate limiter *)

(** X7. With the clock never running backwards, the requests of one IP that
    were accepted during the minute before any instant are at most the limit
    (none with a limit of zero or less), and no window ever holds more
    entries than that. *)
Theorem accepted_per_minute_bounded (N : Z) (calls : list (string * Z)) (ip : string) (t : Z) :
  Forall (fun call => snd call <= t) calls ->
  Py.len (filter (fun t0 => t - one_minute < t0)
            (accepted ip calls (snd (serve (RateLimiter_init N) calls))))
    <= Z.max 0 N
  /\ Py.len (requests (fst (serve (RateLimiter_init N) calls)) !!! ip) <= Z.max 0 N.
Proof.
  intros Hcalls.
  assert (Hfresh : within_limit (RateLimiter_init N)).
  { intros ip'. simpl. rewrite lookup_total_empty. unfold Py.len. cbn. lia. }
  destruct (serve_within_limit calls _ Hfresh) as [Hlim HN]. simpl in HN.
  specialize (Hlim ip). rewrite HN in Hlim. split; [|exact Hlim].
  assert (Hwindow :
    filter (fun t0 => t - one_minute < t0)
      (requests (fst (serve (RateLimiter_init N) calls)) !!! ip)
    = filter (fun t0 => t - one_minute < t0)
        (accepted ip calls (snd (serve (RateLimiter_init N) calls)))).
  { rewrite serve_window.
    - simpl. by rewrite lookup_total_empty.
    - eapply Forall_impl; [exact Hcalls|]. simpl. intros call Hcall. lia. }
  rewrite <- Hwindow. unfold Py.len in *.
  pose proof (length_filter (fun t0 => t - one_minute < t0)
                (requests (fst (serve (RateLimiter_init N) calls)) !!! ip)).
  lia.
Qed.

Lemma accepted_per_minute_bounded_witness :
  Py.len (filter (fun t0 => 3 - one_minute < t0)
            (accepted "10.0.0.1" [("10.0.0.1", 1); ("10.0.0.1", 2); ("10.0.0.1", 3)]
               (snd (serve (RateLimiter_init 2)
                       [("10.0.0.1", 1); ("10.0.0.1", 2); ("10.0.0.1", 3)]))))
  <= Z.max 0 2.
Proof.
  apply (accepted_per_minute_bounded 2 [("10.0.0.1", 1); ("10.0.0.1", 2); ("10.0.0.1", 3)]
           "10.0.0.1" 3).
  repeat (apply List.Forall_cons; [simpl; lia|]). apply List.Forall_nil.
Defined.

Lemma serve_other (calls : list (string * Z)) (self : RateLimiter) (ip : string) :
  Forall (fun call => fst call <> ip) calls ->
  requests (fst (serve self calls)) !!! ip = requests self !!! ip
  /\ requests_per_minute (fst (serve self calls)) = requests_per_minute self.
Proof.
  revert self. induction calls as [|[ip' now] calls IH]; intros self Hall; simpl; [done|].
  apply Forall_cons in Hall as [Hne Hall]. simpl in Hne.
  destruct (is_allowed self ip' now) as [verdict self'] eqn:Hcall.
  assert (Hself' : self' = snd (is_allowed self ip' now)) by (by rewrite Hcall).
  destruct (IH self' Hall) as [IH1 IH2].
  destruct (serve self' calls) as [final verdicts]. simpl in *.
  rewrite IH1, IH2, Hself'. split; [by apply is_allowed_other|apply is_allowed_limit].
Qed.

(** X8. The limiter keeps the IPs apart: whatever requests other IPs make,
    accepted or refused, the window of an IP and the verdict on its next
    request stay what they were. *)
Theorem other_ips_do_not_interfere (self : RateLimiter) (calls : list (string * Z))
    (ip : string) (now : Z) :
  Forall (fun call => fst call <> ip) calls ->
  requests (fst (serve self calls)) !!! ip = requests self !!! ip
  /\ fst (is_allowed (fst (serve self calls)) ip now) = fst (is_allowed self ip now)
  /\ fst (get_remaining (fst (serve self calls)) ip now) = fst (get_remaining self ip now).
Proof.
  intros Hother. destruct (serve_other calls self ip Hother) as [Hwin Hlim].
  split; [done|]. split.
  - by rewrite !is_allowed_verdict, Hwin, Hlim.
  - unfold get_remaining, _cleanup_old_requests. simpl.
    by rewrite !lookup_total_insert_eq, Hwin, Hlim.
Qed.

Lemma other_ips_do_not_interfere_witness :
  fst (is_allowed (fst (serve (RateLimiter_init 1) [("10.0.0.2", 1); ("10.0.0.3", 2)]))
         "10.0.0.1" 3)
  = fst (is_allowed (RateLimiter_init 1) "10.0.0.1" 3).
Proof.
  apply (other_ips_do_not_interfere (RateLimiter_init 1)
           [("10.0.0.2", 1); ("10.0.0.3", 2)] "10.0.0.1" 3).
  repeat (apply List.Forall_cons; [simpl; discriminate|]). apply List.Forall_nil.
Defined.

(** X9. [get_remaining] agrees with [is_allowed]: a request is accepted
    exactly when the remaining count read at the same instant is positive,
    an accepted request lowers the count read at that instant by one, and
    reading the count takes up no capacity: any later call is answered, and
    leaves the limiter, as if the count had not been read. *)
Theorem get_remaining_agrees (self : RateLimiter) (ip : string) (now : Z) :
  (fst (is_allowed self ip now) = true <-> 0 < fst (get_remaining self ip now))
  /\ (fst (is_allowed self ip now) = true ->
      fst (get_remaining (snd (is_allowed self ip now)) ip now)
      = fst (get_remaining self ip now) - 1)
  /\ (forall later, now <= later ->
        is_allowed (snd (get_remaining self ip now)) ip later = is_allowed self ip later).
Proof.
  split; [|split].
  - rewrite is_allowed_verdict. unfold get_remaining, _cleanup_old_requests. simpl.
    rewrite lookup_total_insert_eq, negb_true_iff, Z.leb_gt. lia.
  - intros Hok. unfold get_remaining at 1, _cleanup_old_requests. simpl.
    rewrite lookup_total_insert_eq, is_allowed_limit, is_allowed_same, Hok, filter_app.
    rewrite filter_after_cutoff by lia.
    rewrite filter_cons_True, filter_nil by (unfold one_minute; lia).
    unfold get_remaining, _cleanup_old_requests. simpl. rewrite lookup_total_insert_eq.
    rewrite is_allowed_verdict in Hok. apply negb_true_iff, Z.leb_gt in Hok.
    unfold Py.len in *. rewrite length_app. simpl. lia.
  - intros later Hlater. unfold is_allowed, get_remaining, _cleanup_old_requests. simpl.
    rewrite !lookup_total_insert_eq, !insert_insert_eq.
    rewrite filter_after_cutoff by lia. reflexivity.
Qed.

Lemma get_remaining_agrees_witness :
  fst (get_remaining (snd (is_allowed (RateLimiter_init 30) "10.0.0.1" 5)) "10.0.0.1" 5) = 29.
Proof.
  destruct (get_remaining_agrees (RateLimiter_init 30) "10.0.0.1" 5) as (_ & H & _).
  rewrite H; reflexivity.
Defined.

(** ** Audit manager *)

(** X10. [update_progress] on an id that is not registered changes nothing;
    on a registered id it replaces the progress of that audit alone, with the
    number of visited pages and of console and network findings read from
    the record, and it is the update the runner makes to the record it
    holds. *)
Theorem update_progress_effect (manager : AuditManager) (audit_id label : string)
    (pct : Z) (cur msg : option string) :
  (manager !! audit_id = None ->
   update_progress manager audit_id label pct cur msg = manager)
  /\ (forall a, manager !! audit_id = Some a ->
        update_progress manager audit_id label pct cur msg !! audit_id
        = Some (set_progress
                  {| stage := label; percent := pct; current_url := cur;
                     pages_visited := Z.of_nat (size (visited_urls a));
                     errors_found := Z.of_nat (length (console_errors a))
                                     + Z.of_nat (length (network_failures a));
                     message := msg |} a))
  /\ (forall w, manager !! audit_id = Some (audit w) ->
        update_progress manager audit_id label pct cur msg !! audit_id
        = Some (audit (snd (report_progress label pct cur msg w))))
  /\ (forall other, other <> audit_id ->
        update_progress manager audit_id label pct cur msg !! other
        = manager !! other).
Proof.
  unfold update_progress. split_and!.
  - by intros ->.
  - intros a ->. by rewrite lookup_insert_eq.
  - intros w ->. by rewrite lookup_insert_eq.
  - intros other Hne. destruct (manager !! audit_id); [|done].
    by rewrite lookup_insert_ne.
Qed.

Lemma update_progress_effect_witness :
  update_progress ∅ "audit-1" "crawling" 20 None None = ∅.
Proof. by apply (update_progress_effect ∅ "audit-1" "crawling" 20 None None). Defined.

(** X11. An audit that [create_audit] registers is the one [get_audit]
    returns for its id, the audits under other ids are left as they were, and
    the new record is queued, unfinished, without findings and without
    visited or discovered URLs. *)
Theorem create_then_get_audit (manager : AuditManager)
    (ARTIFACTS_DIR audit_id session_id target : string) (opts : AuditOptions) (now : Z) :
  let created := create_audit manager ARTIFACTS_DIR audit_id session_id target opts now in
  get_audit (snd created) audit_id = Some (fst created)
  /\ (forall other, other <> audit_id -> get_audit (snd created) other = get_audit manager other)
  /\ status (fst created) = QUEUED
  /\ finished_at (fst created) = None
  /\ error_message (fst created) = None
  /\ visited_urls (fst created) = ∅
  /\ discovered_urls (fst created) = ∅
  /\ ui_flows (fst created) = []
  /\ screenshots (fst created) = []
  /\ percent (progress (fst created)) = 0
  /\ url (fst created) = target
  /\ options (fst created) = opts.
Proof.
  intros created. subst created. unfold create_audit, get_audit. simpl.
  split_and!; try done.
  - by rewrite lookup_insert_eq.
  - intros other Hne. by rewrite lookup_insert_ne.
Qed.

(** X12. [run_audit_async] on an id that is not registered changes nothing
    and nothing is observed; on a registered audit whose URL parses it leaves
    the other audits alone and leaves this one with status done or error,
    never queued or running. *)
Theorem run_audit_async_terminal (manager : AuditManager) (audit_id : string) (env : Env) :
  (get_audit manager audit_id = None ->
   run_audit_async manager audit_id env = (manager, []))
  /\ (forall a0 runner,
        get_audit manager audit_id = Some a0 ->
        AuditRunner_init a0 = Some runner ->
        (exists a, fst (run_audit_async manager audit_id env) !! audit_id = Some a
                   /\ (status a = DONE \/ status a = ERROR)
                   /\ last (snd (run_audit_async manager audit_id env)) = Some a
                   /\ List.head (snd (run_audit_async manager audit_id env)) = Some a0)
        /\ (forall other, other <> audit_id ->
              fst (run_audit_async manager audit_id env) !! other = manager !! other)).
Proof.
  unfold run_audit_async. split.
  - by intros ->.
  - intros a0 runner -> ->. simpl. split.
    + exists (final env runner a0). rewrite lookup_insert_eq. split_and!; try done.
      * pose proof (final_cases env runner a0) as Hfin.
        destruct (create_authenticated_context env) as [[]|e].
        -- destruct (new_page env) as [[]|e].
           ++ destruct Hfin as (a & _ & _ & _ & ->). by left.
           ++ rewrite Hfin. by right.
        -- rewrite Hfin. by right.
      * unfold moments. fold (final env runner a0).
        by rewrite app_comm_cons, last_snoc.
    + intros other Hne. by rewrite lookup_insert_ne.
Qed.

Lemma run_audit_async_terminal_witness :
  exists a, fst (run_audit_async {[ "audit-1" := example_audit ]} "audit-1" hostile_env)
              !! "audit-1" = Some a
            /\ (status a = DONE \/ status a = ERROR).
Proof.
  destruct (run_audit_async_terminal {[ "audit-1" := example_audit ]} "audit-1" hostile_env)
    as [_ H].
  assert (Hget : get_audit {[ "audit-1" := example_audit ]} "audit-1" = Some example_audit)
    by (unfold get_audit; apply lookup_singleton_eq).
  assert (Hinit : AuditRunner_init example_audit = Some example_runner)
    by (vm_compute; reflexivity).
  destruct (H example_audit example_runner Hget Hinit) as [(a & Ha & Hs & _) _].
  exists a. exact (conj Ha Hs).
Defined.

(** ** The runner: what a whole run keeps *)

#[export] Instance keeps_refl {T} (field : AuditState -> T) : Reflexive (keeps field).
Proof. by intros a. Qed.

#[export] Instance keeps_trans {T} (field : AuditState -> T) : Transitive (keeps field).
Proof. unfold keeps. intros a b c H1 H2. congruence. Qed.

(** A computation that never raises hands its result and its world to the
    continuation. *)
Lemma bind_ok {A B} (m : M A) (f : A -> M B) (w : World) :
  safe m -> exists x, m w = (Ok x, snd (m w)) /\ (m ≫= f) w = f x (snd (m w)).
Proof.
  intros Hsafe. destruct (Hsafe w) as [x Hx]. exists x.
  unfold mbind, M_bind. destruct (m w) as [[y|e] w1]; simpl in *; [|done].
  by injection Hx as ->.
Qed.

Lemma bind_ok_snd {A B} (m : M A) (f : A -> M B) (w : World) :
  safe m -> exists x, snd ((m ≫= f) w) = snd (f x (snd (m w))).
Proof.
  intros Hsafe. destruct (bind_ok m f w Hsafe) as (x & _ & ->). by exists x.
Qed.

(** A relation that every assignment of the phases respects is respected by
    the phases. *)
Section kept.
Context (R : relation AuditState) `{!Reflexive R, !Transitive R}.
Context (self : AuditRunner).
Hypothesis R_progress : forall v a, R a (set_progress v a).
Hypothesis R_page_timings : forall v a, R a (set_page_timings v a).
Hypothesis R_ui_flows : forall v a, R a (set_ui_flows v a).
Hypothesis R_visited_urls : forall v a, R a (set_visited_urls v a).
Hypothesis R_discovered_urls : forall v a, R a (set_discovered_urls v a).
Hypothesis R_screenshot : forall a,
  R a (set_screenshots
         (screenshots a ++ [shot_path (artifacts_dir a) (length (screenshots a))]) a).
Hypothesis R_security_hygiene : forall v a, R a (set_security_hygiene v a).
Hypothesis R_accessibility_violations : forall v a, R a (set_accessibility_violations v a).
Hypothesis R_preview_image_path : forall v a, R a (set_preview_image_path v a).
Hypothesis R_preview_updated_at : forall v a, R a (set_preview_updated_at v a).

Ltac kept_mutate :=
  lazymatch goal with
  | |- steps ?R (mutate _) =>
      apply (steps_mutate R); intros ?;
      first [ apply R_progress | apply R_page_timings | apply R_ui_flows
            | apply R_visited_urls | apply R_discovered_urls
            | apply R_security_hygiene | apply R_accessibility_violations
            | apply R_preview_image_path | apply R_preview_updated_at ]
  end.

Ltac kept := repeat first [ steps_step | kept_mutate ].

Lemma report_progress_kept stage percent current_url message :
  steps R (report_progress stage percent current_url message).
Proof. unfold report_progress. kept. Qed.

Lemma _capture_live_preview_kept pv : steps R (_capture_live_preview self pv).
Proof. unfold _capture_live_preview. kept. Qed.

Lemma discover_loop_kept links : steps R (discover_loop self links).
Proof.
  induction links as [|link links IH]; simpl; [kept|].
  destruct (UrlParse.urlparse link) as [parsed|]; [|by apply (steps_raise R)].
  apply (steps_bind R); [|intros ?; exact IH]. kept.
Qed.

Lemma _discover_links_kept evaluated : steps R (_discover_links self evaluated).
Proof.
  unfold _discover_links. apply (steps_try R); [|intros ?; kept].
  apply (steps_bind R); [kept|intros links]. apply discover_loop_kept.
Qed.

Lemma _take_screenshot_kept pe url : steps R (_take_screenshot pe url).
Proof.
  intros w. unfold _take_screenshot, try_except, mbind, M_bind, read, await, mutate,
    mret, M_ret, steps_at.
  destruct (screenshot pe) as [[]|e]; cbn.
  - split; [apply R_screenshot|]. exists [audit w]. split; [done|].
    by apply Forall_singleton.
  - split; [reflexivity|]. exists [audit w]. split; [done|]. by apply Forall_singleton.
Qed.

Lemma _probe_safe_interactions_kept pe : steps R (_probe_safe_interactions pe).
Proof. unfold _probe_safe_interactions. kept. Qed.

Lemma _audit_page_kept pe url : steps R (_audit_page self pe url).
Proof.
  unfold _audit_page.
  repeat first
    [ apply _take_screenshot_kept
    | apply _probe_safe_interactions_kept
    | apply _discover_links_kept
    | apply _capture_live_preview_kept
    | steps_step
    | kept_mutate ].
Qed.

Lemma _check_initial_availability_kept env :
  steps R (_check_initial_availability env self).
Proof.
  unfold _check_initial_availability.
  repeat first
    [ apply report_progress_kept | apply _capture_live_preview_kept
    | steps_step | kept_mutate ].
Qed.

Lemma crawl_loop_kept env total pages i : steps R (crawl_loop env self total i pages).
Proof.
  revert i. induction pages as [|url rest IH]; intros i; simpl; [kept|].
  repeat first
    [ apply report_progress_kept | apply _audit_page_kept | apply IH
    | steps_step | kept_mutate ].
Qed.

Lemma _crawl_and_audit_kept env : steps R (_crawl_and_audit env self).
Proof.
  unfold _crawl_and_audit.
  repeat first
    [ apply report_progress_kept | apply _discover_links_kept | apply crawl_loop_kept
    | steps_step | kept_mutate ].
Qed.

Lemma _check_security_hygiene_kept env : steps R (_check_security_hygiene env self).
Proof.
  unfold _check_security_hygiene.
  repeat first [ apply report_progress_kept | steps_step | kept_mutate ].
Qed.

Lemma _run_accessibility_checks_kept env : steps R (_run_accessibility_checks env self).
Proof.
  unfold _run_accessibility_checks.
  repeat first [ apply report_progress_kept | steps_step | kept_mutate ].
Qed.

Lemma audit_phases_kept env : steps R (audit_phases env self).
Proof.
  unfold audit_phases.
  repeat first
    [ apply _check_initial_availability_kept | apply _crawl_and_audit_kept
    | apply _check_security_hygiene_kept | apply _run_accessibility_checks_kept
    | steps_step ].
Qed.

Hypothesis R_status : forall v a, R a (set_status v a).
Hypothesis R_finished_at : forall v a, R a (set_finished_at v a).
Hypothesis R_error_message : forall v a, R a (set_error_message v a).

Lemma run_kept env : steps R (run env self).
Proof.
  unfold run, _setup_event_listeners.
  apply (steps_finally R); [|steps_auto].
  repeat first
    [ apply report_progress_kept | apply audit_phases_kept
    | steps_step
    | lazymatch goal with
      | |- steps ?R (mutate _) =>
          apply (steps_mutate R); intros ?;
          first [ apply R_status | apply R_finished_at | apply R_error_message ]
      end ].
Qed.

Lemma moments_kept env a0 : Forall (R a0) (moments env self a0).
Proof.
  destruct (run_kept env (start a0)) as (Hfin & ext & Htrace & Hext).
  unfold moments. rewrite Htrace. simpl in *.
  apply List.Forall_cons; [reflexivity|].
  apply Forall_app. split; [done|]. by apply Forall_singleton.
Qed.

End kept.

(** Instances of the above for a field that the phases never assign. *)
Ltac keeps_field := intros; reflexivity.

(** A run in which the context and the page are created ends with the record
    that the phases leave, completed; the record is seen at the suspensions
    of the phases and, completed, at those of the clean-up. *)
Lemma run_completes (env : Env) (self : AuditRunner) (a0 : AuditState) :
  create_authenticated_context env = Ok tt ->
  new_page env = Ok tt ->
  final env self a0 = completed env (audit (snd (audit_phases env self (entered a0))))
  /\ exists tail,
       trace (snd (run env self (start a0)))
       = trace (snd (audit_phases env self (entered a0))) ++ tail
       /\ Forall (fun s => s = final env self a0) tail.
Proof.
  intros Hctx Hpage. unfold final, run. rewrite !try_finally_snd.
  match goal with
  | |- context [snd (?cleanup (snd (?body (start a0))))] =>
      set (wb := snd (body (start a0)));
      assert (Hclean : steps eq cleanup) by steps_auto;
      destruct (Hclean wb) as (Haudit & tail & Htail & Hsame)
  end.
  rewrite <- Haudit, Htail.
  assert (Hbody :
    audit wb = completed env (audit (snd (audit_phases env self (entered a0))))
    /\ trace wb = trace (snd (audit_phases env self (entered a0)))).
  { subst wb.
    unfold try_except, mbind, M_bind, report_progress, mutate, await,
      set_context, set_page, _setup_event_listeners, read, read_world, mret, M_ret.
    rewrite Hctx, Hpage.
    cbn -[audit_phases set_status set_progress set_finished_at set_error_message
          new_progress].
    fold (started a0). fold (entered a0).
    destruct (audit_phases_safe self env (entered a0)) as [[] Hsafe].
    destruct (audit_phases env self (entered a0)) as [r w4]. simpl in Hsafe. subst r.
    cbn -[set_status set_progress set_finished_at set_error_message new_progress].
    by fold (completed env (audit w4)). }
  destruct Hbody as [Hfin Htr]. split; [done|].
  exists tail. split; [by rewrite Htr|].
  eapply Forall_impl; [exact Hsame|]. by intros s ->.
Qed.

(** ** The security hygiene of a completed run *)

Lemma phases_url (env : Env) (self : AuditRunner) (w : World) :
  url (audit (snd (_check_initial_availability env self w))) = url (audit w)
  /\ url (audit (snd (_crawl_and_audit env self w))) = url (audit w).
Proof.
  split.
  - apply (_check_initial_availability_kept (keeps url) self); keeps_field.
  - apply (_crawl_and_audit_kept (keeps url) self); keeps_field.
Qed.

Lemma _check_security_hygiene_effect (env : Env) (self : AuditRunner) (w : World) :
  security_hygiene (audit (snd (_check_security_hygiene env self w)))
  = Some {| https_ok := Py.startswith "https://" (url (audit w));
            headers_present := fst (check_security_headers (head env) (url (audit w)));
            headers_missing := snd (check_security_headers (head env) (url (audit w)));
            cookie_flags_issues := match cookies env with
                                   | Ok cookies => cookie_loop cookies []
                                   | Raise _ => []
                                   end |}.
Proof.
  unfold _check_security_hygiene, report_progress, try_except, mbind, M_bind, read, await,
    mutate, mret, M_ret.
  by destruct (cookies env) as [cs|e].
Qed.

(** X13. When the context and the page are created, the completed record
    holds the security hygiene of the target URL: HTTPS is judged on the text
    of the URL, the headers are those of the probe, and the cookie issues
    are those of the context's cookies, or none when the cookies cannot be
    read. *)
Theorem completed_run_has_security_hygiene (env : Env) (self : AuditRunner)
    (a0 : AuditState) :
  create_authenticated_context env = Ok tt ->
  new_page env = Ok tt ->
  security_hygiene (final env self a0)
  = Some {| https_ok := Py.startswith "https://" (url a0);
            headers_present := fst (check_security_headers (head env) (url a0));
            headers_missing := snd (check_security_headers (head env) (url a0));
            cookie_flags_issues := match cookies env with
                                   | Ok cookies => cookie_loop cookies []
                                   | Raise _ => []
                                   end |}.
Proof.
  intros Hctx Hpage.
  destruct (run_completes env self a0 Hctx Hpage) as [-> _].
  change (security_hygiene (completed env ?a)) with (security_hygiene a).
  unfold audit_phases.
  destruct (bind_ok_snd (_check_initial_availability env self)
              (fun _ => _crawl_and_audit env self;; _check_security_hygiene env self;;
                        _run_accessibility_checks env self) (entered a0)
              (_check_initial_availability_safe self env)) as [[] ->].
  set (w1 := snd (_check_initial_availability env self (entered a0))).
  destruct (bind_ok_snd (_crawl_and_audit env self)
              (fun _ => _check_security_hygiene env self;;
                        _run_accessibility_checks env self) w1
              (_crawl_and_audit_safe self env)) as [[] ->].
  set (w2 := snd (_crawl_and_audit env self w1)).
  destruct (bind_ok_snd (_check_security_hygiene env self)
              (fun _ => _run_accessibility_checks env self) w2
              (_check_security_hygiene_safe self env)) as [[] ->].
  set (w3 := snd (_check_security_hygiene env self w2)).
  assert (Hkeep : keeps security_hygiene (audit w3)
                    (audit (snd (_run_accessibility_checks env self w3)))).
  { apply (_run_accessibility_checks_kept (keeps security_hygiene) self); keeps_field. }
  rewrite Hkeep. subst w3. rewrite _check_security_hygiene_effect.
  assert (Hurl : url (audit w2) = url a0).
  { subst w2 w1. destruct (phases_url env self (entered a0)) as [H1 _].
    destruct (phases_url env self (snd (_check_initial_availability env self (entered a0))))
      as [_ H2].
    by rewrite H2, H1. }
  by rewrite Hurl.
Qed.

Lemma completed_run_has_security_hygiene_witness :
  exists hygiene,
    security_hygiene (final hostile_env example_runner example_audit) = Some hygiene
    /\ https_ok hygiene = true
    /\ headers_present hygiene = []
    /\ cookie_flags_issues hygiene = [].
Proof.
  eexists. split.
  - exact (completed_run_has_security_hygiene hostile_env example_runner example_audit
             eq_refl eq_refl).
  - split_and!; reflexivity.
Defined.

(** ** The flows and the visited pages of a completed run *)

Section crawl_effect.
Context (env : Env) (self : AuditRunner).

Lemma kept_flows_visited {A} (m : M A) (w : World) :
  steps (keeps ui_flows) m -> steps (keeps visited_urls) m ->
  ui_flows (audit (snd (m w))) = ui_flows (audit w)
  /\ visited_urls (audit (snd (m w))) = visited_urls (audit w).
Proof. intros H1 H2. split; [apply H1|apply H2]. Qed.

Lemma _capture_live_preview_quiet pv w :
  exists w', _capture_live_preview self pv w = (Ok tt, w')
    /\ ui_flows (audit w') = ui_flows (audit w)
    /\ visited_urls (audit w') = visited_urls (audit w)
    /\ url (audit w') = url (audit w).
Proof.
  destruct (_capture_live_preview_safe self pv w) as [[] Hok].
  assert (H1 : keeps ui_flows (audit w) (audit (snd (_capture_live_preview self pv w))))
    by (apply (_capture_live_preview_kept (keeps ui_flows) self); keeps_field).
  assert (H2 : keeps visited_urls (audit w) (audit (snd (_capture_live_preview self pv w))))
    by (apply (_capture_live_preview_kept (keeps visited_urls) self); keeps_field).
  assert (H3 : keeps url (audit w) (audit (snd (_capture_live_preview self pv w))))
    by (apply (_capture_live_preview_kept (keeps url) self); keeps_field).
  destruct (_capture_live_preview self pv w) as [r w']. simpl in *. subst r.
  by exists w'.
Qed.

(** The availability check appends one flow, for the target, and visits the
    target when it could be loaded. *)
Lemma _check_initial_availability_effect w :
  let a' := audit (snd (_check_initial_availability env self w)) in
  map page_url (ui_flows a') = map page_url (ui_flows (audit w)) ++ [url (audit w)]
  /\ visited_urls a'
     = match initial_goto env with
       | Ok _ => {[ url (audit w) ]} ∪ visited_urls (audit w)
       | Raise _ => visited_urls (audit w)
       end.
Proof.
  intros a'. subst a'.
  unfold _check_initial_availability, try_except, mbind, M_bind, read, report_progress,
    mutate, await, mret, M_ret.
  destruct (initial_goto env) as [[response load_time]|e].
  - cbn -[_capture_live_preview].
    match goal with
    | |- context [_capture_live_preview self (initial_preview env) ?w0] =>
        destruct (_capture_live_preview_quiet (initial_preview env) w0)
          as (w1 & Hprev & Hf & Hv & Hu); rewrite Hprev
    end.
    simpl in Hf, Hv, Hu.
    destruct (availability_verdict response) as [st nt].
    cbn. rewrite Hf, Hv, Hu. by rewrite List.map_app.
  - cbn. by rewrite List.map_app.
Qed.

Lemma _audit_page_quiet pe page_url w :
  safe (_audit_page self pe page_url)
  /\ visited_urls (audit (snd (_audit_page self pe page_url w))) = visited_urls (audit w).
Proof.
  split; [apply _audit_page_safe|].
  apply (_audit_page_kept (keeps visited_urls) self); keeps_field.
Qed.

(** [_audit_page] appends one flow, for the page, whatever happens. *)
Lemma _audit_page_appends pe u w :
  map page_url (ui_flows (audit (snd (_audit_page self pe u w))))
  = map page_url (ui_flows (audit w)) ++ [u].
Proof.
  destruct (goto pe) as [[response load_time]|e] eqn:Hgoto.
  - destruct (content pe) as [html|e] eqn:Hcontent.
    + destruct (_audit_page_flow self pe u w response load_time html Hgoto Hcontent)
        as [shot ->].
      by rewrite List.map_app.
    + unfold _audit_page, try_except, mbind, M_bind, await, sleep, read, mret, M_ret, mutate.
      rewrite Hgoto, Hcontent.
      cbn -[_discover_links _capture_live_preview page_verdict _take_screenshot].
      by rewrite List.map_app.
  - unfold _audit_page, try_except, mbind, M_bind, await, sleep, read, mret, M_ret, mutate.
    rewrite Hgoto. cbn. by rewrite List.map_app.
Qed.

Lemma seq_snd {B} (m : M unit) (f : unit -> M B) (w : World) :
  safe m -> snd ((m ≫= f) w) = snd (f tt (snd (m w))).
Proof. intros Hsafe. by destruct (bind_ok_snd m f w Hsafe) as [[] ->]. Qed.

Lemma safe_sleep : safe sleep.
Proof. apply safe_await_ok. Qed.

(** The crawl loop appends one flow for each page, in order, and visits each
    page. *)
Lemma crawl_loop_effect total pages : forall i w,
  map page_url (ui_flows (audit (snd (crawl_loop env self total i pages w))))
  = map page_url (ui_flows (audit w)) ++ pages
  /\ visited_urls (audit (snd (crawl_loop env self total i pages w)))
     = list_to_set pages ∪ visited_urls (audit w).
Proof.
  induction pages as [|u rest IH]; intros i w.
  - simpl. rewrite app_nil_r. split; [done|set_solver].
  - cbn [crawl_loop].
    rewrite !seq_snd
      by first [ apply report_progress_safe | apply _audit_page_safe
               | apply safe_mutate | apply safe_sleep ].
    destruct (IH (S i)
      (snd (sleep (snd (mutate (fun a => set_visited_urls ({[ u ]} ∪ visited_urls a) a)
         (snd (_audit_page self (crawled env i u) u
            (snd (report_progress "auditing_pages"
                    (20 + loop_percent env (Z.of_nat i) total) (Some u)
                    (Some ("Checking page " +:+ pretty (Z.of_nat i + 1) +:+ "/"
                           +:+ pretty total)) w))))))))) as [Hf Hv].
    rewrite Hf, Hv.
    cbn [sleep await mutate snd audit ui_flows visited_urls set_visited_urls].
    rewrite _audit_page_appends.
    rewrite (proj2 (_audit_page_quiet _ _ _)).
    cbn [report_progress mutate snd audit ui_flows visited_urls set_progress].
    split; [by rewrite <- app_assoc|].
    rewrite list_to_set_cons. set_solver.
Qed.

Lemma audit_phases_snd w :
  snd (audit_phases env self w)
  = snd (_run_accessibility_checks env self
           (snd (_check_security_hygiene env self
                   (snd (_crawl_and_audit env self
                           (snd (_check_initial_availability env self w))))))).
Proof.
  unfold audit_phases.
  by rewrite !seq_snd
    by first [ apply _check_initial_availability_safe | apply _crawl_and_audit_safe
             | apply _check_security_hygiene_safe ].
Qed.

(** The crawl appends one flow for each page it selects and visits each of
    them; the pages are distinct, not yet visited, and within the budget. *)
Lemma _crawl_and_audit_effect w :
  exists pages,
    map page_url (ui_flows (audit (snd (_crawl_and_audit env self w))))
    = map page_url (ui_flows (audit w)) ++ pages
    /\ visited_urls (audit (snd (_crawl_and_audit env self w)))
       = list_to_set pages ∪ visited_urls (audit w)
    /\ NoDup pages
    /\ (forall u, u ∈ pages -> u ∉ visited_urls (audit w))
    /\ within_budget (audit w) pages
    /\ (max_pages (options (audit w)) = 1 -> pages = []).
Proof.
  set (w1 := snd (report_progress "crawling" 20 None (Some "Discovering pages...") w)).
  set (w2 := snd (_discover_links self (initial_links env) w1)).
  assert (Hw2 : ui_flows (audit w2) = ui_flows (audit w)
                /\ visited_urls (audit w2) = visited_urls (audit w)
                /\ options (audit w2) = options (audit w)).
  { subst w2. split_and!.
    - etrans; [apply (_discover_links_kept (keeps ui_flows) self); keeps_field|done].
    - etrans; [apply (_discover_links_kept (keeps visited_urls) self); keeps_field|done].
    - etrans; [apply (_discover_links_kept (keeps options) self); keeps_field|done]. }
  destruct Hw2 as (Hf2 & Hv2 & Ho2).
  exists (pages_to_visit (audit w2)).
  assert (Hsnd : snd (_crawl_and_audit env self w)
                 = snd (crawl_loop env self (Py.len (pages_to_visit (audit w2))) 0
                          (pages_to_visit (audit w2)) w2)).
  { unfold _crawl_and_audit.
    rewrite !seq_snd by first [ apply report_progress_safe | apply _discover_links_safe ].
    done. }
  rewrite Hsnd.
  destruct (crawl_loop_effect (Py.len (pages_to_visit (audit w2)))
              (pages_to_visit (audit w2)) 0%nat w2) as [Hf Hv].
  destruct (pages_to_visit_spec (audit w2)) as (Hin & Hnodup & Hbudget & Hone).
  rewrite Hf, Hv, Hf2, Hv2. split_and!; try done.
  - intros u Hu. rewrite <- Hv2. by apply Hin.
  - unfold within_budget. by rewrite <- Ho2.
  - by rewrite <- Ho2.
Qed.

Lemma later_phases_keep {T} (field : AuditState -> T) w :
  (forall v a, field (set_progress v a) = field a) ->
  (forall v a, field (set_security_hygiene v a) = field a) ->
  (forall v a, field (set_accessibility_violations v a) = field a) ->
  field (audit (snd (_run_accessibility_checks env self
                       (snd (_check_security_hygiene env self w)))))
  = field (audit w).
Proof.
  intros Hp Hs Ha.
  etrans; [by apply (_run_accessibility_checks_kept (keeps field) self)|].
  by apply (_check_security_hygiene_kept (keeps field) self).
Qed.

End crawl_effect.

(** X14. When the context and the page are created, the finished record
    holds one flow for the target followed by one flow for each crawled
    page, in the order of the crawl; the crawled pages are distinct and at
    most [max_pages - 1] (none when [max_pages] is 1); the visited set is
    made of the crawled pages and, when it could be loaded, the target.  So
    for a fresh audit the number of pages visited is the number of flows
    when the target loads, and one less when it does not. *)
Theorem flows_follow_the_crawl (env : Env) (self : AuditRunner) (a0 : AuditState) :
  create_authenticated_context env = Ok tt ->
  new_page env = Ok tt ->
  exists pages,
    map page_url (ui_flows (final env self a0))
    = map page_url (ui_flows a0) ++ url a0 :: pages
    /\ visited_urls (final env self a0)
       = list_to_set pages
         ∪ match initial_goto env with
           | Ok _ => {[ url a0 ]} ∪ visited_urls a0
           | Raise _ => visited_urls a0
           end
    /\ NoDup pages
    /\ within_budget a0 pages
    /\ (max_pages (options a0) = 1 -> pages = [])
    /\ (ui_flows a0 = [] -> visited_urls a0 = ∅ ->
        Z.of_nat (size (visited_urls (final env self a0)))
        = match initial_goto env with
          | Ok _ => Z.of_nat (length (ui_flows (final env self a0)))
          | Raise _ => Z.of_nat (length (ui_flows (final env self a0))) - 1
          end).
Proof.
  intros Hctx Hpage.
  destruct (run_completes env self a0 Hctx Hpage) as [Hfinal _].
  assert (Hflows : ui_flows (final env self a0)
                   = ui_flows (audit (snd (audit_phases env self (entered a0)))))
    by (by rewrite Hfinal).
  assert (Hvisited : visited_urls (final env self a0)
                     = visited_urls (audit (snd (audit_phases env self (entered a0)))))
    by (by rewrite Hfinal).
  rewrite audit_phases_snd in Hflows, Hvisited.
  rewrite (later_phases_keep env self ui_flows) in Hflows by keeps_field.
  rewrite (later_phases_keep env self visited_urls) in Hvisited by keeps_field.
  set (w1 := snd (_check_initial_availability env self (entered a0))) in *.
  destruct (_check_initial_availability_effect env self (entered a0)) as [Hf1 Hv1].
  fold w1 in Hf1, Hv1.
  assert (Ho1 : options (audit w1) = options a0).
  { subst w1. etrans;
      [apply (_check_initial_availability_kept (keeps options) self); keeps_field|done]. }
  destruct (_crawl_and_audit_effect env self w1)
    as (pages & Hf2 & Hv2 & Hnodup & Hfresh & Hbudget & Hone).
  rewrite <- Hflows in Hf2. rewrite <- Hvisited in Hv2.
  change (url (audit (entered a0))) with (url a0) in *.
  change (ui_flows (audit (entered a0))) with (ui_flows a0) in *.
  change (visited_urls (audit (entered a0))) with (visited_urls a0) in *.
  exists pages. split_and!.
  - by rewrite Hf2, Hf1, <- app_assoc.
  - by rewrite Hv2, Hv1.
  - done.
  - unfold within_budget in *. by rewrite <- Ho1.
  - by rewrite <- Ho1.
  - intros Hnone Hempty.
    assert (Hlen : length (ui_flows (final env self a0)) = S (length pages)).
    { rewrite <- (length_map page_url), Hf2, Hf1, Hnone. done. }
    rewrite Hv2, Hv1, Hlen, Hempty.
    assert (Hpages : size (list_to_set pages : gset string) = length pages)
      by (by apply size_list_to_set).
    destruct (initial_goto env) as [r|e].
    + rewrite size_union.
      * rewrite Hpages, union_empty_r_L, size_singleton. lia.
      * intros u Hu Hu'. apply (Hfresh u); [by apply elem_of_list_to_set in Hu|].
        rewrite Hv1. set_solver.
    + rewrite union_empty_r_L, Hpages. lia.
Qed.

Lemma flows_follow_the_crawl_witness :
  exists pages,
    map page_url (ui_flows (final hostile_env example_runner example_audit))
    = url example_audit :: pages
    /\ visited_urls (final hostile_env example_runner example_audit) = list_to_set pages
    /\ Z.of_nat (length pages) <= 19.
Proof.
  destruct (flows_follow_the_crawl hostile_env example_runner example_audit eq_refl eq_refl)
    as (pages & Hflows & Hvisited & _ & Hbudget & _).
  exists pages. split_and!.
  - exact Hflows.
  - rewrite Hvisited. simpl. by rewrite union_empty_r_L.
  - apply Hbudget. simpl. lia.
Defined.

(** ** The screenshots of a run *)

Lemma append_cancel_l (s t t' : string) : s +:+ t = s +:+ t' -> t = t'.
Proof. induction s as [|c s IH]; simpl; [done|]. intros [= H]. by apply IH. Qed.

Lemma append_length (s t : string) :
  String.length (s +:+ t) = (String.length s + String.length t)%nat.
Proof. induction s as [|c s IH]; simpl; [done|]. by rewrite IH. Qed.

Lemma append_cancel_r (s s' t : string) : s +:+ t = s' +:+ t -> s = s'.
Proof.
  revert s'. induction s as [|c s IH]; intros [|c' s'] H; simpl in H.
  - done.
  - apply (f_equal String.length) in H. simpl in H. rewrite !append_length in H. simpl in H. lia.
  - apply (f_equal String.length) in H. simpl in H. rewrite !append_length in H. simpl in H. lia.
  - injection H as -> H. f_equal. by apply IH.
Qed.

Lemma path_join_inj (dir x y : string) : path_join dir x = path_join dir y -> x = y.
Proof.
  unfold path_join. destruct dir as [|c dir]; [done|].
  destruct (endswith_slash (String c dir)); intros H.
  - by apply append_cancel_l in H.
  - apply append_cancel_l in H. by apply (append_cancel_l "/") in H.
Qed.

Lemma shot_path_inj (dir : string) (n m : nat) : shot_path dir n = shot_path dir m -> n = m.
Proof.
  unfold shot_path. intros H. apply path_join_inj in H.
  apply append_cancel_l in H. apply append_cancel_r in H.
  apply (inj pretty) in H. lia.
Qed.

Lemma numbered_NoDup (a : AuditState) : numbered a -> NoDup (screenshots a).
Proof.
  unfold numbered. intros ->.
  assert (Hinj : Inj (=) (=) (shot_path (artifacts_dir a)))
    by (intros n m; apply shot_path_inj).
  apply (NoDup_fmap_2 (shot_path (artifacts_dir a))), NoDup_seq.
Qed.

#[export] Instance numbering_refl : Reflexive numbering.
Proof. by intros a. Qed.

#[export] Instance numbering_trans : Transitive numbering.
Proof. intros a b c [D1 N1] [D2 N2]. split; [congruence|auto]. Qed.

Lemma numbering_screenshot (a : AuditState) :
  numbering a
    (set_screenshots
       (screenshots a ++ [shot_path (artifacts_dir a) (length (screenshots a))]) a).
Proof.
  split; [done|]. unfold numbered. simpl. intros H.
  rewrite length_app. simpl length. rewrite seq_app, List.map_app, <- H. done.
Qed.

Ltac numbering_field := intros; split; [reflexivity|unfold numbered; simpl; tauto].

(** X15. In a run that starts with no screenshot, at every moment the
    screenshots of the record lie in the artifacts directory of the audit
    and are numbered from 0 in the order in which they were taken, so no two
    of them share a path and none overwrites another. *)
Theorem screenshots_never_collide (env : Env) (self : AuditRunner) (a0 : AuditState) :
  screenshots a0 = [] ->
  Forall (fun s =>
            screenshots s
            = map (shot_path (artifacts_dir a0)) (seq 0 (length (screenshots s)))
            /\ NoDup (screenshots s))
    (moments env self a0).
Proof.
  intros Hnone.
  assert (Hkept : Forall (numbering a0) (moments env self a0)).
  { apply (moments_kept numbering self); first [ apply numbering_screenshot | numbering_field ]. }
  eapply Forall_impl; [exact Hkept|].
  intros s [Hdir Hnum].
  assert (Hs : numbered s) by (apply Hnum; unfold numbered; by rewrite Hnone).
  split; [|by apply numbered_NoDup].
  rewrite <- Hdir. exact Hs.
Qed.

Lemma screenshots_never_collide_witness :
  Forall (fun s => NoDup (screenshots s)) (moments quiet_env example_runner example_audit).
Proof.
  eapply Forall_impl;
    [exact (screenshots_never_collide quiet_env example_runner example_audit eq_refl)|].
  intros s [_ H]. exact H.
Defined.

(** ** The progress of a run *)

Lemma rising_app (l l' : list AuditState) :
  rising (l ++ l')
  <-> rising l /\ rising l'
      /\ Forall (fun a => Forall (fun b => percent (progress a) <= percent (progress b)) l') l.
Proof.
  induction l as [|a l IH]; simpl.
  - split; [intros H; split_and!; auto|tauto].
  - rewrite IH, Forall_app, Forall_cons. tauto.
Qed.

Lemma rising_same (p : Z) (l : list AuditState) :
  Forall (fun s => percent (progress s) = p) l -> rising l.
Proof.
  induction 1 as [|a l Ha Hl IH]; simpl; [done|]. split; [|done].
  eapply Forall_impl; [exact Hl|]. intros b Hb. simpl in *. lia.
Qed.

Lemma upto_weaken (b b' : Z) (w : World) : b <= b' -> upto b w -> upto b' w.
Proof. intros Hle (H1 & H2 & H3). split_and!; try done. lia. Qed.

Lemma climbs_weaken {A} (lo hi hi' : Z) (m : M A) :
  hi <= hi' -> climbs lo hi m -> climbs lo hi' m.
Proof. intros Hle Hm w Hw. eapply upto_weaken; [exact Hle|]. by apply Hm. Qed.

(** A computation that does not assign the progress stays at its level. *)
Lemma climbs_steps {A} (b : Z) (m : M A) :
  steps (keeps (fun a => percent (progress a))) m -> climbs b b m.
Proof.
  intros Hm w (Hrise & Hbelow & Hb).
  destruct (Hm w) as (Hfin & ext & Htrace & Hext). unfold keeps in *.
  unfold upto. rewrite Htrace, Hfin. split_and!; [|apply Forall_app; split|done].
  - apply rising_app. split_and!; [done| |].
    + by apply (rising_same (percent (progress (audit w)))).
    + eapply Forall_impl; [exact Hbelow|]. intros a Ha.
      eapply Forall_impl; [exact Hext|]. intros s Hs. simpl in *. lia.
  - done.
  - eapply Forall_impl; [exact Hext|]. intros s Hs. simpl in *. lia.
Qed.

Lemma climbs_report (lo p : Z) stage current_url message :
  lo <= p -> climbs lo p (report_progress stage p current_url message).
Proof.
  intros Hle w (Hrise & Hbelow & Hb). unfold upto. simpl. split_and!; [done| |lia].
  eapply Forall_impl; [exact Hbelow|]. intros s Hs. simpl in *. lia.
Qed.

Lemma climbs_bind {A B} (lo mid hi : Z) (m : M A) (f : A -> M B) :
  mid <= hi -> climbs lo mid m -> (forall x, climbs mid hi (f x)) -> climbs lo hi (m ≫= f).
Proof.
  intros Hle Hm Hf w Hw. specialize (Hm w Hw). unfold mbind, M_bind.
  destruct (m w) as [[x|e] w1]; simpl in *.
  - by apply Hf.
  - by eapply upto_weaken.
Qed.

Lemma climbs_try {A} (lo mid hi : Z) (body : M A) (handler : string -> M A) :
  mid <= hi -> climbs lo mid body -> (forall e, climbs mid hi (handler e)) ->
  climbs lo hi (try_except body handler).
Proof.
  intros Hle Hm Hf w Hw. specialize (Hm w Hw). unfold try_except.
  destruct (body w) as [[x|e] w1]; simpl in *.
  - by eapply upto_weaken.
  - by apply Hf.
Qed.

Section progress.
Context (env : Env) (self : AuditRunner).
Hypothesis Hgrows : loop_percent_grows env.

#[local] Abbreviation quiet := (keeps (fun a => percent (progress a))).

Ltac quiet_steps :=
  repeat first
    [ apply (_capture_live_preview_kept quiet self); keeps_field
    | apply (_discover_links_kept quiet self); keeps_field
    | apply (_audit_page_kept quiet self); keeps_field
    | steps_step
    | lazymatch goal with
      | |- steps ?R (mutate _) => apply (steps_mutate R); intros ?; reflexivity
      end ].

Lemma _check_initial_availability_climbs :
  climbs 5 10 (_check_initial_availability env self).
Proof.
  unfold _check_initial_availability.
  apply (climbs_bind 5 5 10); [lia|apply climbs_steps; quiet_steps|intros a].
  apply (climbs_bind 5 10 10); [lia|by apply climbs_report|intros _].
  apply climbs_steps. quiet_steps.
Qed.

Lemma crawl_loop_climbs (total : Z) (pages : list string) : forall (i : nat) (lo : Z),
  Z.of_nat i + Py.len pages = total ->
  lo <= 80 ->
  (forall j, Z.of_nat i <= j < total -> lo <= 20 + loop_percent env j total) ->
  climbs lo 80 (crawl_loop env self total i pages).
Proof.
  induction pages as [|u rest IH]; intros i lo Htotal Hlo Hnext; simpl.
  - apply (climbs_weaken lo lo 80); [lia|]. apply climbs_steps. quiet_steps.
  - unfold Py.len in Htotal. simpl length in Htotal.
    assert (Hi : 0 <= Z.of_nat i <= Z.of_nat i /\ Z.of_nat i < total) by lia.
    destruct (Hgrows (Z.of_nat i) (Z.of_nat i) total (proj1 Hi) (proj2 Hi)) as [Hpos H60].
    set (p := 20 + loop_percent env (Z.of_nat i) total).
    apply (climbs_bind lo p 80); [lia|apply climbs_report; apply Hnext; lia|intros _].
    apply (climbs_bind p p 80); [lia|apply climbs_steps; quiet_steps|intros _].
    apply (climbs_bind p p 80); [lia|apply climbs_steps; quiet_steps|intros _].
    apply (climbs_bind p p 80); [lia|apply climbs_steps; quiet_steps|intros _].
    apply IH.
    + unfold Py.len. lia.
    + lia.
    + intros j Hj. subst p.
      destruct (Hgrows (Z.of_nat i) j total) as [Hmono _]; lia.
Qed.

Lemma _crawl_and_audit_climbs : climbs 10 80 (_crawl_and_audit env self).
Proof.
  unfold _crawl_and_audit.
  apply (climbs_bind 10 20 80); [lia|by apply climbs_report|intros _].
  apply (climbs_bind 20 20 80); [lia|apply climbs_steps; quiet_steps|intros _].
  apply (climbs_bind 20 20 80); [lia|apply climbs_steps; quiet_steps|intros a].
  apply crawl_loop_climbs; [lia|lia|].
  intros j Hj. destruct (Hgrows j j (Py.len (pages_to_visit a))); lia.
Qed.

Lemma _check_security_hygiene_climbs : climbs 80 85 (_check_security_hygiene env self).
Proof.
  unfold _check_security_hygiene.
  apply (climbs_bind 80 85 85); [lia|by apply climbs_report|intros _].
  apply climbs_steps. quiet_steps.
Qed.

Lemma _run_accessibility_checks_climbs :
  climbs 85 90 (_run_accessibility_checks env self).
Proof.
  unfold _run_accessibility_checks.
  apply (climbs_bind 85 85 90); [lia|apply climbs_steps; quiet_steps|intros a].
  destruct (negb _).
  - apply (climbs_weaken 85 85 90); [lia|]. apply climbs_steps. quiet_steps.
  - apply (climbs_bind 85 90 90); [lia|by apply climbs_report|intros _].
    apply climbs_steps. quiet_steps.
Qed.

Lemma audit_phases_climbs : climbs 5 90 (audit_phases env self).
Proof.
  unfold audit_phases.
  apply (climbs_bind 5 10 90); [lia|apply _check_initial_availability_climbs|intros _].
  apply (climbs_bind 10 80 90); [lia|apply _crawl_and_audit_climbs|intros _].
  apply (climbs_bind 80 85 90); [lia|apply _check_security_hygiene_climbs|intros _].
  apply _run_accessibility_checks_climbs.
Qed.

End progress.

(** X16. When the context and the page are created and the percentages of
    the crawl loop grow with the index and stay within 60, the percentage of
    the progress never decreases from one observable moment of the run to
    the next, stays between 0 and 100, and is 100 at the end. *)
Theorem progress_never_decreases (env : Env) (self : AuditRunner) (a0 : AuditState) :
  create_authenticated_context env = Ok tt ->
  new_page env = Ok tt ->
  loop_percent_grows env ->
  0 <= percent (progress a0) <= 5 ->
  rising (moments env self a0)
  /\ Forall (fun s => 0 <= percent (progress s) <= 100) (moments env self a0)
  /\ percent (progress (final env self a0)) = 100.
Proof.
  intros Hctx Hpage Hgrows Ha0.
  destruct (run_completes env self a0 Hctx Hpage) as (Hfinal & tail & Htrace & Htail).
  assert (H100 : percent (progress (final env self a0)) = 100) by (by rewrite Hfinal).
  assert (Hentered : upto 5 (entered a0)).
  { unfold upto. simpl. split_and!.
    - apply Forall_singleton. simpl. lia.
    - apply List.Forall_nil.
    - done.
    - repeat (apply List.Forall_cons; [simpl; lia|]). apply List.Forall_nil.
    - lia. }
  destruct (audit_phases_climbs env self Hgrows (entered a0) Hentered)
    as (Hrise & Hbelow & H90).
  destruct (audit_phases_steps self env (entered a0)) as (pages & _ & _ & ext & Hext & _).
  set (w4 := snd (audit_phases env self (entered a0))) in *.
  assert (Hfrom5 : Forall (fun s => 5 <= percent (progress s)) (trace w4)).
  { rewrite Hext in Hrise |- *. simpl in Hrise |- *.
    destruct Hrise as (Hfirst & _). inversion Hfirst as [|? ? Hsecond Hrest]; subst.
    repeat (apply List.Forall_cons; [simpl; lia|]). exact Hrest. }
  assert (Htail100 : Forall (fun s => percent (progress s) = 100) (tail ++ [final env self a0])).
  { apply Forall_app. split; [|by apply Forall_singleton].
    eapply Forall_impl; [exact Htail|]. by intros s ->. }
  unfold moments. fold (final env self a0). rewrite Htrace, <- app_assoc.
  split_and!; [|apply List.Forall_cons; [lia|apply Forall_app; split]|done].
  - simpl. split.
    + apply Forall_app. split.
      * eapply Forall_impl; [exact Hfrom5|]. intros s Hs. simpl in *. lia.
      * eapply Forall_impl; [exact Htail100|]. intros s Hs. simpl in *. lia.
    + apply rising_app. split_and!; [done|by apply (rising_same 100)|].
      rewrite Forall_forall in Hbelow |- *. intros a Ha. specialize (Hbelow a Ha).
      eapply Forall_impl; [exact Htail100|]. intros s Hs. simpl in *. lia.
  - rewrite Forall_forall in Hbelow, Hfrom5 |- *. intros s Hs.
    specialize (Hbelow s Hs). specialize (Hfrom5 s Hs). simpl in *. lia.
  - eapply Forall_impl; [exact Htail100|]. intros s Hs. simpl in *. lia.
Qed.

Lemma quiet_env_loop_percent_grows : loop_percent_grows quiet_env.
Proof.
  intros i j total Hij Hj. simpl.
  rewrite Z.max_l by lia.
  split_and!.
  - apply Z.div_pos; lia.
  - apply Z.div_le_mono; lia.
  - apply Z.div_le_upper_bound; lia.
Qed.

Lemma progress_never_decreases_witness :
  rising (moments quiet_env example_runner example_audit)
  /\ percent (progress (final quiet_env example_runner example_audit)) = 100.
Proof.
  destruct (progress_never_decreases quiet_env example_runner example_audit
              eq_refl eq_refl quiet_env_loop_percent_grows) as (H1 & _ & H2).
  - simpl. lia.
  - exact (conj H1 H2).
Defined.

(** ** The live preview *)

Lemma _capture_live_preview_due (self : AuditRunner) (pv : PreviewEnv) (w : World) :
  page w = true -> page_is_closed pv = false ->
  1000 <= time_ms pv - _last_preview_capture_s w ->
  snd (_capture_live_preview self pv w)
  = {| audit := match preview_screenshot pv with
                | Ok _ => set_preview_updated_at (Some (time_ms pv))
                            (set_preview_image_path (Some (_preview_path self)) (audit w))
                | Raise _ => audit w
                end;
       context := context w; page := page w;
       _last_preview_capture_s := time_ms pv;
       trace := trace w ++ [audit w] |}.
Proof.
  intros Hpage Hopen Hdue.
  unfold _capture_live_preview, try_except, mbind, M_bind, read_world, mret, M_ret,
    set_last_preview_capture, await, mutate.
  rewrite Hpage, Hopen, (proj2 (Z.ltb_ge _ _) Hdue). simpl.
  destruct (preview_screenshot pv) as [[]|e]; simpl; by rewrite Hpage.
Qed.

(** X17. [_capture_live_preview] never raises.  An attempt made less than a
    second after the last one changes nothing at all.  An attempt that is
    made is remembered at once, whether its screenshot succeeds or not, so
    any attempt within the next second changes nothing; the record gets the
    preview path and time only when the screenshot succeeded. *)
Theorem preview_is_throttled (self : AuditRunner) (pv : PreviewEnv) (w : World) :
  fst (_capture_live_preview self pv w) = Ok tt
  /\ (time_ms pv - _last_preview_capture_s w < 1000 ->
      _capture_live_preview self pv w = (Ok tt, w))
  /\ (page w = false \/ page_is_closed pv = true ->
      _capture_live_preview self pv w = (Ok tt, w))
  /\ (page w = true -> page_is_closed pv = false ->
      1000 <= time_ms pv - _last_preview_capture_s w ->
      let w' := snd (_capture_live_preview self pv w) in
      _last_preview_capture_s w' = time_ms pv
      /\ (forall pv', time_ms pv' - time_ms pv < 1000 ->
            _capture_live_preview self pv' w' = (Ok tt, w'))
      /\ match preview_screenshot pv with
         | Ok _ => preview_image_path (audit w') = Some (_preview_path self)
                   /\ preview_updated_at (audit w') = Some (time_ms pv)
         | Raise _ => audit w' = audit w
         end).
Proof.
  assert (Hskip : forall pv0 w0, time_ms pv0 - _last_preview_capture_s w0 < 1000 ->
            _capture_live_preview self pv0 w0 = (Ok tt, w0)).
  { intros pv0 w0 Hlt.
    unfold _capture_live_preview, try_except, mbind, M_bind, read_world, mret, M_ret.
    destruct (negb (page w0) || page_is_closed pv0); [done|].
    by rewrite (proj2 (Z.ltb_lt _ _) Hlt). }
  split_and!.
  - destruct (_capture_live_preview_safe self pv w) as [[] H]. exact H.
  - apply Hskip.
  - intros Hoff.
    unfold _capture_live_preview, try_except, mbind, M_bind, read_world, mret, M_ret.
    by destruct Hoff as [-> | ->]; [|rewrite orb_true_r].
  - intros Hpage Hopen Hdue w'. subst w'.
    rewrite (_capture_live_preview_due self pv w Hpage Hopen Hdue).
    split_and!; [done|intros pv' Hlt; by apply Hskip|].
    by destruct (preview_screenshot pv) as [[]|e].
Qed.

(** ** Cookie flags *)

Lemma cookie_flag_issues_nil (cookie : Cookie) :
  cookie_flag_issues cookie = [] <-> lacks_flag cookie = false.
Proof.
  unfold cookie_flag_issues, lacks_flag.
  destruct (secure cookie), (httpOnly cookie), (sameSite cookie) as [v|]; simpl;
    try destruct (negb (Py.truthy v) || String.eqb v "None"); simpl; split; done.
Qed.

Lemma cookie_flag_issues_length (cookie : Cookie) :
  (length (cookie_flag_issues cookie) <= 3)%nat.
Proof.
  unfold cookie_flag_issues.
  destruct (secure cookie), (httpOnly cookie), (sameSite cookie) as [v|]; simpl;
    try destruct (negb (Py.truthy v) || String.eqb v "None"); simpl; lia.
Qed.

Lemma cookie_loop_acc (cookies : list Cookie) : forall acc,
  cookie_loop cookies acc = acc ++ cookie_loop cookies [].
Proof.
  induction cookies as [|c rest IH]; intros acc; simpl.
  - by rewrite app_nil_r.
  - destruct (cookie_flag_issues c) as [|i more].
    + apply IH.
    + rewrite (IH (acc ++ _)), (IH [_]). by rewrite <- !app_assoc.
Qed.

Lemma flagged_cookies_filter (cookies : list Cookie) :
  Forall (fun c => secure c = true /\ httpOnly c = true
                   /\ exists v, sameSite c = Some v /\ v <> "" /\ v <> "None") cookies ->
  List.filter lacks_flag cookies = [].
Proof.
  induction 1 as [|c rest (Hs & Hh & v & Hv & Hne & Hnn) _ IH]; simpl; [done|].
  unfold lacks_flag at 1. rewrite Hs, Hh, Hv.
  assert (Py.truthy v = true) as -> by (by destruct v).
  assert (String.eqb v "None" = false) as -> by (by apply String.eqb_neq).
  exact IH.
Qed.

(** X18. The cookie issues of the security check are, in order, one entry
    for each cookie that lacks the Secure flag, lacks the HttpOnly flag or
    has SameSite unset, empty or "None"; each entry lists between one and
    three issues, and a cookie with all three flags yields no entry. *)
Theorem cookie_issues_are_the_unflagged_cookies (cookies : list Cookie) :
  map (fun i => (cookie_name i, cookie_domain i, issues i)) (cookie_loop cookies [])
  = map (fun c => (default "unknown" (name c), default "" (domain c), cookie_flag_issues c))
      (List.filter lacks_flag cookies)
  /\ Forall (fun i => (1 <= length (issues i) <= 3)%nat) (cookie_loop cookies [])
  /\ (Forall (fun c => secure c = true /\ httpOnly c = true
                       /\ exists v, sameSite c = Some v /\ v <> "" /\ v <> "None")
        cookies ->
      cookie_loop cookies [] = []).
Proof.
  assert (Hmain :
    map (fun i => (cookie_name i, cookie_domain i, issues i)) (cookie_loop cookies [])
    = map (fun c => (default "unknown" (name c), default "" (domain c), cookie_flag_issues c))
        (List.filter lacks_flag cookies)
    /\ Forall (fun i => (1 <= length (issues i) <= 3)%nat) (cookie_loop cookies [])).
  { induction cookies as [|c rest [IH1 IH2]]; simpl; [by split|].
    pose proof (cookie_flag_issues_nil c) as Hnil.
    pose proof (cookie_flag_issues_length c) as Hlen.
    destruct (cookie_flag_issues c) as [|i more] eqn:Hissues.
    - rewrite (proj1 Hnil eq_refl). by split.
    - destruct (lacks_flag c); [|discriminate (proj2 Hnil eq_refl)].
      rewrite cookie_loop_acc. simpl. rewrite IH1, Hissues. split; [done|].
      apply List.Forall_cons; [simpl in *; lia|done]. }
  destruct Hmain as [H1 H2]. split_and!; [done|done|].
  intros Hall.
  assert (Hnone := flagged_cookies_filter cookies Hall).
  rewrite Hnone in H1. simpl in H1. by destruct (cookie_loop cookies []).
Qed.

Lemma cookie_issues_are_the_unflagged_cookies_witness :
  cookie_loop [ {| name := Some "sid"; domain := Some "example.test"; secure := true;
                   httpOnly := true; sameSite := Some "Lax" |} ] [] = [].
Proof.
  apply (cookie_issues_are_the_unflagged_cookies
           [ {| name := Some "sid"; domain := Some "example.test"; secure := true;
                httpOnly := true; sameSite := Some "Lax" |} ]).
  apply Forall_singleton. simpl. split_and!; [done|done|].
  exists "Lax". split_and!; [done|discriminate|discriminate].
Defined.

(** ** Session manager *)

(** X19. A session that [create_session] registers is returned by
    [get_session] up to and including its expiry time, which is the TTL after
    its creation; the first lookup after that returns nothing and removes the
    session, leaving the others alone, and from then on no lookup returns it
    and it cannot be marked authenticated, whatever the clock reads. *)
Theorem session_lives_for_its_ttl (manager : Sessions.SessionManager)
    (ARTIFACTS_DIR : string) (ttl : Z) (session_id target : string) (now : Z) :
  let created := Sessions.create_session manager ARTIFACTS_DIR ttl session_id target now in
  Sessions.expires_at (fst created) = now + ttl * 60 * 1000000
  /\ Sessions.is_authenticated (fst created) = false
  /\ Sessions.status (fst created) = Sessions.STARTED
  /\ (forall t, t <= Sessions.expires_at (fst created) ->
        Sessions.get_session (snd created) session_id t = (Some (fst created), snd created))
  /\ (forall t, Sessions.expires_at (fst created) < t ->
        let swept := snd (Sessions.get_session (snd created) session_id t) in
        fst (Sessions.get_session (snd created) session_id t) = None
        /\ swept !! session_id = None
        /\ (forall other, other <> session_id -> swept !! other = manager !! other)
        /\ (forall t', Sessions.get_session swept session_id t' = (None, swept))
        /\ (forall t', Sessions.mark_authenticated swept session_id t' = (false, swept))).
Proof.
  intros created. subst created. unfold Sessions.create_session. simpl.
  split_and!; try done.
  - intros t Ht. unfold Sessions.get_session, Sessions.is_expired.
    rewrite lookup_insert_eq. simpl.
    by rewrite (proj2 (Z.ltb_ge _ _) Ht).
  - intros t Ht. unfold Sessions.get_session, Sessions._cleanup_session, Sessions.is_expired.
    rewrite lookup_insert_eq. simpl.
    rewrite (proj2 (Z.ltb_lt _ _) Ht). simpl.
    split_and!; try done.
    + by rewrite lookup_delete_eq.
    + intros other Hne. by rewrite lookup_delete_ne, lookup_insert_ne.
    + intros t'. unfold Sessions.get_session. by rewrite lookup_delete_eq.
    + intros t'. unfold Sessions.mark_authenticated. by rewrite lookup_delete_eq.
Qed.

(** X20. [mark_authenticated] succeeds exactly on a registered session that
    has not expired; it then sets the authenticated flag and the status of
    that session, keeps its other fields and the other sessions, and a later
    lookup before expiry returns the session authenticated.  When it fails
    nothing changes: an expired session is not removed by it. *)
Theorem mark_authenticated_effect (manager : Sessions.SessionManager)
    (session_id : string) (utcnow : Z) :
  let marked := Sessions.mark_authenticated manager session_id utcnow in
  (fst marked = true
   <-> exists s, manager !! session_id = Some s /\ utcnow <= Sessions.expires_at s)
  /\ (fst marked = false -> snd marked = manager)
  /\ (forall other, other <> session_id -> snd marked !! other = manager !! other)
  /\ (forall s, manager !! session_id = Some s -> utcnow <= Sessions.expires_at s ->
        exists s', snd marked !! session_id = Some s'
          /\ Sessions.is_authenticated s' = true
          /\ Sessions.status s' = Sessions.AUTHENTICATED
          /\ Sessions.session_id s' = Sessions.session_id s
          /\ Sessions.url s' = Sessions.url s
          /\ Sessions.created_at s' = Sessions.created_at s
          /\ Sessions.expires_at s' = Sessions.expires_at s
          /\ Sessions.storage_state_path s' = Sessions.storage_state_path s
          /\ (forall t, t <= Sessions.expires_at s ->
                Sessions.get_session (snd marked) session_id t = (Some s', snd marked))).
Proof.
  intros marked. subst marked. unfold Sessions.mark_authenticated, Sessions.is_expired.
  destruct (manager !! session_id) as [s|] eqn:Hs; simpl.
  - destruct (Sessions.expires_at s <? utcnow) eqn:Hexp; simpl.
    + apply Z.ltb_lt in Hexp. split_and!; try done.
      * split; [done|]. intros (s0 & [= <-] & Hle). lia.
      * intros s0 [= <-] Hle. lia.
    + apply Z.ltb_ge in Hexp. split_and!; try done.
      * split; [|done]. intros _. by exists s.
      * intros other Hne. by rewrite lookup_insert_ne.
      * intros s0 [= <-] _. eexists. rewrite lookup_insert_eq.
        split_and!; try done.
        intros t Ht. unfold Sessions.get_session, Sessions.is_expired.
        rewrite lookup_insert_eq. simpl. by rewrite (proj2 (Z.ltb_ge _ _) Ht).
  - split_and!; try done. split; [done|]. by intros (s0 & [=] & _).
Qed.

Lemma mark_authenticated_effect_witness :
  fst (Sessions.mark_authenticated
         (snd (Sessions.create_session ∅ "artifacts" 30 "session-1"
                 "https://example.test/" 1000000))
         "session-1" 2000000) = true.
Proof.
  apply (mark_authenticated_effect
           (snd (Sessions.create_session ∅ "artifacts" 30 "session-1"
                   "https://example.test/" 1000000)) "session-1" 2000000).
  eexists. split; [apply lookup_insert_eq|]. simpl. unfold Sessions.minutes. lia.
Defined.

Lemma cleanup_steps (ids : list string) : forall (cleaned : Z) (sessions : Sessions.SessionManager),
  NoDup ids ->
  (forall sid, sid ∈ ids -> is_Some (sessions !! sid)) ->
  let swept := fold_left Sessions.cleanup_step ids (cleaned, sessions) in
  fst swept = cleaned + Z.of_nat (length ids)
  /\ (forall sid, snd swept !! sid = if bool_decide (sid ∈ ids) then None else sessions !! sid)
  /\ size sessions = (length ids + size (snd swept))%nat.
Proof.
  induction ids as [|sid ids IH]; intros cleaned sessions Hnodup Hin; simpl.
  - split_and!; [lia|done|done].
  - apply NoDup_cons in Hnodup as [Hfresh Hnodup].
    unfold Sessions._cleanup_session.
    destruct (Hin sid) as [s Hs]; [by left|]. rewrite Hs.
    destruct (IH (cleaned + 1) (delete sid sessions) Hnodup) as (Hcount & Hlookup & Hsize).
    { intros sid' Hsid'. rewrite lookup_delete_ne by (intros ->; done).
      apply Hin. by right. }
    split_and!.
    + rewrite Hcount, ?Zpos_P_of_succ_nat. lia.
    + intros sid'. rewrite Hlookup.
      destruct (decide (sid' = sid)) as [->|Hne].
      * rewrite lookup_delete_eq.
        rewrite (bool_decide_eq_true_2 (sid ∈ sid :: ids)) by (by left).
        by destruct (bool_decide (sid ∈ ids)).
      * rewrite lookup_delete_ne by done.
        destruct (decide (sid' ∈ ids)) as [Hi|Hi].
        -- rewrite !bool_decide_eq_true_2; [done|by right|done].
        -- rewrite !bool_decide_eq_false_2; [done| |done].
           intros [?|?]%elem_of_cons; done.
    + rewrite <- Hsize.
      pose proof (map_size_delete_Some sid sessions (mk_is_Some _ _ Hs)).
      pose proof (map_size_ne_0_lookup_2 sessions sid (mk_is_Some _ _ Hs)).
      simpl. lia.
Qed.

(** X21. [cleanup_expired_sessions] removes exactly the sessions found
    expired when they are examined and keeps every other session untouched;
    the number it returns is the number of sessions removed; and counting the
    active sessions right after, with the same readings of the clock, gives
    all the sessions that are left. *)
Theorem cleanup_removes_the_expired (manager : Sessions.SessionManager)
    (clock : string -> Z) :
  let swept := Sessions.cleanup_expired_sessions manager clock in
  (forall sid, snd swept !! sid
               = match manager !! sid with
                 | Some s => if Sessions.is_expired s (clock sid) then None else Some s
                 | None => None
                 end)
  /\ Z.of_nat (size manager) = fst swept + Z.of_nat (size (snd swept))
  /\ 0 <= fst swept
  /\ Sessions.get_active_count (snd swept) clock = Z.of_nat (size (snd swept)).
Proof.
  intros swept. subst swept. unfold Sessions.cleanup_expired_sessions.
  set (expired := List.filter (fun item => Sessions.is_expired (snd item) (clock (fst item)))
                    (map_to_list manager)).
  assert (Hin : forall sid, sid ∈ map fst expired
                  <-> exists s, manager !! sid = Some s
                                /\ Sessions.is_expired s (clock sid) = true).
  { intros sid. subst expired. rewrite list_elem_of_In, in_map_iff. split.
    - intros ([sid' s] & <- & Hf). apply filter_In in Hf as [Hm He].
      exists s. split; [|done]. by apply elem_of_map_to_list, list_elem_of_In.
    - intros (s & Hs & He). exists (sid, s). split; [done|].
      apply filter_In. split; [|done]. by apply list_elem_of_In, elem_of_map_to_list. }
  assert (Hnodup : NoDup (map fst expired)).
  { subst expired. eapply sublist_NoDup; [apply (NoDup_fst_map_to_list manager)|].
    generalize (map_to_list manager). intros l.
    induction l as [|x l IH]; simpl; [done|].
    destruct (Sessions.is_expired _ _); simpl; [by apply sublist_skip|by apply sublist_cons]. }
  destruct (cleanup_steps (map fst expired) 0 manager Hnodup) as (Hcount & Hlookup & Hsize).
  { intros sid Hsid. apply Hin in Hsid as (s & -> & _). by eexists. }
  assert (Hleft : forall sid,
                    snd (fold_left Sessions.cleanup_step (map fst expired) (0, manager)) !! sid
                  = match manager !! sid with
                    | Some s => if Sessions.is_expired s (clock sid) then None else Some s
                    | None => None
                    end).
  { intros sid. rewrite Hlookup.
    destruct (decide (sid ∈ map fst expired)) as [Hi|Hi].
    - rewrite bool_decide_eq_true_2 by done. apply Hin in Hi as (s & -> & ->). done.
    - rewrite bool_decide_eq_false_2 by done.
      destruct (manager !! sid) as [s|] eqn:Hs; [|done].
      destruct (Sessions.is_expired s (clock sid)) eqn:He; [|done].
      destruct Hi. apply Hin. by exists s. }
  split_and!.
  - exact Hleft.
  - rewrite Hcount. lia.
  - rewrite Hcount. lia.
  - unfold Sessions.get_active_count, Py.len.
    rewrite <- length_map_to_list. f_equal. f_equal.
    apply forallb_filter_id, forallb_forall. intros [sid s] Hitem. simpl.
    apply list_elem_of_In, elem_of_map_to_list in Hitem.
    rewrite Hleft in Hitem.
    destruct (manager !! sid) as [s0|]; [|done].
    destruct (Sessions.is_expired s0 (clock sid)) eqn:He; [done|].
    injection Hitem as <-. by rewrite He.
Qed.

(** ** URL validation *)

Lemma lstrip_length (s : string) : (String.length (Py.lstrip s) <= String.length s)%nat.
Proof.
  induction s as [|c r IH]; simpl; [done|]. destruct (Py.isspace c); simpl; lia.
Qed.

Lemma lstrip_idem (s : string) : Py.lstrip (Py.lstrip s) = Py.lstrip s.
Proof.
  induction s as [|c r IH]; simpl; [done|].
  destruct (Py.isspace c) eqn:Hc; [done|]. simpl. by rewrite Hc.
Qed.

Lemma rstrip_idem (s : string) : Py.rstrip (Py.rstrip s) = Py.rstrip s.
Proof.
  induction s as [|c r IH]; simpl; [done|].
  destruct (Py.rstrip r) as [|d r'] eqn:Hr.
  - destruct (Py.isspace c) eqn:Hc; simpl; [done|]. by rewrite Hc.
  - simpl in *. by rewrite IH.
Qed.

Lemma lstrip_rstrip (t : string) :
  Py.lstrip t = t -> Py.lstrip (Py.rstrip t) = Py.rstrip t.
Proof.
  destruct t as [|c r]; [done|]. intros Ht.
  assert (Hc : Py.isspace c = false).
  { simpl in Ht. destruct (Py.isspace c); [|done].
    pose proof (lstrip_length r) as Hlen. rewrite Ht in Hlen. simpl in Hlen. lia. }
  simpl. destruct (Py.rstrip r); rewrite ?Hc; simpl; by rewrite Hc.
Qed.

Lemma strip_idem (s : string) : Py.strip (Py.strip s) = Py.strip s.
Proof.
  unfold Py.strip. rewrite lstrip_rstrip by apply lstrip_idem. apply rstrip_idem.
Qed.

Lemma is_private_ip_false (ip_address : string -> option bool) (host : string) :
  is_private_ip ip_address host = false ->
  Py.lower host <> "localhost"
  /\ Py.lower host <> "localhost.localdomain"
  /\ Py.startswith "127." host = false
  /\ Py.startswith "10." host = false
  /\ match_172 host = false
  /\ Py.startswith "192.168." host = false
  /\ Py.startswith "169.254." host = false
  /\ ip_address host <> Some true.
Proof.
  unfold is_private_ip, PRIVATE_IP_PATTERNS.
  destruct (String.eqb (Py.lower host) "localhost") eqn:H1; [cbn [orb]; intros [=]|].
  destruct (String.eqb (Py.lower host) "localhost.localdomain") eqn:H2;
    [cbn [orb]; intros [=]|].
  cbn [orb existsb].
  destruct (Py.startswith "127." host); [cbn [orb]; intros [=]|].
  destruct (Py.startswith "10." host); [cbn [orb]; intros [=]|].
  destruct (match_172 host); [cbn [orb]; intros [=]|].
  destruct (Py.startswith "192.168." host); [cbn [orb]; intros [=]|].
  destruct (Py.startswith "169.254." host); [cbn [orb]; intros [=]|].
  cbn [orb].
  destruct (match_loopback6 host || _); [intros [=]|].
  intros Hip. apply String.eqb_neq in H1, H2. split_and!; try done.
  intros Heq. by rewrite Heq in Hip.
Qed.

(** X22. [validate_url] accepts exactly when it returns no error message,
    and white space around a URL never changes the verdict.  An accepted URL,
    once trimmed, starts with http:// or https://, parses with a non-empty
    netloc and a path without "..", and, unless private addresses are
    allowed, the text of its netloc before the first colon is not localhost
    in any letter case, does not begin with 127., 10., 172.16. to 172.31.,
    192.168. or 169.254., and is not an address that [ipaddress] finds
    private, loopback or link-local. *)
Theorem validate_url_accepts (ALLOW_PRIVATE_IPS : bool) (ip_address : string -> option bool)
    (url : string) :
  (fst (validate_url ALLOW_PRIVATE_IPS ip_address url) = true
   <-> snd (validate_url ALLOW_PRIVATE_IPS ip_address url) = "")
  /\ (Py.strip url <> "" ->
      validate_url ALLOW_PRIVATE_IPS ip_address (Py.strip url)
      = validate_url ALLOW_PRIVATE_IPS ip_address url)
  /\ (fst (validate_url ALLOW_PRIVATE_IPS ip_address url) = true ->
      exists parsed,
        UrlParse.urlparse (Py.strip url) = Some parsed
        /\ (Py.startswith "http://" (Py.strip url) = true
            \/ Py.startswith "https://" (Py.strip url) = true)
        /\ UrlParse.netloc parsed <> ""
        /\ occurs ".." (UrlParse.path parsed) = false
        /\ (ALLOW_PRIVATE_IPS = false ->
            let hostname := UrlParse.before ":" (UrlParse.netloc parsed) in
            Py.lower hostname <> "localhost"
            /\ Py.lower hostname <> "localhost.localdomain"
            /\ Py.startswith "127." hostname = false
            /\ Py.startswith "10." hostname = false
            /\ match_172 hostname = false
            /\ Py.startswith "192.168." hostname = false
            /\ Py.startswith "169.254." hostname = false
            /\ ip_address hostname <> Some true)).
Proof.
  split_and!.
  - unfold validate_url.
    destruct (negb (Py.truthy url)); [done|].
    destruct (negb (_ || _)); [done|].
    destruct (UrlParse.urlparse (Py.strip url)) as [parsed|]; [|done].
    destruct (negb (Py.truthy (UrlParse.netloc parsed))); [done|].
    destruct (negb ALLOW_PRIVATE_IPS && _); [done|].
    by destruct (occurs ".." (UrlParse.path parsed)).
  - intros Hne. unfold validate_url. rewrite strip_idem.
    assert (Py.truthy (Py.strip url) = true) as -> by (by destruct (Py.strip url)).
    assert (Py.truthy url = true) as -> by (by destruct url).
    done.
  - unfold validate_url.
    destruct (negb (Py.truthy url)); [done|].
    destruct (Py.startswith "http://" (Py.strip url) || Py.startswith "https://" (Py.strip url))
      eqn:Hscheme; [|done]. simpl.
    destruct (UrlParse.urlparse (Py.strip url)) as [parsed|]; [|done].
    destruct (Py.truthy (UrlParse.netloc parsed)) eqn:Hhost; [|done]. simpl.
    destruct (negb ALLOW_PRIVATE_IPS && _) eqn:Hprivate; [done|].
    destruct (occurs ".." (UrlParse.path parsed)) eqn:Hpath; [done|].
    intros _. exists parsed. split_and!; try done.
    + by apply orb_true_iff in Hscheme.
    + intros Hnil. by rewrite Hnil in Hhost.
    + intros ->. simpl in Hprivate. by apply is_private_ip_false.
Qed.

Lemma validate_url_accepts_witness :
  exists parsed,
    UrlParse.urlparse "https://example.test/about" = Some parsed
    /\ UrlParse.netloc parsed <> "".
Proof.
  destruct (validate_url_accepts false (fun _ => None) "  https://example.test/about ")
    as (_ & _ & H).
  destruct (H ltac:(vm_compute; reflexivity)) as (parsed & Hparsed & _ & Hhost & _).
  exists parsed. split; [exact Hparsed|exact Hhost].
Defined.

(** ** Accessibility impact *)

(** X23. The adapter gives every violation a severity of high, medium or
    low; a violation that the report builder counts as critical or serious
    is shown as high, and one that axe reports without an impact is recorded
    as moderate by the runner and shown as medium. *)
Theorem impact_severity_agrees (target : string) (v : AxeViolation) :
  let recorded := to_violation target v in
  In (_impact_to_severity (Some (impact recorded))) ["high"; "medium"; "low"]
  /\ (is_critical recorded = true -> _impact_to_severity (Some (impact recorded)) = "high")
  /\ (axe_impact v = None \/ axe_impact v = Some "" ->
      impact recorded = "moderate"
      /\ is_critical recorded = false
      /\ _impact_to_severity (Some (impact recorded)) = "medium").
Proof.
  intros recorded. split_and!.
  - unfold _impact_to_severity.
    destruct (negb (Py.truthy (impact recorded))); [simpl; tauto|].
    destruct (_ || _); [simpl; tauto|].
    destruct (String.eqb _ "moderate"); simpl; tauto.
  - unfold is_critical. intros Hcrit. apply orb_true_iff in Hcrit as [H|H];
      apply String.eqb_eq in H; by rewrite H.
  - subst recorded. unfold to_violation. simpl. by intros [-> | ->].
Qed.

Lemma impact_severity_agrees_witness :
  _impact_to_severity
    (Some (impact (to_violation "https://example.test/"
                     {| axe_id := "color-contrast"; axe_impact := Some "serious";
                        axe_description := "Elements must have sufficient contrast";
                        axe_helpUrl := None; axe_nodes := 3 |}))) = "high".
Proof.
  apply (impact_severity_agrees "https://example.test/"
           {| axe_id := "color-contrast"; axe_impact := Some "serious";
              axe_description := "Elements must have sufficient contrast";
              axe_helpUrl := None; axe_nodes := 3 |}).
  reflexivity.
Defined.

(** ** Sessions and audits *)

Lemma failed_run (env : Env) (self : AuditRunner) (a0 : AuditState) (e : string) :
  create_authenticated_context env = Raise e ->
  final env self a0 = failed e (started a0).
Proof.
  intros Hctx. pose proof (final_cases env self a0) as H. by rewrite Hctx in H.
Qed.

(** X24. When the context of a run is the one the browser manager makes from
    the sessions, the audit can end with status done only if its session is
    registered, has not expired, is authenticated and has its storage state
    on disk.  With a session that is unknown or expired, or not
    authenticated, the audit ends with status error and the matching
    message, no finishing time, and no flow or visited page added. *)
Theorem audit_needs_a_live_session (sessions : Sessions.SessionManager) (env : Env)
    (self : AuditRunner) (a0 : AuditState) (now : Z) (storage_state_exists : bool)
    (new_context : Result unit) :
  create_authenticated_context env
  = fst (Browser.create_authenticated_context sessions (session_id a0) now
           storage_state_exists new_context) ->
  (status (final env self a0) = DONE ->
   exists s, sessions !! session_id a0 = Some s
             /\ now <= Sessions.expires_at s
             /\ Sessions.is_authenticated s = true
             /\ storage_state_exists = true)
  /\ (forall reason,
        (reason = "Session " +:+ session_id a0 +:+ " not found"
         /\ (forall s, sessions !! session_id a0 = Some s -> Sessions.expires_at s < now))
        \/ (reason = "Session " +:+ session_id a0 +:+ " is not authenticated"
            /\ exists s, sessions !! session_id a0 = Some s
                         /\ now <= Sessions.expires_at s
                         /\ Sessions.is_authenticated s = false) ->
        status (final env self a0) = ERROR
        /\ error_message (final env self a0) = Some reason
        /\ finished_at (final env self a0) = finished_at a0
        /\ ui_flows (final env self a0) = ui_flows a0
        /\ visited_urls (final env self a0) = visited_urls a0).
Proof.
  intros Hctx.
  unfold Browser.create_authenticated_context, Sessions.get_session,
    Sessions._cleanup_session, Sessions.is_expired in Hctx.
  split.
  - intros Hdone.
    destruct (sessions !! session_id a0) as [s|] eqn:Hs.
    + destruct (Sessions.expires_at s <? now) eqn:Hexp.
      { simpl in Hctx. rewrite (failed_run env self a0 _ Hctx) in Hdone. done. }
      destruct (Sessions.is_authenticated s) eqn:Hauth; simpl in Hctx.
      2:{ rewrite (failed_run env self a0 _ Hctx) in Hdone. done. }
      destruct storage_state_exists; simpl in Hctx.
      2:{ rewrite (failed_run env self a0 _ Hctx) in Hdone. done. }
      exists s. split_and!; try done. by apply Z.ltb_ge.
    + simpl in Hctx. rewrite (failed_run env self a0 _ Hctx) in Hdone. done.
  - intros reason [[-> Hgone] | (-> & s & Hs & Hlive & Hauth)].
    + assert (Hraise : create_authenticated_context env
                       = Raise ("Session " +:+ session_id a0 +:+ " not found")).
      { destruct (sessions !! session_id a0) as [s|] eqn:Hs; [|done].
        by rewrite (proj2 (Z.ltb_lt _ _) (Hgone s eq_refl)) in Hctx. }
      by rewrite (failed_run env self a0 _ Hraise).
    + assert (Hraise : create_authenticated_context env
                       = Raise ("Session " +:+ session_id a0 +:+ " is not authenticated")).
      { rewrite Hs, (proj2 (Z.ltb_ge _ _) Hlive), Hauth in Hctx. done. }
      by rewrite (failed_run env self a0 _ Hraise).
Qed.

Lemma audit_needs_a_live_session_witness :
  status (final (session_env ∅ "session-1" 0 true) example_runner example_audit) = ERROR
  /\ error_message (final (session_env ∅ "session-1" 0 true) example_runner example_audit)
     = Some "Session session-1 not found".
Proof.
  destruct (audit_needs_a_live_session ∅ (session_env ∅ "session-1" 0 true)
              example_runner example_audit 0 true (Ok tt) eq_refl) as [_ H].
  destruct (H "Session session-1 not found") as (Hstatus & Hmessage & _).
  - left. split; [reflexivity|]. intros s Hs. by rewrite lookup_empty in Hs.
  - exact (conj Hstatus Hmessage).
Defined.

(** ** The listeners *)

Lemma min_penalty_le (k cap x y : Z) : 0 <= k -> x <= y -> Z.min (x * k) cap <= Z.min (y * k) cap.
Proof. intros Hk Hxy. nia. Qed.

(** More findings of a kind, with the flows, the security record and the
    accessibility violations as they were, give no better score. *)
Lemma build_score_le (a a' : AuditState) :
  Py.len (console_errors a) <= Py.len (console_errors a') ->
  Py.len (network_failures a) <= Py.len (network_failures a') ->
  Py.len (slow_endpoints a) <= Py.len (slow_endpoints a') ->
  Py.len (large_assets a) <= Py.len (large_assets a') ->
  ui_flows a' = ui_flows a ->
  security_hygiene a' = security_hygiene a ->
  accessibility_violations a' = accessibility_violations a ->
  report_score (build a') <= report_score (build a)
  /\ total_category_score (report_category_scores (build a'))
     <= total_category_score (report_category_scores (build a)).
Proof.
  intros Hc Hn Hs Hl Hu Hh Ha.
  unfold build, _calculate_category_scores, calculate_score, _count_security_issues,
    total_category_score. simpl. rewrite Hu, Hh, Ha.
  pose proof (min_penalty_le 2 20 _ _ ltac:(lia) Hc).
  pose proof (min_penalty_le 3 20 _ _ ltac:(lia) Hn).
  assert (Z.min (Py.len (slow_endpoints a)) 10 <= Z.min (Py.len (slow_endpoints a')) 10) by lia.
  split; lia.
Qed.

(** What one event may change in the record: it appends to the console
    errors, the network failures, the slow endpoints or the large assets,
    counts a request, and leaves the rest as it is. *)
Lemma deliver_frame (event : PageEvent) (state : AuditState * gmap string Z) :
  let a := fst state in
  let a' := fst (deliver event state) in
  (exists l, console_errors a' = console_errors a ++ l)
  /\ (exists l, network_failures a' = network_failures a ++ l)
  /\ (exists l, slow_endpoints a' = slow_endpoints a ++ l)
  /\ (exists l, large_assets a' = large_assets a ++ l)
  /\ total_requests a <= total_requests a'
  /\ ui_flows a' = ui_flows a
  /\ page_timings a' = page_timings a
  /\ visited_urls a' = visited_urls a
  /\ discovered_urls a' = discovered_urls a
  /\ security_hygiene a' = security_hygiene a
  /\ accessibility_violations a' = accessibility_violations a
  /\ screenshots a' = screenshots a
  /\ status a' = status a
  /\ progress a' = progress a
  /\ finished_at a' = finished_at a
  /\ error_message a' = error_message a
  /\ url a' = url a
  /\ options a' = options a.
Proof.
  destruct state as [a timings].
  destruct event as [page timestamp msg|page timestamp error|now request
                    |page now now_default response|page request];
    cbn [deliver fst snd].
  - unfold on_console. destruct (_ || _); simpl;
      split_and!; try done; first [by eexists | by exists []; rewrite app_nil_r | lia].
  - unfold on_pageerror. simpl.
    split_and!; try done; first [by eexists | by exists []; rewrite app_nil_r | lia].
  - unfold on_request. simpl.
    split_and!; try done; first [by exists []; rewrite app_nil_r | lia].
  - unfold on_response.
    destruct (400 <=? resp_status response), (1000 <? _),
      (resp_headers response !! "content-length") as [content_length|];
      try destruct (Py.truthy content_length);
      try destruct (py_int content_length) as [size|];
      try destruct (500000 <? size); simpl;
      split_and!; try done; first [by eexists | by exists []; rewrite app_nil_r | lia].
  - unfold on_request_failed. simpl.
    split_and!; try done; first [by eexists | by exists []; rewrite app_nil_r | lia].
Qed.

(** X25. Whatever event the page emits, its listener only appends findings
    and counts requests: the overall score and the sum of the category
    scores never rise, the number of requests never falls, and the flows,
    the visited and discovered sets, the security record, the screenshots,
    the status, the progress and the target URL of the audit are left as
    they were. *)
Theorem events_only_lower_the_score (event : PageEvent) (state : AuditState * gmap string Z) :
  let a := fst state in
  let a' := fst (deliver event state) in
  report_score (build a') <= report_score (build a)
  /\ total_category_score (report_category_scores (build a'))
     <= total_category_score (report_category_scores (build a))
  /\ total_requests a <= total_requests a'
  /\ ui_flows a' = ui_flows a
  /\ visited_urls a' = visited_urls a
  /\ discovered_urls a' = discovered_urls a
  /\ security_hygiene a' = security_hygiene a
  /\ screenshots a' = screenshots a
  /\ status a' = status a
  /\ progress a' = progress a
  /\ finished_at a' = finished_at a
  /\ url a' = url a.
Proof.
  intros a a'.
  destruct (deliver_frame event state)
    as ([lc Hc] & [ln Hn] & [ls Hs] & [ll Hl] & Hreq & Hflows & _ & Hvis & Hdisc & Hhyg
        & Ha11y & Hshots & Hstatus & Hprogress & Hfin & _ & Hurl & _).
  fold a a' in Hc, Hn, Hs, Hl, Hreq, Hflows, Hvis, Hdisc, Hhyg, Ha11y, Hshots, Hstatus,
    Hprogress, Hfin, Hurl.
  assert (Hbuild : report_score (build a') <= report_score (build a)
                   /\ total_category_score (report_category_scores (build a'))
                      <= total_category_score (report_category_scores (build a))).
  { apply build_score_le; try done;
      unfold Py.len; first [rewrite Hc | rewrite Hn | rewrite Hs | rewrite Hl];
      rewrite length_app; lia. }
  destruct Hbuild as [Hscore Hcats]. by split_and!.
Qed.

Lemma py_int_empty (s : string) : Py.truthy s = false -> py_int s = None.
Proof. by destruct s. Qed.

(** X26. A response is timed from the request recorded for its URL: after
    [on_request], the response for the same URL counts one request, is
    recorded as a network failure exactly when its status is 400 or more and
    as a slow endpoint exactly when more than 1000 ms have passed since the
    request; it is recorded as a large asset exactly when its content-length
    header reads as an integer above 500000, and a header that does not read
    as an integer is ignored.  A response whose URL was never requested is
    not recorded as slow when the clock does not run backwards. *)
Theorem response_is_timed_from_its_request (page : option string) (started now now_default : Z)
    (request : Request) (response : Response) (a : AuditState) (timings : gmap string Z) :
  resp_url response = req_url request ->
  let a' := fst (on_response page now now_default response
                   (on_request started request (a, timings))) in
  total_requests a' = total_requests a + 1
  /\ network_failures a'
     = network_failures a
       ++ (if 400 <=? resp_status response
           then [{| nf_url := resp_url response;
                    nf_method := req_method (resp_request response);
                    nf_status := Some (resp_status response);
                    nf_error := None;
                    nf_duration_ms := Some (now - started);
                    nf_page_url := current_page_url page;
                    nf_resource_type := Some (req_resource_type (resp_request response)) |}]
           else [])
  /\ slow_endpoints a'
     = slow_endpoints a
       ++ (if 1000 <? now - started
           then [{| se_url := resp_url response;
                    se_method := req_method (resp_request response);
                    se_duration_ms := now - started;
                    se_status := Some (resp_status response) |}]
           else [])
  /\ large_assets a'
     = large_assets a
       ++ match resp_headers response !! "content-length" ≫= py_int with
          | Some size =>
              if 500000 <? size
              then [{| la_url := resp_url response;
                       size_bytes := size;
                       la_type := default "unknown" (resp_headers response !! "content-type");
                       la_page_url := current_page_url page |}]
              else []
          | None => []
          end
  /\ (timings !! resp_url response = None -> now <= now_default ->
      slow_endpoints (fst (on_response page now now_default response (a, timings)))
      = slow_endpoints a).
Proof.
  intros Hurl a'. subst a'. unfold on_request, on_response.
  rewrite Hurl, lookup_insert_eq. unfold default, id.
  split_and!.
  - destruct (400 <=? resp_status response), (1000 <? now - started),
      (resp_headers response !! "content-length") as [content_length|];
      try destruct (Py.truthy content_length);
      try destruct (py_int content_length) as [size|];
      try destruct (500000 <? size); simpl; done.
  - destruct (400 <=? resp_status response), (1000 <? now - started),
      (resp_headers response !! "content-length") as [content_length|];
      try destruct (Py.truthy content_length);
      try destruct (py_int content_length) as [size|];
      try destruct (500000 <? size); simpl; by rewrite ?app_nil_r.
  - destruct (400 <=? resp_status response), (1000 <? now - started),
      (resp_headers response !! "content-length") as [content_length|];
      try destruct (Py.truthy content_length);
      try destruct (py_int content_length) as [size|];
      try destruct (500000 <? size); simpl; by rewrite ?app_nil_r.
  - destruct (resp_headers response !! "content-length") as [content_length|]; simpl.
    2:{ destruct (400 <=? resp_status response), (1000 <? now - started); simpl;
          by rewrite app_nil_r. }
    destruct (Py.truthy content_length) eqn:Htruthy.
    2:{ rewrite (py_int_empty _ Htruthy).
        destruct (400 <=? resp_status response), (1000 <? now - started); simpl;
          by rewrite app_nil_r. }
    destruct (py_int content_length) as [size|]; [destruct (500000 <? size)|];
      destruct (400 <=? resp_status response), (1000 <? now - started); simpl;
      by rewrite ?app_nil_r.
  - intros Hnone Hclock. rewrite Hnone.
    assert ((1000 <? now - now_default) = false) as -> by (apply Z.ltb_ge; lia).
    destruct (400 <=? resp_status response),
      (resp_headers response !! "content-length") as [content_length|];
      try destruct (Py.truthy content_length);
      try destruct (py_int content_length) as [size|];
      try destruct (500000 <? size); simpl; done.
Qed.

Lemma response_is_timed_from_its_request_witness :
  slow_endpoints
    (fst (on_response None 2500 2500
            {| resp_url := "https://example.test/api"; resp_status := 200;
               resp_request := {| req_url := "https://example.test/api"; req_method := "GET";
                                  req_resource_type := "fetch"; req_failure := None |};
               resp_headers := ∅ |}
            (on_request 1000
               {| req_url := "https://example.test/api"; req_method := "GET";
                  req_resource_type := "fetch"; req_failure := None |}
               (example_audit, ∅))))
  = [{| se_url := "https://example.test/api"; se_method := "GET";
        se_duration_ms := 1500; se_status := Some 200 |}].
Proof.
  destruct (response_is_timed_from_its_request None 1000 2500 2500
              {| req_url := "https://example.test/api"; req_method := "GET";
                 req_resource_type := "fetch"; req_failure := None |}
              {| resp_url := "https://example.test/api"; resp_status := 200;
                 resp_request := {| req_url := "https://example.test/api"; req_method := "GET";
                                    req_resource_type := "fetch"; req_failure := None |};
                 resp_headers := ∅ |}
              example_audit ∅ eq_refl) as (_ & _ & H & _).
  exact H.
Defined.

(** ** The rate-limit middleware *)

Lemma rate_limit_middleware_verdict (request : HttpRequest) (limiter : RateLimiter) (now : Z) :
  fst (rate_limit_middleware request limiter now)
  = if fst (is_allowed limiter (get_client_ip request) now) then None
    else Some {| status_code := 429;
                 detail_error := "rate_limit_exceeded";
                 detail_message := "Too many requests. Limit: "
                                   +:+ pretty (requests_per_minute limiter) +:+ "/minute";
                 retry_after_seconds := 60 |}.
Proof.
  unfold rate_limit_middleware.
  destruct (is_allowed limiter (get_client_ip request) now) as [allowed limiter'] eqn:Hcall.
  destruct allowed; simpl; [done|].
  assert (limiter' = snd (is_allowed limiter (get_client_ip request) now)) as ->
    by (by rewrite Hcall).
  unfold is_allowed, _cleanup_old_requests. simpl. by destruct (_ <=? _).
Qed.

Lemma rate_limit_middleware_limiter (request : HttpRequest) (limiter : RateLimiter) (now : Z) :
  snd (rate_limit_middleware request limiter now)
  = snd (is_allowed limiter (get_client_ip request) now).
Proof.
  unfold rate_limit_middleware.
  destruct (is_allowed limiter (get_client_ip request) now) as [[] limiter']; done.
Qed.

(** X27. The middleware refuses a request, with status 429 and a retry time
    of 60 seconds, exactly when the limiter refuses the key of the request;
    the key is the trimmed first entry of X-Forwarded-For when that header is
    set, whatever X-Real-IP and the peer address are; and requests with
    different keys never change each other's verdict. *)
Theorem middleware_limits_per_client_key (request other : HttpRequest)
    (limiter : RateLimiter) (now earlier : Z) :
  (fst (rate_limit_middleware request limiter now) = None
   <-> fst (is_allowed limiter (get_client_ip request) now) = true)
  /\ (forall e, fst (rate_limit_middleware request limiter now) = Some e ->
        status_code e = 429 /\ retry_after_seconds e = 60
        /\ detail_error e = "rate_limit_exceeded")
  /\ (forall forwarded, x_forwarded_for request = Some forwarded -> forwarded <> "" ->
        get_client_ip request = Py.strip (UrlParse.before "," forwarded))
  /\ (get_client_ip other <> get_client_ip request ->
      fst (rate_limit_middleware request
             (snd (rate_limit_middleware other limiter earlier)) now)
      = fst (rate_limit_middleware request limiter now)).
Proof.
  split_and!.
  - rewrite rate_limit_middleware_verdict. by destruct (fst (is_allowed _ _ _)).
  - intros e. rewrite rate_limit_middleware_verdict.
    destruct (fst (is_allowed _ _ _)); [done|]. by intros [= <-].
  - intros forwarded Hf Hne. unfold get_client_ip. rewrite Hf. simpl.
    by destruct forwarded.
  - intros Hne. rewrite !rate_limit_middleware_verdict, rate_limit_middleware_limiter.
    rewrite !is_allowed_verdict.
    rewrite (is_allowed_other limiter (get_client_ip other) (get_client_ip request) earlier)
      by done.
    assert (requests_per_minute (snd (is_allowed limiter (get_client_ip other) earlier))
            = requests_per_minute limiter) as ->; [|done].
    unfold is_allowed, _cleanup_old_requests. simpl. by destruct (_ <=? _).
Qed.

Lemma middleware_limits_per_client_key_witness :
  get_client_ip {| x_forwarded_for := Some " 203.0.113.7 , 10.0.0.1";
                   x_real_ip := Some "198.51.100.2"; client_host := Some "10.0.0.9" |}
  = "203.0.113.7".
Proof.
  destruct (middleware_limits_per_client_key
              {| x_forwarded_for := Some " 203.0.113.7 , 10.0.0.1";
                 x_real_ip := Some "198.51.100.2"; client_host := Some "10.0.0.9" |}
              {| x_forwarded_for := None; x_real_ip := None; client_host := None |}
              (RateLimiter_init 30) 0 0) as (_ & _ & H & _).
  rewrite (H " 203.0.113.7 , 10.0.0.1" eq_refl); [reflexivity|discriminate].
Defined.

(** ** CORS origins *)

Lemma split_comma_cons (s : string) : exists piece pieces, split_comma s = piece :: pieces.
Proof.
  induction s as [|c r (piece & pieces & IH)]; simpl; [by eexists _, _|].
  destruct (Ascii.eqb c ","); [by eexists _, _|]. rewrite IH. by eexists _, _.
Qed.

Lemma split_comma_no_comma (s piece : string) :
  In piece (split_comma s) -> UrlParse.contains "," piece = false.
Proof.
  revert piece. induction s as [|c r IH]; intros piece; simpl.
  - by intros [<-|[]].
  - destruct (Ascii.eqb c ",") eqn:Hc.
    + intros [<-|Hin]; [done|by apply IH].
    + destruct (split_comma_cons r) as (first & pieces & Hr). rewrite Hr in *.
      intros [<-|Hin].
      * simpl. rewrite Hc. apply IH. by left.
      * apply IH. by right.
Qed.

Lemma contains_lstrip (c : ascii) (s : string) :
  UrlParse.contains c s = false -> UrlParse.contains c (Py.lstrip s) = false.
Proof.
  induction s as [|d r IH]; simpl; [done|].
  destruct (Ascii.eqb d c) eqn:Hd; [done|]. intros Hr.
  destruct (Py.isspace d); [by apply IH|]. simpl. by rewrite Hd.
Qed.

Lemma contains_rstrip (c : ascii) (s : string) :
  UrlParse.contains c s = false -> UrlParse.contains c (Py.rstrip s) = false.
Proof.
  induction s as [|d r IH]; simpl; [done|].
  destruct (Ascii.eqb d c) eqn:Hd; [done|]. intros Hr. specialize (IH Hr).
  destruct (Py.rstrip r) as [|e r'].
  - destruct (Py.isspace d); simpl; [done|]. by rewrite Hd.
  - simpl in *. by rewrite Hd.
Qed.

(** X28. Every origin of [cors_origins_list] is non-empty, carries no white
    space around it and no comma; blank entries of the setting are dropped,
    so a setting made of commas and white space alone yields no origin. *)
Theorem cors_origins_are_trimmed (CORS_ORIGINS : string) :
  Forall (fun origin => origin <> ""
                        /\ Py.strip origin = origin
                        /\ UrlParse.contains "," origin = false)
    (cors_origins_list CORS_ORIGINS)
  /\ (length (cors_origins_list CORS_ORIGINS) <= length (split_comma CORS_ORIGINS))%nat
  /\ (Forall (fun piece => Py.strip piece = "") (split_comma CORS_ORIGINS) ->
      cors_origins_list CORS_ORIGINS = []).
Proof.
  unfold cors_origins_list. split_and!.
  - apply Forall_forall. intros origin Hin.
    apply list_elem_of_In, in_map_iff in Hin as (piece & <- & Hpiece).
    apply filter_In in Hpiece as [Hpiece Htruthy].
    split_and!.
    + intros Hnil. by rewrite Hnil in Htruthy.
    + apply strip_idem.
    + unfold Py.strip. apply contains_rstrip, contains_lstrip.
      by apply split_comma_no_comma with (s := CORS_ORIGINS).
  - rewrite length_map. apply filter_length_le.
  - intros Hblank. induction Hblank as [|piece pieces Hpiece _ IH]; simpl; [done|].
    by rewrite Hpiece.
Qed.

Lemma cors_origins_are_trimmed_witness : cors_origins_list " , ,," = [].
Proof.
  apply (cors_origins_are_trimmed " , ,,").
  repeat (apply List.Forall_cons; [reflexivity|]). apply List.Forall_nil.
Defined.

(** ** Discovered URLs *)



